(** * Chunked tar container and tar-restore driver of mongo-tools

    A shallow embedding of
    - the chunked tar [Writer] (package chunktar: NewWriter, WriteHeader,
      Write, Flush, Close, swapInOut, writeOutput),
    - the chunked tar [Reader] (package chunktar: NewReader, Next, Read,
      nextChunk),
    - the tar restore driver (package mongorestore: RestoreTarDump,
      TarRestoreState, ChangeDatabase, ChangeCollection),
    followed by the properties of the specification that were checked
    against them. *)

From Stdlib Require Import ZArith List String Ascii Bool Lia.
From Stdlib Require Import Strings.Byte.
Import ListNotations.

Local Open Scope Z_scope.

(* ================================================================== *)
(** * Go runtime conventions *)
(* ================================================================== *)

Module Go.

(** Go [error] values that the embedded code creates or forwards. *)
Inductive error : Type :=
| io_EOF
| ErrWriterNotOpen                      (* "chunktar.Writer not open" *)
| ErrTarWriteAfterClose                 (* archive/tar: write after close *)
| ErrTarWriteTooLong                    (* archive/tar: write too long *)
| ErrTarMissedWriting (n : Z)           (* archive/tar: missed writing n bytes *)
| ErrTarHeader (msg : string)           (* archive/tar: damaged header *)
| ErrUnableToReadNext (cause : error)   (* "unable to read next file from tar archive: %v" *)
| ErrParseChunkNumber (file : string)   (* "unable to parse chunk number from file ..." *)
| ErrChunksOutOfOrder (name : string) (expected got : Z)
| ErrMissingFirstChunk (name : string) (got : Z)
| ErrCollaborator (msg : string).       (* an error made by a restore callback *)

(** The outcome of running a Go function: it returns, it panics (slice
    bounds, nil dereference), or the model's loop bound was too small. *)
Inductive go (A : Type) : Type :=
| Returns (a : A)
| Panics (msg : string)
| OutOfFuel.
Arguments Returns {A} a.
Arguments Panics {A} msg.
Arguments OutOfFuel {A}.

Definition bind {A B} (m : go A) (k : A -> go B) : go B :=
  match m with
  | Returns a => k a
  | Panics msg => Panics msg
  | OutOfFuel => OutOfFuel
  end.

Definition uint64_modulus : Z := 2 ^ 64.
Definition uint64_wrap (z : Z) : Z := z mod uint64_modulus.

(** [len] of a slice or buffer, as a Go [int]. *)
Definition len {A} (l : list A) : Z := Z.of_nat (List.length l).

(** The slice expression [b[lo:hi]]; it panics outside [0 <= lo <= hi <= len b]. *)
Definition slice {A} (b : list A) (lo hi : Z) : go (list A) :=
  if (0 <=? lo) && (lo <=? hi) && (hi <=? len b)
  then Returns (firstn (Z.to_nat (hi - lo)) (skipn (Z.to_nat lo) b))
  else Panics "slice bounds out of range".

Arguments len : simpl never.

(** util.MinInt *)
Definition MinInt (a b : Z) : Z := if a >? b then b else a.

End Go.
Import Go.

Declare Scope go_scope.
Delimit Scope go_scope with go.
Notation "x <- m ;; k" := (Go.bind m (fun x => k))
  (at level 61, m at next level, right associativity) : go_scope.
Notation "' p <- m ;; k" := (Go.bind m (fun x => match x with p => k end))
  (at level 61, p pattern, m at next level, right associativity) : go_scope.

(* ================================================================== *)
(** * archive/tar, as far as the container uses it *)
(* ================================================================== *)

Module Tar.

(** tar.Header: the fields the writer fills in.  ModTime (time.Now()) is
    the wall clock of the run and is left out of the model. *)
Record Header : Type := mkHeader { Name : string; Mode : Z; Size : Z }.

(** A tar entry: its header and the bytes of its body. *)
Record Entry : Type := mkEntry { hdr : Header; body : list byte }.

(** tar.Writer over an in-memory sink: the finished entries, the entry
    being written, and whether Close has run. *)
Record Writer : Type := mkWriter {
  tw_done : list Entry;
  tw_cur : option Entry;
  tw_closed : bool
}.

Definition NewWriter : Writer :=
  {| tw_done := []; tw_cur := None; tw_closed := false |}.

(** The entries in the sink, in the order they were written. *)
Definition archive (tw : Writer) : list Entry :=
  tw_done tw ++ match tw_cur tw with Some e => [e] | None => [] end.

(** Bytes the current entry still expects. *)
Definition missing (tw : Writer) : Z :=
  match tw_cur tw with
  | Some e => Size (hdr e) - len (body e)
  | None => 0
  end.

Definition Flush (tw : Writer) : Writer * option error :=
  if missing tw >? 0 then (tw, Some (ErrTarMissedWriting (missing tw)))
  else (tw, None).

Definition WriteHeader (tw : Writer) (h : Header) : Writer * option error :=
  if tw_closed tw then (tw, Some ErrTarWriteAfterClose)
  else match Flush tw with
       | (tw', Some e) => (tw', Some e)
       | (tw', None) =>
           ({| tw_done := archive tw';
               tw_cur := Some {| hdr := h; body := [] |};
               tw_closed := false |}, None)
       end.

(** tar.Writer.Write: bytes beyond the size announced in the header are
    refused with ErrWriteTooLong. *)
Definition Write (tw : Writer) (b : list byte) : Writer * Z * option error :=
  if tw_closed tw then (tw, 0, Some ErrTarWriteAfterClose)
  else match tw_cur tw with
       | None => (tw, 0, if len b >? 0 then Some ErrTarWriteTooLong else None)
       | Some e =>
           let room := Size (hdr e) - len (body e) in
           let overwrite := len b >? room in
           let b' := if overwrite then firstn (Z.to_nat room) b else b in
           ({| tw_done := tw_done tw;
               tw_cur := Some {| hdr := hdr e; body := body e ++ b' |};
               tw_closed := false |},
            len b',
            if overwrite then Some ErrTarWriteTooLong else None)
       end.

Definition Close (tw : Writer) : Writer * option error :=
  if tw_closed tw then (tw, None)
  else match Flush tw with
       | (tw', Some e) => (tw', Some e)
       | (tw', None) =>
           ({| tw_done := tw_done tw'; tw_cur := tw_cur tw'; tw_closed := true |},
            None)
       end.

(** What a tar stream holds: entries, and headers that do not decode. *)
Inductive Item : Type :=
| File (e : Entry)
| Damaged (msg : string).

(** tar.Reader over an in-memory source: the items not yet reached, the
    unread bytes of the current entry, and the sticky error.  [tr_eager]
    tells whether Read reports io.EOF together with the last bytes of an
    entry or only on the call after them; io.Reader allows both and
    archive/tar has done both. *)
Record Reader : Type := mkReader {
  tr_items : list Item;
  tr_curr : option (list byte);
  tr_err : option error;
  tr_eager : bool
}.

Definition NewReader (eager : bool) (source : list Item) : Reader :=
  {| tr_items := source; tr_curr := None; tr_err := None; tr_eager := eager |}.

(** tar.Reader.Next skips what is left of the current entry and decodes
    the next header. *)
Definition Next (tr : Reader) : Reader * (Header + error) :=
  match tr_err tr with
  | Some e => (tr, inr e)
  | None =>
      match tr_items tr with
      | [] =>
          ({| tr_items := []; tr_curr := None; tr_err := Some io_EOF;
              tr_eager := tr_eager tr |}, inr io_EOF)
      | File e :: rest =>
          ({| tr_items := rest; tr_curr := Some (body e); tr_err := None;
              tr_eager := tr_eager tr |}, inl (hdr e))
      | Damaged msg :: rest =>
          ({| tr_items := rest; tr_curr := None;
              tr_err := Some (ErrTarHeader msg);
              tr_eager := tr_eager tr |}, inr (ErrTarHeader msg))
      end
  end.

(** tar.Reader.Read into a buffer of [n] bytes: the bytes read and the error. *)
Definition Read (tr : Reader) (n : Z) : Reader * list byte * option error :=
  match tr_err tr with
  | Some e => (tr, [], Some e)
  | None =>
      match tr_curr tr with
      | None => (tr, [], Some io_EOF)
      | Some unread =>
          let data := firstn (Z.to_nat n) unread in
          let unread' := skipn (Z.to_nat n) unread in
          let tr' := {| tr_items := tr_items tr; tr_curr := Some unread';
                        tr_err := None; tr_eager := tr_eager tr |} in
          match unread with
          | [] => (tr, [], Some io_EOF)
          | _ =>
              match unread' with
              | [] => (tr', data, if tr_eager tr then Some io_EOF else None)
              | _ => (tr', data, None)
              end
          end
      end
  end.

End Tar.

(* ================================================================== *)
(** * Decimal formatting and parsing *)
(* ================================================================== *)

Module Decimal.

Definition digit (d : Z) : ascii := ascii_of_nat (48 + Z.to_nat d).

Definition is_digit (c : ascii) : bool :=
  let n := nat_of_ascii c in (48 <=? n)%nat && (n <=? 57)%nat.

Definition digit_value (c : ascii) : Z := Z.of_nat (nat_of_ascii c) - 48.

(** Digits of [n], most significant first, in front of [acc]. *)
Fixpoint digits (fuel : nat) (n : Z) (acc : list ascii) : list ascii :=
  match fuel with
  | O => acc
  | S fuel' =>
      let acc' := digit (n mod 10) :: acc in
      if n / 10 =? 0 then acc' else digits fuel' (n / 10) acc'
  end.

(** A uint64 has at most 20 decimal digits. *)
Definition itoa (n : Z) : list ascii := digits 20 n [].

(** The verb %012d: at least 12 digits, padded with zeros on the left. *)
Definition pad12 (n : Z) : list ascii :=
  let ds := itoa n in
  repeat "0"%char (12 - List.length ds) ++ ds.

(** strconv.ParseUint(s, 10, 64) on a string of digits. *)
Fixpoint parse_from (acc : Z) (s : list ascii) : option Z :=
  match s with
  | [] => Some acc
  | c :: s' =>
      if is_digit c then
        let acc' := acc * 10 + digit_value c in
        if acc' <? uint64_modulus then parse_from acc' s' else None
      else None
  end.

Definition ParseUint (s : list ascii) : option Z :=
  match s with
  | [] => None
  | _ => parse_from 0 s
  end.

End Decimal.

(* ================================================================== *)
(** * package chunktar: the Writer *)
(* ================================================================== *)

Module ChunktarWriter.

Definition bufferThreshold : Z := 4 * 1024 * 1024.
Definition bufferLimit : Z := bufferThreshold * 2.

(** The background goroutine and its sync.WaitGroup are sequentialised:
    [wait] holds the chunk name of the one writeOutput task that has
    been started and not yet waited for.  The foreground touches neither
    the tar writer nor the output buffer before the next [Wait], so
    running the task at the barrier yields the archive of every
    interleaving. *)
Record Writer : Type := mkWriter {
  tarWriter : Tar.Writer;
  inputBuffer : list byte;
  outputBuffer : list byte;
  outputError : option error;
  open : bool;
  wait : option string;
  name : string;
  chunkCount : Z
}.

Definition NewWriter : Writer :=
  {| tarWriter := Tar.NewWriter;
     inputBuffer := [];
     outputBuffer := [];
     outputError := None;
     open := true;
     wait := None;
     name := EmptyString;
     chunkCount := 0 |}.

Definition set_tarWriter (w : Writer) (tw : Tar.Writer) : Writer :=
  mkWriter tw (inputBuffer w) (outputBuffer w) (outputError w) (open w)
           (wait w) (name w) (chunkCount w).
Definition set_inputBuffer (w : Writer) (b : list byte) : Writer :=
  mkWriter (tarWriter w) b (outputBuffer w) (outputError w) (open w)
           (wait w) (name w) (chunkCount w).
Definition set_outputBuffer (w : Writer) (b : list byte) : Writer :=
  mkWriter (tarWriter w) (inputBuffer w) b (outputError w) (open w)
           (wait w) (name w) (chunkCount w).
Definition set_outputError (w : Writer) (e : option error) : Writer :=
  mkWriter (tarWriter w) (inputBuffer w) (outputBuffer w) e (open w)
           (wait w) (name w) (chunkCount w).
Definition set_open (w : Writer) (o : bool) : Writer :=
  mkWriter (tarWriter w) (inputBuffer w) (outputBuffer w) (outputError w) o
           (wait w) (name w) (chunkCount w).
Definition set_wait (w : Writer) (p : option string) : Writer :=
  mkWriter (tarWriter w) (inputBuffer w) (outputBuffer w) (outputError w)
           (open w) p (name w) (chunkCount w).
Definition set_name (w : Writer) (n : string) : Writer :=
  mkWriter (tarWriter w) (inputBuffer w) (outputBuffer w) (outputError w)
           (open w) (wait w) n (chunkCount w).
Definition set_chunkCount (w : Writer) (c : Z) : Writer :=
  mkWriter (tarWriter w) (inputBuffer w) (outputBuffer w) (outputError w)
           (open w) (wait w) (name w) c.

(** fmt.Sprintf("%s.%012d", name, chunkCount) *)
Definition chunkName (name : string) (count : Z) : string :=
  (name ++ "." ++ string_of_list_ascii (Decimal.pad12 count))%string.

(** The body of the goroutine started by swapInOut. *)
Definition writeOutput (w : Writer) (chunkName : string) : Writer :=
  let header := {| Tar.Name := chunkName; Tar.Mode := 420 (* 0644 *);
                   Tar.Size := len (outputBuffer w) |} in
  match Tar.WriteHeader (tarWriter w) header with
  | (tw, Some err) => set_outputError (set_tarWriter w tw) (Some err)
  | (tw, None) =>
      (* outputBuffer.WriteTo(tarWriter): one Write of the whole buffer,
         none when it is empty; the buffer is drained *)
      match outputBuffer w with
      | [] => set_tarWriter w tw
      | _ =>
          match Tar.Write tw (outputBuffer w) with
          | (tw', m, Some err) =>
              set_outputError
                (set_outputBuffer (set_tarWriter w tw')
                   (skipn (Z.to_nat m) (outputBuffer w)))
                (Some err)
          | (tw', _, None) => set_outputBuffer (set_tarWriter w tw') []
          end
      end
  end.

(** w.wait.Wait(): the barrier; the task in flight, if any, runs to its end. *)
Definition Wait (w : Writer) : Writer :=
  match wait w with
  | None => w
  | Some chunkName => writeOutput (set_wait w None) chunkName
  end.

Definition swapInOut (w : Writer) : Writer * option error :=
  let w := Wait w in
  match outputError w with
  | Some err => (w, Some err)
  | None =>
      let chunkName := chunkName (name w) (chunkCount w) in
      let w := set_chunkCount w (uint64_wrap (chunkCount w + 1)) in
      let w := set_outputBuffer (set_inputBuffer w (outputBuffer w)) (inputBuffer w) in
      let w := set_wait w (Some chunkName) in       (* go w.writeOutput(chunkName) *)
      let w := set_inputBuffer w [] in               (* w.inputBuffer.Reset() *)
      (w, None)
  end.

Definition Flush (w : Writer) : Writer * option error :=
  if negb (open w) then (w, Some ErrWriterNotOpen)
  else
    let '(w, err) :=
      if len (inputBuffer w) >? 0 then swapInOut w else (w, None) in
    match err with
    | Some e => (w, Some e)
    | None =>
        let w := Wait w in
        match outputError w with
        | Some e => (w, Some e)
        | None =>
            let '(tw, err) := Tar.Flush (tarWriter w) in
            (set_tarWriter w tw, err)
        end
    end.

Definition Close (w : Writer) : Writer * option error :=
  if negb (open w) then (w, Some ErrWriterNotOpen)
  else
    (* defer func() { w.open = false }() *)
    match Flush w with
    | (w, Some e) => (set_open w false, Some e)
    | (w, None) =>
        let '(tw, err) := Tar.Close (tarWriter w) in
        (set_open (set_tarWriter w tw) false, err)
    end.

Definition WriteHeader (w : Writer) (name : string) : Writer * option error :=
  if negb (open w) then (w, Some ErrWriterNotOpen)
  else
    match Flush w with
    | (w, Some e) => (w, Some e)
    | (w, None) => (set_chunkCount (set_name w name) 0, None)
    end.

(** The for loop of Write, entered at its condition with the loop
    variables [start] and [stop]; [n] is the named result of Write. *)
Fixpoint Write_loop (fuel : nat) (w : Writer) (b : list byte) (n start stop : Z)
  : go (Writer * Z * option error) :=
  match fuel with
  | O => OutOfFuel
  | S fuel' =>
      if start <? len b then
        let '(w, err) := if start >? 0 then swapInOut w else (w, None) in
        match err with
        | Some e => Returns (w, n, Some e)
        | None =>
            (piece <- slice b start stop ;;
             (* n, err = w.inputBuffer.Write(b[start:stop]); it never fails *)
             let w := set_inputBuffer w (inputBuffer w ++ piece) in
             Write_loop fuel' w b (len piece) stop
               (MinInt (stop + bufferLimit) (len b)))%go
        end
      else Returns (w, n, None)
  end.

(** Write returns the state, [n] and [err]. *)
Definition Write (w : Writer) (b : list byte) : go (Writer * Z * option error) :=
  if negb (open w) then Returns (w, 0, Some ErrWriterNotOpen)
  else
    let writeSize := len b in
    ('(w, n, err) <-
       Write_loop (S (S (List.length b))) w b 0 0
         (MinInt writeSize (bufferLimit - len (inputBuffer w))) ;;
     match err with
     | Some e => Returns (w, n, Some e)
     | None =>
         if len (inputBuffer w) >? bufferThreshold then
           match swapInOut w with
           | (w, Some e) => Returns (w, n, Some e)
           | (w, None) => Returns (w, writeSize, None)
           end
         else Returns (w, writeSize, None)
     end)%go.

End ChunktarWriter.

(* ================================================================== *)
(** * package chunktar: the Reader *)
(* ================================================================== *)

Module ChunktarReader.

Definition newline : ascii := ascii_of_nat 10.

(** chunkFileNameRegex = `^(.+)\.(\d{12})$`, through FindStringSubmatch:
    the two groups of the match.  The pattern is anchored at both ends,
    so the last thirteen bytes are a dot and twelve ASCII digits and the
    first group is all that precedes them; `.` matches every byte but a
    line feed, and the group is not empty. *)
Definition chunkFileNameRegex_FindStringSubmatch (s : string)
  : option (string * list ascii) :=
  let l := list_ascii_of_string s in
  let n := List.length l in
  if (n <? 14)%nat then None
  else
    let base := firstn (n - 13) l in
    match skipn (n - 13) l with
    | c :: ds =>
        if Ascii.eqb c "."%char
           && forallb Decimal.is_digit ds
           && forallb (fun c => negb (Ascii.eqb c newline)) base
        then Some (string_of_list_ascii base, ds)
        else None
    | [] => None
    end.

Record Reader : Type := mkReader {
  tarReader : Tar.Reader;
  name : string;
  number : Z;
  nextName : string
}.

Definition NewReader (source : Tar.Reader) : Reader :=
  {| tarReader := source; name := EmptyString; number := 0;
     nextName := EmptyString |}.

Definition set_tarReader (r : Reader) (tr : Tar.Reader) : Reader :=
  mkReader tr (name r) (number r) (nextName r).
Definition set_name (r : Reader) (n : string) : Reader :=
  mkReader (tarReader r) n (number r) (nextName r).
Definition set_number (r : Reader) (k : Z) : Reader :=
  mkReader (tarReader r) (name r) k (nextName r).
Definition set_nextName (r : Reader) (n : string) : Reader :=
  mkReader (tarReader r) (name r) (number r) n.

Definition nextChunk (r : Reader) : Reader * option error :=
  let '(tr, res) := Tar.Next (tarReader r) in
  let r := set_tarReader r tr in
  match res with
  | inr io_EOF => (r, Some io_EOF)
  | inr err => (r, Some (ErrUnableToReadNext err))
  | inl header =>
      match chunkFileNameRegex_FindStringSubmatch (Tar.Name header) with
      | Some (name', digits) =>
          match Decimal.ParseUint digits with
          | None => (r, Some (ErrParseChunkNumber (Tar.Name header)))
          | Some chunk =>
              if String.eqb name' (name r) then
                if negb (chunk =? uint64_wrap (number r + 1)) then
                  (r, Some (ErrChunksOutOfOrder name'
                              (uint64_wrap (number r + 1)) chunk))
                else (set_number r chunk, None)
              else if negb (chunk =? 0) then
                (r, Some (ErrMissingFirstChunk name' chunk))
              else (set_name (set_nextName r name') EmptyString, None)
          end
      | None =>
          (* tar file not chunked *)
          (set_name (set_nextName r (Tar.Name header)) EmptyString, None)
      end
  end.

(** The for loop of Next, entered at its condition. *)
Fixpoint Next_loop (fuel : nat) (r : Reader) (err : option error)
  : go (Reader * string * option error) :=
  match fuel with
  | O => OutOfFuel
  | S fuel' =>
      if String.eqb (nextName r) EmptyString then
        match err with
        | Some e => Returns (r, EmptyString, Some e)
        | None => let '(r, err) := nextChunk r in Next_loop fuel' r err
        end
      else
        let r := set_name r (nextName r) in
        let r := set_nextName r EmptyString in
        let r := set_number r 0 in
        Returns (r, name r, None)
  end.

(** Every pass of the loop consumes one item of the tar source or ends it. *)
Definition Next (r : Reader) : go (Reader * string * option error) :=
  Next_loop (3 + List.length (Tar.tr_items (tarReader r))) r None.

(** Read into a buffer of [lenb] bytes: the state, the bytes b[:n], and err. *)
Definition Read (r : Reader) (lenb : Z) : Reader * list byte * option error :=
  if negb (String.eqb (nextName r) EmptyString) || String.eqb (name r) EmptyString
  then (r, [], Some io_EOF)
  else if lenb =? 0 then (r, [], None)
  else
    let '(tr, data, err) := Tar.Read (tarReader r) lenb in
    let r := set_tarReader r tr in
    match err with
    | Some io_EOF =>
        match nextChunk r with
        | (r, Some err) => (r, data, Some err)
        | (r, None) =>
            if (len data =? 0) && String.eqb (nextName r) EmptyString then
              let '(tr, data, err) := Tar.Read (tarReader r) lenb in
              (set_tarReader r tr, data, err)
            else (r, data, None)
        end
    | _ => (r, data, err)
    end.

End ChunktarReader.

(* ================================================================== *)
(** * Producers and consumers of the container *)
(* ================================================================== *)

Module Client.

Import ChunktarWriter.

(** A call on the Writer. *)
Inductive op : Type :=
| OpWriteHeader (name : string)
| OpWrite (b : list byte)
| OpFlush
| OpClose.

Definition run_op (w : Writer) (o : op) : go (Writer * option error) :=
  match o with
  | OpWriteHeader n => Returns (WriteHeader w n)
  | OpWrite b => ('(w, _, err) <- Write w b ;; Returns (w, err))%go
  | OpFlush => Returns (Flush w)
  | OpClose => Returns (Close w)
  end.

(** A producer stops at the first error it is handed. *)
Fixpoint run_ops (w : Writer) (ops : list op) : go (Writer * option error) :=
  match ops with
  | [] => Returns (w, None)
  | o :: ops' =>
      ('(w, err) <- run_op w o ;;
       match err with
       | Some e => Returns (w, Some e)
       | None => run_ops w ops'
       end)%go
  end.

(** The tar archive a producer leaves in the sink. *)
Definition written (ops : list op) : go (list Tar.Entry * option error) :=
  ('(w, err) <- run_ops NewWriter ops ;;
   Returns (Tar.archive (tarWriter w), err))%go.

(** The producer of the specification's round trip: for each logical
    file a WriteHeader and its Writes, and Close at the end. *)
Definition produce (files : list (string * list (list byte))) : list op :=
  flat_map (fun f => OpWriteHeader (fst f) :: map OpWrite (snd f)) files
  ++ [OpClose].

Import ChunktarReader.

(** A consumer of one logical file: Read with a buffer of [bufsz] bytes
    until an error, io.EOF included, comes back. *)
Fixpoint ReadAll (fuel : nat) (r : Reader) (bufsz : Z)
  : go (Reader * list byte * error) :=
  match fuel with
  | O => OutOfFuel
  | S fuel' =>
      match Read r bufsz with
      | (r, data, Some err) => Returns (r, data, err)
      | (r, data, None) =>
          ('(r, more, err) <- ReadAll fuel' r bufsz ;;
           Returns (r, data ++ more, err))%go
      end
  end.

(** A consumer of the archive, shaped like the loop of RestoreTarDump:
    Next until io.EOF, reading each logical file to its end. *)
Fixpoint ReadFiles (fuel : nat) (r : Reader) (bufsz : Z)
  : go (list (string * list byte) * option error) :=
  match fuel with
  | O => OutOfFuel
  | S fuel' =>
      ('(r, fileName, err) <- Next r ;;
       match err with
       | Some io_EOF => Returns ([], None)
       | Some e => Returns ([], Some e)
       | None =>
           ('(r, data, err) <- ReadAll fuel' r bufsz ;;
            match err with
            | io_EOF =>
                ('(files, err) <- ReadFiles fuel' r bufsz ;;
                 Returns ((fileName, data) :: files, err))
            | e => Returns ([(fileName, data)], Some e)
            end)
       end)%go
  end.

Definition read_back (fuel : nat) (eager : bool) (a : list Tar.Entry) (bufsz : Z)
  : go (list (string * list byte) * option error) :=
  ReadFiles fuel (NewReader (Tar.NewReader eager (map Tar.File a))) bufsz.

End Client.

(* ================================================================== *)
(** * package chunktar: the Writer before chunks were numbered *)
(* ================================================================== *)

(** The Writer of src/mongorestore/chunktar.go: every chunk of a logical
    file goes under the name of the file, Write and WriteHeader do not
    test [open], and writeOutput reads the name when it runs. *)
Module LegacyWriter.

Definition bufferThreshold : Z := 4 * 1024 * 1024.
Definition bufferLimit : Z := bufferThreshold * 2.

Definition min (a b : Z) : Z := if a >? b then b else a.

(** The goroutine and its sync.WaitGroup are sequentialised as for the
    numbered Writer: [wait] tells whether a writeOutput task has been
    started and not yet waited for.  The name changes only in
    WriteHeader, behind the barrier of Flush, so the task reads the name
    it was started under. *)
Record Writer : Type := mkWriter {
  tarWriter : Tar.Writer;
  inputBuffer : list byte;
  outputBuffer : list byte;
  outputError : option error;
  open : bool;
  wait : bool;
  name : string
}.

Definition NewWriter : Writer :=
  {| tarWriter := Tar.NewWriter;
     inputBuffer := [];
     outputBuffer := [];
     outputError := None;
     open := true;
     wait := false;
     name := EmptyString |}.

Definition set_tarWriter (w : Writer) (tw : Tar.Writer) : Writer :=
  mkWriter tw (inputBuffer w) (outputBuffer w) (outputError w) (open w)
           (wait w) (name w).
Definition set_inputBuffer (w : Writer) (b : list byte) : Writer :=
  mkWriter (tarWriter w) b (outputBuffer w) (outputError w) (open w)
           (wait w) (name w).
Definition set_outputBuffer (w : Writer) (b : list byte) : Writer :=
  mkWriter (tarWriter w) (inputBuffer w) b (outputError w) (open w)
           (wait w) (name w).
Definition set_outputError (w : Writer) (e : option error) : Writer :=
  mkWriter (tarWriter w) (inputBuffer w) (outputBuffer w) e (open w)
           (wait w) (name w).
Definition set_open (w : Writer) (o : bool) : Writer :=
  mkWriter (tarWriter w) (inputBuffer w) (outputBuffer w) (outputError w) o
           (wait w) (name w).
Definition set_wait (w : Writer) (p : bool) : Writer :=
  mkWriter (tarWriter w) (inputBuffer w) (outputBuffer w) (outputError w)
           (open w) p (name w).
Definition set_name (w : Writer) (n : string) : Writer :=
  mkWriter (tarWriter w) (inputBuffer w) (outputBuffer w) (outputError w)
           (open w) (wait w) n.

(** The body of the goroutine started by swapInOut; the header has the
    name and the size, its mode is the zero value. *)
Definition writeOutput (w : Writer) : Writer :=
  let header := {| Tar.Name := name w; Tar.Mode := 0;
                   Tar.Size := len (outputBuffer w) |} in
  match Tar.WriteHeader (tarWriter w) header with
  | (tw, Some err) => set_outputError (set_tarWriter w tw) (Some err)
  | (tw, None) =>
      match outputBuffer w with
      | [] => set_tarWriter w tw
      | _ =>
          match Tar.Write tw (outputBuffer w) with
          | (tw', m, Some err) =>
              set_outputError
                (set_outputBuffer (set_tarWriter w tw')
                   (skipn (Z.to_nat m) (outputBuffer w)))
                (Some err)
          | (tw', _, None) => set_outputBuffer (set_tarWriter w tw') []
          end
      end
  end.

(** w.wait.Wait() *)
Definition Wait (w : Writer) : Writer :=
  if wait w then writeOutput (set_wait w false) else w.

Definition swapInOut (w : Writer) : Writer * option error :=
  let w := Wait w in
  match outputError w with
  | Some err => (w, Some err)
  | None =>
      let w := set_outputBuffer (set_inputBuffer w (outputBuffer w)) (inputBuffer w) in
      let w := set_wait w true in                    (* go w.writeOutput() *)
      let w := set_inputBuffer w [] in               (* w.inputBuffer.Reset() *)
      (w, None)
  end.

Definition Flush (w : Writer) : Writer * option error :=
  if negb (open w) then (w, Some ErrWriterNotOpen)
  else
    let '(w, err) :=
      if len (inputBuffer w) >? 0 then swapInOut w else (w, None) in
    match err with
    | Some e => (w, Some e)
    | None =>
        let w := Wait w in
        match outputError w with
        | Some e => (w, Some e)
        | None =>
            let '(tw, err) := Tar.Flush (tarWriter w) in
            (set_tarWriter w tw, err)
        end
    end.

Definition Close (w : Writer) : Writer * option error :=
  if negb (open w) then (w, Some ErrWriterNotOpen)
  else
    (* defer func() { w.open = false }() *)
    match Flush w with
    | (w, Some e) => (set_open w false, Some e)
    | (w, None) =>
        let '(tw, err) := Tar.Close (tarWriter w) in
        (set_open (set_tarWriter w tw) false, err)
    end.

Definition WriteHeader (w : Writer) (name : string) : Writer * option error :=
  match Flush w with
  | (w, Some e) => (w, Some e)
  | (w, None) => (set_name w name, None)
  end.

(** The for loop of Write, entered at its condition. *)
Fixpoint Write_loop (fuel : nat) (w : Writer) (b : list byte) (n start stop : Z)
  : go (Writer * Z * option error) :=
  match fuel with
  | O => OutOfFuel
  | S fuel' =>
      if start <? len b then
        let '(w, err) := if start >? 0 then swapInOut w else (w, None) in
        match err with
        | Some e => Returns (w, n, Some e)
        | None =>
            (piece <- slice b start stop ;;
             let w := set_inputBuffer w (inputBuffer w ++ piece) in
             Write_loop fuel' w b (len piece) stop
               (min (stop + bufferLimit) (len b)))%go
        end
      else Returns (w, n, None)
  end.

Definition Write (w : Writer) (b : list byte) : go (Writer * Z * option error) :=
  let writeSize := len b in
  ('(w, n, err) <-
     Write_loop (S (S (List.length b))) w b 0 0
       (min writeSize (bufferLimit - len (inputBuffer w))) ;;
   match err with
   | Some e => Returns (w, n, Some e)
   | None =>
       if len (inputBuffer w) >? bufferThreshold then
         match swapInOut w with
         | (w, Some e) => Returns (w, n, Some e)
         | (w, None) => Returns (w, writeSize, None)
         end
       else Returns (w, writeSize, None)
   end)%go.

(** The calls of a producer, as for the numbered Writer. *)
Definition run_op (w : Writer) (o : Client.op) : go (Writer * option error) :=
  match o with
  | Client.OpWriteHeader n => Returns (WriteHeader w n)
  | Client.OpWrite b => ('(w, _, err) <- Write w b ;; Returns (w, err))%go
  | Client.OpFlush => Returns (Flush w)
  | Client.OpClose => Returns (Close w)
  end.

Fixpoint run_ops (w : Writer) (ops : list Client.op) : go (Writer * option error) :=
  match ops with
  | [] => Returns (w, None)
  | o :: ops' =>
      ('(w, err) <- run_op w o ;;
       match err with
       | Some e => Returns (w, Some e)
       | None => run_ops w ops'
       end)%go
  end.

Definition written (ops : list Client.op) : go (list Tar.Entry * option error) :=
  ('(w, err) <- run_ops NewWriter ops ;;
   Returns (Tar.archive (tarWriter w), err))%go.

End LegacyWriter.


(* ================================================================== *)
(** * The Writer: what each operation adds to the archive *)
(* ================================================================== *)

Module WriterFacts.

Import ChunktarWriter Client.

Lemma threshold_value : bufferThreshold = 4194304 /\ bufferLimit = 8388608.
Proof. split; reflexivity. Qed.

Lemma len_app {A} (l1 l2 : list A) : len (l1 ++ l2) = len l1 + len l2.
Proof. unfold len. rewrite length_app. lia. Qed.

Lemma len_nonneg {A} (l : list A) : 0 <= len l.
Proof. unfold len. lia. Qed.

Lemma len_nil_iff {A} (l : list A) : len l = 0 <-> l = [].
Proof.
  unfold len. split; intros H.
  - destruct l; [reflexivity | simpl in H; lia].
  - subst. reflexivity.
Qed.

Lemma gtb_false a b : a <= b -> (a >? b) = false.
Proof. intros H. rewrite Z.gtb_ltb. apply Z.ltb_ge. exact H. Qed.

Lemma gtb_true a b : b < a -> (a >? b) = true.
Proof. intros H. rewrite Z.gtb_ltb. apply Z.ltb_lt. exact H. Qed.

(** The tar entry that swapInOut makes of a buffer. *)
Definition chunk (name : string) (count : Z) (data : list byte) : Tar.Entry :=
  {| Tar.hdr := {| Tar.Name := chunkName name count; Tar.Mode := 420;
                   Tar.Size := len data |};
     Tar.body := data |}.

(** The entries of consecutive swaps, the counter starting at [count]. *)
Fixpoint chunks (name : string) (count : Z) (cs : list (list byte))
  : list Tar.Entry :=
  match cs with
  | [] => []
  | c :: cs' => chunk name count c :: chunks name (uint64_wrap (count + 1)) cs'
  end.

(** The counter after [k] swaps. *)
Fixpoint advance (k : nat) (count : Z) : Z :=
  match k with
  | O => count
  | S k' => advance k' (uint64_wrap (count + 1))
  end.

Lemma chunks_app name count cs1 cs2 :
  chunks name count (cs1 ++ cs2)
  = chunks name count cs1 ++ chunks name (advance (List.length cs1) count) cs2.
Proof.
  revert count. induction cs1 as [|c cs1 IH]; intros count; simpl.
  - reflexivity.
  - rewrite IH. reflexivity.
Qed.

Lemma advance_app k1 k2 count :
  advance (k1 + k2) count = advance k2 (advance k1 count).
Proof. revert count. induction k1; intros; simpl; auto. Qed.

(** The archive once the task in flight has finished. *)
Definition emitted (w : Writer) : list Tar.Entry :=
  Tar.archive (tarWriter (Wait w)).

(** The writer is open, no background failure is latched, and the tar
    writer can take a new header. *)
Definition ready0 (w : Writer) : Prop :=
  open w = true /\ outputError w = None
  /\ Tar.tw_closed (tarWriter w) = false
  /\ Tar.missing (tarWriter w) <= 0.

(** Between two operations the input buffer is below the threshold. *)
Definition ready (w : Writer) : Prop :=
  ready0 w /\ len (inputBuffer w) <= bufferThreshold.

Lemma NewWriter_ready : ready NewWriter.
Proof. unfold ready, ready0; simpl. unfold Tar.missing; simpl. repeat split; try lia. discriminate. Qed.

Lemma Tar_Write_fits tw e b :
  Tar.tw_closed tw = false -> Tar.tw_cur tw = Some e ->
  len b <= Tar.Size (Tar.hdr e) - len (Tar.body e) ->
  Tar.Write tw b
  = ({| Tar.tw_done := Tar.tw_done tw;
        Tar.tw_cur := Some {| Tar.hdr := Tar.hdr e; Tar.body := Tar.body e ++ b |};
        Tar.tw_closed := false |}, len b, None).
Proof.
  intros Hc He Hl. unfold Tar.Write. rewrite Hc, He.
  rewrite (gtb_false _ _ Hl). reflexivity.
Qed.

Lemma Tar_WriteHeader_ok tw h :
  Tar.tw_closed tw = false -> Tar.missing tw <= 0 ->
  Tar.WriteHeader tw h
  = ({| Tar.tw_done := Tar.archive tw;
        Tar.tw_cur := Some {| Tar.hdr := h; Tar.body := [] |};
        Tar.tw_closed := false |}, None).
Proof.
  intros Hc Hm. unfold Tar.WriteHeader, Tar.Flush. rewrite Hc.
  rewrite (gtb_false _ _ Hm). reflexivity.
Qed.

Lemma writeOutput_ready0 w cn :
  ready0 w ->
  let w' := writeOutput w cn in
  ready0 w'
  /\ Tar.archive (tarWriter w')
     = Tar.archive (tarWriter w)
       ++ [{| Tar.hdr := {| Tar.Name := cn; Tar.Mode := 420;
                            Tar.Size := len (outputBuffer w) |};
              Tar.body := outputBuffer w |}]
  /\ inputBuffer w' = inputBuffer w /\ name w' = name w
  /\ chunkCount w' = chunkCount w /\ wait w' = wait w.
Proof.
  intros (Ho & He & Hc & Hm). unfold writeOutput.
  rewrite (Tar_WriteHeader_ok _ _ Hc Hm).
  destruct (outputBuffer w) as [|x ob] eqn:Hob.
  - destruct w; simpl in *. subst.
    unfold ready0, Tar.missing, Tar.archive; simpl.
    repeat split; auto. unfold len; simpl; lia.
  - erewrite Tar_Write_fits; [| reflexivity | reflexivity | simpl; unfold len; simpl; lia].
    destruct w; simpl in *. subst.
    unfold ready0, Tar.missing, Tar.archive; simpl.
    repeat split; auto. rewrite Z.pos_sub_diag. lia.
Qed.

Lemma Wait_ready0 w :
  ready0 w ->
  ready0 (Wait w) /\ wait (Wait w) = None
  /\ inputBuffer (Wait w) = inputBuffer w /\ name (Wait w) = name w
  /\ chunkCount (Wait w) = chunkCount w
  /\ Tar.archive (tarWriter (Wait w)) = emitted w.
Proof.
  intros Hr. unfold emitted, Wait. destruct (wait w) as [cn|] eqn:Hw.
  - assert (Hr' : ready0 (set_wait w None)) by (destruct w; exact Hr).
    destruct (writeOutput_ready0 _ cn Hr') as (H1 & H2 & H3 & H4 & H5 & H6).
    repeat split; auto; try apply H1.
  - repeat split; auto; apply Hr.
Qed.

Lemma swapInOut_spec w :
  ready0 w ->
  snd (swapInOut w) = None
  /\ ready0 (fst (swapInOut w))
  /\ emitted (fst (swapInOut w))
     = emitted w ++ [chunk (name w) (chunkCount w) (inputBuffer w)]
  /\ inputBuffer (fst (swapInOut w)) = []
  /\ name (fst (swapInOut w)) = name w
  /\ chunkCount (fst (swapInOut w)) = uint64_wrap (chunkCount w + 1).
Proof.
  intros Hr.
  destruct (Wait_ready0 w Hr) as (Hr1 & Hw1 & Hi1 & Hn1 & Hc1 & Ha1).
  unfold swapInOut.
  destruct Hr1 as (Ho & He & Hcl & Hm).
  rewrite He. simpl.
  split; [reflexivity|].
  split; [repeat split; assumption|].
  split.
  - unfold emitted at 1. unfold Wait at 1. simpl.
    match goal with |- Tar.archive (tarWriter (writeOutput ?x ?c)) = _ =>
      assert (Hx : ready0 x) by (repeat split; assumption);
      destruct (writeOutput_ready0 x c Hx) as (_ & H2 & _)
    end.
    rewrite H2. simpl. rewrite Ha1, Hi1, Hn1, Hc1. reflexivity.
  - rewrite Hn1, Hc1. auto.
Qed.

Lemma set_inputBuffer_ready0 w b : ready0 w -> ready0 (set_inputBuffer w b).
Proof. destruct w; exact (fun H => H). Qed.

Lemma set_inputBuffer_emitted w b : emitted (set_inputBuffer w b) = emitted w.
Proof.
  destruct w as [tw ib ob oe op wt nm cc]. unfold emitted, Wait; simpl.
  destruct wt as [cn|]; [|reflexivity].
  unfold writeOutput; simpl.
  destruct (Tar.WriteHeader tw _) as [tw' [e|]]; [reflexivity|].
  destruct ob as [|x ob]; [reflexivity|].
  destruct (Tar.Write tw' (x :: ob)) as [[tw'' m] [e|]]; reflexivity.
Qed.

(** What Flush would still emit: the input buffer, when it holds bytes. *)
Definition residue (w : Writer) : list (list byte) :=
  match inputBuffer w with
  | [] => []
  | _ => [inputBuffer w]
  end.

Lemma Flush_spec w :
  ready0 w ->
  snd (Flush w) = None
  /\ ready0 (fst (Flush w))
  /\ wait (fst (Flush w)) = None
  /\ Tar.archive (tarWriter (fst (Flush w)))
     = emitted w ++ chunks (name w) (chunkCount w) (residue w)
  /\ inputBuffer (fst (Flush w)) = []
  /\ name (fst (Flush w)) = name w
  /\ chunkCount (fst (Flush w))
     = advance (List.length (residue w)) (chunkCount w).
Proof.
  intros Hr. unfold Flush, residue.
  assert (Ho : open w = true) by apply Hr. rewrite Ho. simpl negb. cbv iota.
  destruct (inputBuffer w) as [|x ib] eqn:Hib.
  - change (len (@nil byte) >? 0) with false. cbv iota.
    destruct (Wait_ready0 w Hr) as (Hr1 & Hw1 & Hi1 & Hn1 & Hc1 & Ha1).
    assert (He : outputError (Wait w) = None) by apply Hr1. rewrite He.
    unfold Tar.Flush. rewrite gtb_false by apply Hr1.
    destruct (Wait w); simpl in *. rewrite app_nil_r.
    repeat split; try tauto; try apply Hr1; congruence.
  - rewrite gtb_true by (unfold len; simpl; lia).
    destruct (swapInOut_spec w Hr) as (Hs & Hr1 & Hem & Hi & Hn & Hc).
    destruct (swapInOut w) as [w1 e1]. simpl in *. subst e1.
    destruct (Wait_ready0 w1 Hr1) as (Hr2 & Hw2 & Hi2 & Hn2 & Hc2 & Ha2).
    assert (He : outputError (Wait w1) = None) by apply Hr2. rewrite He.
    unfold Tar.Flush. rewrite gtb_false by apply Hr2.
    rewrite Hib in Hem.
    destruct (Wait w1); simpl in *.
    repeat split; try tauto; try apply Hr2; congruence.
Qed.

Lemma MinInt_min a b : MinInt a b = Z.min a b.
Proof. unfold MinInt. rewrite Z.gtb_ltb. destruct (b <? a) eqn:E; lia. Qed.

Lemma slice_ok {A} (b : list A) lo hi :
  0 <= lo -> lo <= hi -> hi <= len b ->
  slice b lo hi = Returns (firstn (Z.to_nat (hi - lo)) (skipn (Z.to_nat lo) b)).
Proof.
  intros H1 H2 H3. unfold slice.
  apply Z.leb_le in H1, H2, H3. rewrite H1, H2, H3. reflexivity.
Qed.

Lemma len_slice {A} (b : list A) lo hi :
  0 <= lo -> lo <= hi -> hi <= len b ->
  len (firstn (Z.to_nat (hi - lo)) (skipn (Z.to_nat lo) b)) = hi - lo.
Proof.
  unfold len. intros H1 H2 H3. rewrite length_firstn, length_skipn. lia.
Qed.

Lemma skipn_slice {A} (b : list A) lo hi :
  0 <= lo -> lo <= hi -> hi <= len b ->
  skipn (Z.to_nat lo) b
  = firstn (Z.to_nat (hi - lo)) (skipn (Z.to_nat lo) b) ++ skipn (Z.to_nat hi) b.
Proof.
  intros H1 H2 H3.
  rewrite <- (firstn_skipn (Z.to_nat (hi - lo)) (skipn (Z.to_nat lo) b)) at 1.
  f_equal. rewrite skipn_skipn. f_equal. lia.
Qed.

(** The passes of the loop of Write after the first: each one starts
    with a full input buffer, swaps it out and takes the next piece. *)
Lemma Write_loop_spec fuel : forall w b n start stop,
  ready0 w ->
  0 < start -> start <= len b ->
  stop = MinInt (start + bufferLimit) (len b) ->
  0 < len (inputBuffer w) <= bufferLimit ->
  (start < len b -> len (inputBuffer w) = bufferLimit) ->
  len b - start < Z.of_nat fuel ->
  exists w' n' cs,
    Write_loop fuel w b n start stop = Returns (w', n', None)
    /\ ready0 w'
    /\ emitted w' = emitted w ++ chunks (name w) (chunkCount w) cs
    /\ Forall (fun c => len c = bufferLimit) cs
    /\ List.concat cs ++ inputBuffer w' = inputBuffer w ++ skipn (Z.to_nat start) b
    /\ 0 < len (inputBuffer w') <= bufferLimit
    /\ name w' = name w
    /\ chunkCount w' = advance (List.length cs) (chunkCount w).
Proof.
  induction fuel as [|fuel IH]; intros w b n start stop Hr Hs0 Hs1 Hstop Hlen Hfull Hfuel.
  - lia.
  - simpl. destruct (start <? len b) eqn:Hlt.
    + apply Z.ltb_lt in Hlt. rewrite gtb_true by assumption.
      destruct (swapInOut_spec w Hr) as (Hs & Hr1 & Hem & Hi & Hn & Hc).
      destruct (swapInOut w) as [w1 e1]. simpl in Hs, Hr1, Hem, Hi, Hn, Hc. subst e1.
      rewrite MinInt_min in Hstop.
      pose proof threshold_value as [HT HL].
      assert (Hb1 : start <= stop) by lia.
      assert (Hb2 : stop <= len b) by lia.
      rewrite (slice_ok b start stop) by lia. cbn [Go.bind].
      set (piece := firstn (Z.to_nat (stop - start)) (skipn (Z.to_nat start) b)).
      assert (Hpl : len piece = stop - start) by (apply len_slice; lia).
      set (w2 := set_inputBuffer w1 (inputBuffer w1 ++ piece)).
      assert (Hib2 : inputBuffer w2 = piece)
        by (unfold w2; destruct w1; simpl in *; subst; reflexivity).
      assert (Hn2 : name w2 = name w) by (unfold w2; destruct w1; simpl in *; auto).
      assert (Hc2 : chunkCount w2 = uint64_wrap (chunkCount w + 1))
        by (unfold w2; destruct w1; simpl in *; auto).
      destruct (IH w2 b (len piece) stop (MinInt (stop + bufferLimit) (len b)))
        as (w' & n' & cs & Hrun & Hr' & Hem' & Hcs & Hcat & Hlen' & Hn' & Hc').
      * apply set_inputBuffer_ready0; assumption.
      * lia.
      * lia.
      * reflexivity.
      * rewrite Hib2. lia.
      * rewrite Hib2. lia.
      * lia.
      * exists w', n', (inputBuffer w :: cs).
        split; [exact Hrun|]. split; [exact Hr'|].
        split.
        { rewrite Hem', Hn2, Hc2. unfold w2.
          rewrite set_inputBuffer_emitted, Hem.
          rewrite <- app_assoc. reflexivity. }
        split; [constructor; [apply Hfull; assumption | exact Hcs]|].
        split.
        { simpl. rewrite <- app_assoc, Hcat, Hib2. f_equal.
          symmetry. apply skipn_slice; lia. }
        split; [exact Hlen'|]. split; [congruence|].
        simpl. rewrite Hc', Hc2. reflexivity.
    + apply Z.ltb_ge in Hlt. assert (start = len b) by lia. subst start.
      exists w, n, []. simpl.
      split; [reflexivity|]. split; [exact Hr|].
      split; [rewrite app_nil_r; reflexivity|]. split; [constructor|].
      split.
      { unfold len. rewrite Nat2Z.id, skipn_all, app_nil_r. reflexivity. }
      repeat split; try tauto.
Qed.

Lemma Write_loop_S fuel w b n start stop :
  Write_loop (S fuel) w b n start stop
  = if start <? len b then
      let '(w, err) := if start >? 0 then swapInOut w else (w, None) in
      match err with
      | Some e => Returns (w, n, Some e)
      | None =>
          Go.bind (slice b start stop) (fun piece =>
            let w := set_inputBuffer w (inputBuffer w ++ piece) in
            Write_loop fuel w b (len piece) stop
              (MinInt (stop + bufferLimit) (len b)))
      end
    else Returns (w, n, None).
Proof. reflexivity. Qed.

(** The bound on the loop of Write is never reached, whatever the state
    of the writer: a pass that takes no byte is followed by passes that
    each take at least one. *)
Lemma Write_loop_fuel fuel : forall w b n start stop,
  0 <= start ->
  (if len b <=? start then 1
   else len b - start + 1 + (if stop <=? start then 1 else 0)) <= Z.of_nat fuel ->
  Write_loop fuel w b n start stop <> OutOfFuel.
Proof.
  pose proof threshold_value as [HT HL].
  induction fuel as [|fuel IH]; intros w b n start stop Hs Hfuel.
  - destruct (len b <=? start) eqn:E; [lia | apply Z.leb_gt in E].
    destruct (stop <=? start); lia.
  - rewrite Write_loop_S.
    destruct (start <? len b) eqn:Hlt; [|discriminate].
    apply Z.ltb_lt in Hlt.
    destruct (len b <=? start) eqn:Hle; [apply Z.leb_le in Hle; lia|].
    destruct (if start >? 0 then swapInOut w else (w, None)) as [w1 [e|]];
      [discriminate|].
    unfold slice.
    destruct ((0 <=? start) && (start <=? stop) && (stop <=? len b)) eqn:Hb;
      [|discriminate].
    apply andb_true_iff in Hb as [Hb Hb3]. apply andb_true_iff in Hb as [_ Hb2].
    apply Z.leb_le in Hb2, Hb3.
    cbn [Go.bind]. apply IH; [lia|].
    rewrite MinInt_min.
    assert (Hneed : len b - start + 1 <= Z.of_nat (S fuel)
                    /\ (stop = start -> len b - start + 2 <= Z.of_nat (S fuel))).
    { destruct (stop <=? start) eqn:Hss;
        [apply Z.leb_le in Hss | apply Z.leb_gt in Hss]; lia. }
    clear Hfuel.
    destruct (len b <=? stop) eqn:Hle2; [lia|]. apply Z.leb_gt in Hle2.
    destruct (Z.min (stop + bufferLimit) (len b) <=? stop) eqn:Hmin;
      [apply Z.leb_le in Hmin; lia|].
    destruct (Z.eq_dec stop start); lia.
Qed.

Lemma Write_never_out_of_fuel w b : Write w b <> OutOfFuel.
Proof.
  unfold Write. destruct (negb (open w)); [discriminate|].
  pose proof (Write_loop_fuel (S (S (List.length b))) w b 0 0
                (MinInt (len b) (bufferLimit - len (inputBuffer w)))
                (Z.le_refl 0)) as H.
  destruct (Write_loop _ w b 0 0 _) as [[[w1 n1] e1]| |].
  - cbn [Go.bind]. destruct e1; [discriminate|].
    destruct (_ >? _); [|discriminate].
    destruct (swapInOut w1) as [w2 [e|]]; discriminate.
  - discriminate.
  - exfalso. apply H; [|reflexivity].
    destruct (len b <=? 0) eqn:E; [lia | apply Z.leb_gt in E].
    destruct (_ <=? 0); unfold len in *; lia.
Qed.

Lemma set_inputBuffer_same w : set_inputBuffer w (inputBuffer w) = w.
Proof. destruct w; reflexivity. Qed.

(** A Write that fits below the limit is one append, and one swap when
    the buffer ends above the threshold. *)
Lemma Write_small w b :
  ready w -> len (inputBuffer w) + len b <= bufferLimit ->
  Write w b
  = Returns (let w1 := set_inputBuffer w (inputBuffer w ++ b) in
             if len (inputBuffer w ++ b) >? bufferThreshold
             then fst (swapInOut w1) else w1,
             len b, None).
Proof.
  intros [Hr Hib] Hfit. unfold Write.
  assert (Ho : open w = true) by apply Hr. rewrite Ho. simpl negb. cbv iota.
  pose proof threshold_value as [HT HL].
  pose proof (len_nonneg b) as Hb0. pose proof (len_nonneg (inputBuffer w)) as Hi0.
  rewrite Write_loop_S.
  destruct (0 <? len b) eqn:Hlt.
  - apply Z.ltb_lt in Hlt. change (0 >? 0) with false. cbv iota beta.
    rewrite MinInt_min. rewrite Z.min_l by lia.
    rewrite slice_ok by lia. cbn [Go.bind].
    replace (firstn (Z.to_nat (len b - 0)) (skipn (Z.to_nat 0) b)) with b.
    2:{ simpl skipn. unfold len. rewrite Z.sub_0_r, Nat2Z.id, firstn_all. reflexivity. }
    rewrite Write_loop_S. rewrite Z.ltb_irrefl. cbn [Go.bind].
    assert (Hib1 : inputBuffer (set_inputBuffer w (inputBuffer w ++ b))
                   = inputBuffer w ++ b) by (destruct w; reflexivity).
    rewrite Hib1.
    destruct (len (inputBuffer w ++ b) >? bufferThreshold) eqn:Hgt; [|reflexivity].
    assert (Hr1 : ready0 (set_inputBuffer w (inputBuffer w ++ b)))
      by (apply set_inputBuffer_ready0; exact Hr).
    destruct (swapInOut_spec _ Hr1) as (Hs & _).
    destruct (swapInOut _) as [w2 e2]. simpl in Hs. subst e2. reflexivity.
  - apply Z.ltb_ge in Hlt. assert (Hb : b = []) by (apply len_nil_iff; lia).
    subst b. cbn [Go.bind]. rewrite app_nil_r, set_inputBuffer_same.
    rewrite gtb_false by lia. reflexivity.
Qed.

(** Every Write returns, takes all the bytes, and leaves the writer
    ready; the chunks it emits are above the threshold and within the
    limit, and no byte is lost or reordered. *)
Lemma Write_spec w b :
  ready w ->
  exists w' cs,
    Write w b = Returns (w', len b, None)
    /\ ready w'
    /\ emitted w' = emitted w ++ chunks (name w) (chunkCount w) cs
    /\ Forall (fun c => bufferThreshold < len c <= bufferLimit) cs
    /\ List.concat cs ++ inputBuffer w' = inputBuffer w ++ b
    /\ name w' = name w
    /\ chunkCount w' = advance (List.length cs) (chunkCount w).
Proof.
  intros [Hr Hib].
  pose proof threshold_value as [HT HL].
  pose proof (len_nonneg b) as Hb0. pose proof (len_nonneg (inputBuffer w)) as Hi0.
  (* the loop *)
  assert (Hloop : exists w1 n1 cs1,
    Write_loop (S (S (List.length b))) w b 0 0
      (MinInt (len b) (bufferLimit - len (inputBuffer w)))
    = Returns (w1, n1, None)
    /\ ready0 w1
    /\ emitted w1 = emitted w ++ chunks (name w) (chunkCount w) cs1
    /\ Forall (fun c => len c = bufferLimit) cs1
    /\ List.concat cs1 ++ inputBuffer w1 = inputBuffer w ++ b
    /\ len (inputBuffer w1) <= bufferLimit
    /\ name w1 = name w
    /\ chunkCount w1 = advance (List.length cs1) (chunkCount w)).
  { rewrite Write_loop_S. destruct (0 <? len b) eqn:Hlt.
    - apply Z.ltb_lt in Hlt. change (0 >? 0) with false. cbv iota beta.
      rewrite MinInt_min.
      set (stop := Z.min (len b) (bufferLimit - len (inputBuffer w))).
      assert (Hstop : 0 < stop <= len b) by (unfold stop; lia).
      rewrite slice_ok by lia. cbn [Go.bind].
      set (piece := firstn (Z.to_nat (stop - 0)) (skipn (Z.to_nat 0) b)).
      assert (Hpl : len piece = stop)
        by (unfold piece; rewrite len_slice; lia).
      set (w0 := set_inputBuffer w (inputBuffer w ++ piece)).
      assert (Hib0 : inputBuffer w0 = inputBuffer w ++ piece)
        by (destruct w; reflexivity).
      assert (Hn0 : name w0 = name w) by (destruct w; reflexivity).
      assert (Hc0 : chunkCount w0 = chunkCount w) by (destruct w; reflexivity).
      destruct (Write_loop_spec (S (List.length b)) w0 b (len piece) stop
                  (MinInt (stop + bufferLimit) (len b)))
        as (w1 & n1 & cs1 & Hrun & Hr1 & Hem1 & Hcs1 & Hcat1 & Hlen1 & Hn1 & Hc1).
      + apply set_inputBuffer_ready0; exact Hr.
      + lia.
      + lia.
      + reflexivity.
      + rewrite Hib0, len_app, Hpl. unfold stop. lia.
      + rewrite Hib0, len_app, Hpl. unfold stop. lia.
      + unfold len. lia.
      + exists w1, n1, cs1. split; [exact Hrun|]. split; [exact Hr1|].
        split.
        { rewrite Hem1, Hn0, Hc0. unfold w0. rewrite set_inputBuffer_emitted.
          reflexivity. }
        split; [exact Hcs1|]. split.
        { rewrite Hcat1, Hib0, <- app_assoc. f_equal.
          unfold piece. rewrite <- (skipn_slice b 0 stop) by lia. reflexivity. }
        split; [lia|]. split; congruence.
    - apply Z.ltb_ge in Hlt. assert (Hb : b = []) by (apply len_nil_iff; lia).
      subst b. exists w, 0, []. simpl.
      repeat split; try apply Hr; auto; try lia;
        rewrite app_nil_r; reflexivity.
  }
  destruct Hloop as (w1 & n1 & cs1 & Hrun & Hr1 & Hem1 & Hcs1 & Hcat1 & Hlen1 & Hn1 & Hc1).
  unfold Write.
  assert (Ho : open w = true) by apply Hr. rewrite Ho. simpl negb. cbv iota.
  rewrite Hrun. cbn [Go.bind].
  assert (Hcs1' : Forall (fun c => bufferThreshold < len c <= bufferLimit) cs1).
  { eapply Forall_impl; [|exact Hcs1]. simpl. intros c Hc. lia. }
  destruct (len (inputBuffer w1) >? bufferThreshold) eqn:Hgt.
  - rewrite Z.gtb_ltb in Hgt. apply Z.ltb_lt in Hgt.
    destruct (swapInOut_spec w1 Hr1) as (Hs & Hr2 & Hem2 & Hi2 & Hn2 & Hc2).
    destruct (swapInOut w1) as [w2 e2]. simpl in Hs, Hr2, Hem2, Hi2, Hn2, Hc2.
    subst e2. exists w2, (cs1 ++ [inputBuffer w1]).
    split; [reflexivity|].
    split; [split; [exact Hr2 | rewrite Hi2; unfold len; simpl; lia]|].
    split.
    { rewrite Hem2, Hem1, chunks_app, <- app_assoc, Hn1, Hc1. reflexivity. }
    split; [apply Forall_app; split; [exact Hcs1' | constructor; [lia | constructor]]|].
    split.
    { rewrite Hi2, app_nil_r, concat_app. simpl. rewrite app_nil_r. exact Hcat1. }
    split; [congruence|].
    rewrite Hc2, Hc1, length_app, advance_app. reflexivity.
  - rewrite Z.gtb_ltb in Hgt. apply Z.ltb_ge in Hgt.
    exists w1, cs1. repeat split; auto; apply Hr1.
Qed.

Lemma WriteHeader_spec w n :
  ready0 w ->
  exists w',
    WriteHeader w n = (w', None)
    /\ ready w'
    /\ wait w' = None
    /\ emitted w' = emitted w ++ chunks (name w) (chunkCount w) (residue w)
    /\ inputBuffer w' = []
    /\ name w' = n
    /\ chunkCount w' = 0.
Proof.
  intros Hr. unfold WriteHeader.
  assert (Ho : open w = true) by apply Hr. rewrite Ho. simpl negb. cbv iota.
  destruct (Flush_spec w Hr) as (Hs & Hr1 & Hw1 & Ha1 & Hi1 & Hn1 & Hc1).
  destruct (Flush w) as [w1 e1]. simpl in Hs, Hr1, Hw1, Ha1, Hi1, Hn1, Hc1. subst e1.
  eexists. split; [reflexivity|].
  destruct w1; simpl in *. subst.
  unfold ready, ready0, emitted, Wait; simpl.
  repeat split; try apply Hr1; auto.
  unfold len; simpl. pose proof threshold_value; lia.
Qed.

Lemma Close_spec w :
  ready0 w ->
  exists w',
    Close w = (w', None)
    /\ open w' = false
    /\ wait w' = None
    /\ Tar.archive (tarWriter w')
       = emitted w ++ chunks (name w) (chunkCount w) (residue w).
Proof.
  intros Hr. unfold Close.
  assert (Ho : open w = true) by apply Hr. rewrite Ho. simpl negb. cbv iota.
  destruct (Flush_spec w Hr) as (Hs & Hr1 & Hw1 & Ha1 & Hi1 & Hn1 & Hc1).
  destruct (Flush w) as [w1 e1]. simpl in Hs, Hr1, Hw1, Ha1, Hi1, Hn1, Hc1. subst e1.
  destruct Hr1 as (Ho1 & He1 & Hcl1 & Hm1).
  unfold Tar.Close, Tar.Flush. rewrite Hcl1, (gtb_false _ _ Hm1).
  eexists. split; [reflexivity|].
  destruct w1 as [tw ? ? ? ? ? ? ?]; destruct tw; simpl in *.
  repeat split; auto.
Qed.

Lemma run_ops_app ops1 : forall w ops2,
  run_ops w (ops1 ++ ops2)
  = Go.bind (run_ops w ops1) (fun r =>
      match snd r with
      | Some e => Returns (fst r, Some e)
      | None => run_ops (fst r) ops2
      end).
Proof.
  induction ops1 as [|o ops1 IH]; intros w ops2; simpl.
  - reflexivity.
  - destruct (run_op w o) as [[w' [e|]]| |]; simpl; auto.
Qed.

Lemma run_writes_spec ws : forall w,
  ready w ->
  exists w' cs,
    run_ops w (map OpWrite ws) = Returns (w', None)
    /\ ready w'
    /\ emitted w' = emitted w ++ chunks (name w) (chunkCount w) cs
    /\ Forall (fun c => bufferThreshold < len c <= bufferLimit) cs
    /\ List.concat cs ++ inputBuffer w' = inputBuffer w ++ List.concat ws
    /\ name w' = name w
    /\ chunkCount w' = advance (List.length cs) (chunkCount w).
Proof.
  induction ws as [|b ws IH]; intros w Hr.
  - exists w, []. simpl. rewrite !app_nil_r. repeat split; auto; apply Hr.
  - destruct (Write_spec w b Hr)
      as (w1 & cs1 & Hrun & Hr1 & Hem1 & Hcs1 & Hcat1 & Hn1 & Hc1).
    destruct (IH w1 Hr1) as (w2 & cs2 & Hrun2 & Hr2 & Hem2 & Hcs2 & Hcat2 & Hn2 & Hc2).
    exists w2, (cs1 ++ cs2). simpl. rewrite Hrun. cbn [Go.bind].
    split; [exact Hrun2|]. split; [exact Hr2|].
    split.
    { rewrite Hem2, Hem1, chunks_app, <- app_assoc, Hn1, Hc1. reflexivity. }
    split; [apply Forall_app; split; assumption|].
    split.
    { rewrite concat_app, <- app_assoc, Hcat2, app_assoc, Hcat1, app_assoc.
      reflexivity. }
    split; [congruence|].
    rewrite Hc2, Hc1, length_app, advance_app. reflexivity.
Qed.

(** How one logical file lies in the archive: its bytes in order, cut
    into chunks that are not empty and within the limit, all but the
    last above the threshold. *)
Definition chunked_as (content : list byte) (cs : list (list byte)) : Prop :=
  List.concat cs = content
  /\ Forall (fun c => 0 < len c <= bufferLimit) cs
  /\ Forall (fun c => bufferThreshold < len c) (removelast cs).

(** The archive of logical files given by name and chunk bodies. *)
Definition archive_of (fcs : list (string * list (list byte))) : list Tar.Entry :=
  flat_map (fun fc => chunks (fst fc) 0 (snd fc)) fcs.

Lemma Forall_removelast {A} (P : A -> Prop) (l : list A) :
  Forall P l -> Forall P (removelast l).
Proof.
  induction 1 as [|x l Hx Hl IH]; simpl; [constructor|].
  destruct l; [constructor | constructor; assumption].
Qed.

Lemma residue_cases w :
  (inputBuffer w = [] /\ residue w = [])
  \/ (inputBuffer w <> [] /\ residue w = [inputBuffer w]).
Proof.
  unfold residue. destruct (inputBuffer w); [left | right]; split; auto; discriminate.
Qed.

Lemma produce_cons n ws files :
  produce ((n, ws) :: files)
  = OpWriteHeader n :: (map OpWrite ws ++ produce files).
Proof. unfold produce. simpl. rewrite <- app_assoc. reflexivity. Qed.

(** The archive of the producer [produce files], run from any ready state. *)
Lemma produce_spec files : forall w,
  ready w ->
  exists w' fcs,
    run_ops w (produce files) = Returns (w', None)
    /\ Tar.archive (tarWriter w')
       = emitted w ++ chunks (name w) (chunkCount w) (residue w) ++ archive_of fcs
    /\ Forall2 (fun f fc => fst fc = fst f
                            /\ chunked_as (List.concat (snd f)) (snd fc))
               files fcs.
Proof.
  induction files as [|[n ws] files IH]; intros w Hr.
  - destruct (Close_spec w (proj1 Hr)) as (w' & Hrun & _ & _ & Ha).
    exists w', []. unfold produce. simpl. rewrite Hrun. cbn [Go.bind].
    split; [reflexivity|]. split; [|constructor].
    rewrite Ha, app_nil_r. reflexivity.
  - rewrite produce_cons. simpl.
    destruct (WriteHeader_spec w n (proj1 Hr))
      as (w1 & Hrun1 & Hr1 & Hw1 & Hem1 & Hi1 & Hn1 & Hc1).
    rewrite Hrun1. cbn [Go.bind]. rewrite run_ops_app.
    destruct (run_writes_spec ws w1 Hr1)
      as (w2 & cs & Hrun2 & Hr2 & Hem2 & Hcs & Hcat & Hn2 & Hc2).
    rewrite Hrun2. cbn [Go.bind snd fst].
    destruct (IH w2 Hr2) as (w' & fcs & Hrun & Ha & Hall).
    exists w', ((n, cs ++ residue w2) :: fcs).
    split; [exact Hrun|]. split.
    + rewrite Ha, Hem2, Hem1. unfold archive_of. simpl.
      rewrite chunks_app, Hn2, Hc2, Hn1, Hc1.
      rewrite <- !app_assoc. reflexivity.
    + constructor; [|exact Hall]. simpl. split; [reflexivity|].
      rewrite Hi1 in Hcat. simpl in Hcat.
      pose proof threshold_value as [HT HL].
      destruct (residue_cases w2) as [[Hib Hres] | [Hib Hres]]; rewrite Hres.
      * rewrite app_nil_r. rewrite Hib, app_nil_r in Hcat.
        split; [exact Hcat|]. split.
        { eapply Forall_impl; [|exact Hcs]. simpl. intros; lia. }
        apply Forall_removelast.
        eapply Forall_impl; [|exact Hcs]. simpl. intros; lia.
      * split; [rewrite concat_app; simpl; rewrite app_nil_r; exact Hcat|].
        split.
        { apply Forall_app. split.
          - eapply Forall_impl; [|exact Hcs]. simpl. intros; lia.
          - constructor; [|constructor].
            destruct Hr2 as [_ Hle].
            assert (len (inputBuffer w2) <> 0) by (rewrite len_nil_iff; exact Hib).
            pose proof (len_nonneg (inputBuffer w2)). lia. }
        rewrite removelast_last.
        eapply Forall_impl; [|exact Hcs]. simpl. intros; lia.
Qed.

(** The archive that [produce files] leaves behind. *)
Lemma written_produce files :
  exists fcs,
    written (produce files) = Returns (archive_of fcs, None)
    /\ Forall2 (fun f fc => fst fc = fst f
                            /\ chunked_as (List.concat (snd f)) (snd fc))
               files fcs.
Proof.
  destruct (produce_spec files NewWriter NewWriter_ready) as (w' & fcs & Hrun & Ha & Hall).
  exists fcs. unfold written. rewrite Hrun. cbn [Go.bind].
  rewrite Ha. split; [reflexivity | exact Hall].
Qed.

End WriterFacts.

(* ================================================================== *)
(** * Chunk names: printing and parsing agree *)
(* ================================================================== *)

Module NameFacts.

Import Decimal ChunktarWriter ChunktarReader.

(** The value of a digit string, read from the left onto [acc]. *)
Fixpoint value_from (acc : Z) (s : list ascii) : Z :=
  match s with
  | [] => acc
  | c :: s' => value_from (acc * 10 + digit_value c) s'
  end.

Lemma digit_is_digit d : 0 <= d < 10 -> is_digit (digit d) = true.
Proof.
  intros H.
  assert (Hd : d = 0 \/ d = 1 \/ d = 2 \/ d = 3 \/ d = 4 \/ d = 5 \/ d = 6
               \/ d = 7 \/ d = 8 \/ d = 9) by lia.
  repeat (destruct Hd as [Hd | Hd]; [subst; reflexivity|]). subst; reflexivity.
Qed.

Lemma digit_value_digit d : 0 <= d < 10 -> digit_value (digit d) = d.
Proof.
  intros H.
  assert (Hd : d = 0 \/ d = 1 \/ d = 2 \/ d = 3 \/ d = 4 \/ d = 5 \/ d = 6
               \/ d = 7 \/ d = 8 \/ d = 9) by lia.
  repeat (destruct Hd as [Hd | Hd]; [subst; reflexivity|]). subst; reflexivity.
Qed.

Lemma value_from_app s1 s2 acc :
  value_from acc (s1 ++ s2) = value_from (value_from acc s1) s2.
Proof. revert acc. induction s1; intros; simpl; auto. Qed.

Lemma digits_S fuel n acc :
  digits (S fuel) n acc
  = if n / 10 =? 0 then digit (n mod 10) :: acc
    else digits fuel (n / 10) (digit (n mod 10) :: acc).
Proof. reflexivity. Qed.

(** [digits] puts the decimal digits of [n] in front of [acc]. *)
Lemma digits_spec fuel : forall n acc,
  0 <= n < 10 ^ Z.of_nat fuel -> (0 < fuel)%nat ->
  exists ds,
    digits fuel n acc = ds ++ acc
    /\ forallb is_digit ds = true
    /\ value_from 0 ds = n.
Proof.
  induction fuel as [|fuel IH]; intros n acc Hn Hf; [lia|].
  rewrite digits_S.
  assert (Hmod : 0 <= n mod 10 < 10) by (apply Z.mod_pos_bound; lia).
  destruct (n / 10 =? 0) eqn:Hq.
  - apply Z.eqb_eq in Hq. exists [digit (n mod 10)]. cbn [app forallb value_from].
    rewrite digit_is_digit, digit_value_digit by assumption.
    repeat split; auto.
    pose proof (Z.div_mod n 10). lia.
  - apply Z.eqb_neq in Hq.
    assert (Hdiv : 0 <= n / 10 < 10 ^ Z.of_nat fuel).
    { split; [apply Z.div_pos; lia|].
      apply Z.div_lt_upper_bound; [lia|].
      rewrite Nat2Z.inj_succ, Z.pow_succ_r in Hn by lia. lia. }
    assert (Hfuel : (0 < fuel)%nat).
    { destruct fuel; [|lia]. change (10 ^ Z.of_nat 0) with 1 in Hdiv. lia. }
    destruct (IH (n / 10) (digit (n mod 10) :: acc) Hdiv Hfuel) as (ds & Hds & Hall & Hval).
    exists (ds ++ [digit (n mod 10)]).
    rewrite Hds, <- app_assoc. split; [reflexivity|].
    split.
    + rewrite forallb_app, Hall. cbn [forallb andb].
      rewrite digit_is_digit by assumption. reflexivity.
    + rewrite value_from_app, Hval. cbn [value_from].
      rewrite digit_value_digit by assumption.
      pose proof (Z.div_mod n 10). lia.
Qed.

Lemma digits_length fuel : forall n acc (j : nat),
  0 <= n < 10 ^ Z.of_nat j -> (1 <= j)%nat ->
  (List.length (digits fuel n acc) <= j + List.length acc)%nat.
Proof.
  induction fuel as [|fuel IH]; intros n acc j Hn Hj; [simpl; lia|].
  rewrite digits_S.
  destruct (n / 10 =? 0) eqn:Hq; [cbn [List.length]; lia|].
  apply Z.eqb_neq in Hq.
  destruct j as [|j]; [lia|].
  assert (Hdiv : 0 <= n / 10 < 10 ^ Z.of_nat j).
  { split; [apply Z.div_pos; lia|].
    apply Z.div_lt_upper_bound; [lia|].
    rewrite Nat2Z.inj_succ, Z.pow_succ_r in Hn by lia. lia. }
  assert (Hj' : (1 <= j)%nat).
  { destruct j; [|lia]. change (10 ^ Z.of_nat 0) with 1 in Hdiv. lia. }
  specialize (IH (n / 10) (digit (n mod 10) :: acc) j Hdiv Hj').
  cbn [List.length] in IH. lia.
Qed.

Lemma value_from_zeros k acc :
  acc = 0 -> value_from acc (repeat "0"%char k) = 0.
Proof. intros ->. induction k; simpl; auto. Qed.

Lemma forallb_repeat {A} (f : A -> bool) x k :
  f x = true -> forallb f (repeat x k) = true.
Proof. intros H. induction k; simpl; [reflexivity | rewrite H; exact IHk]. Qed.

(** A string of at most 19 digits parses to its value. *)
Lemma parse_from_value s : forall acc (i : nat),
  forallb is_digit s = true ->
  0 <= acc < 10 ^ Z.of_nat i -> (i + List.length s <= 19)%nat ->
  parse_from acc s = Some (value_from acc s).
Proof.
  induction s as [|c s IH]; intros acc i Hall Hacc Hlen; simpl; [reflexivity|].
  simpl in Hall. apply andb_true_iff in Hall as [Hc Hs]. rewrite Hc.
  assert (Hv : 0 <= digit_value c < 10).
  { unfold is_digit in Hc. apply andb_true_iff in Hc as [H1 H2].
    apply Nat.leb_le in H1, H2. unfold digit_value. lia. }
  assert (Hacc' : 0 <= acc * 10 + digit_value c < 10 ^ Z.of_nat (S i)).
  { rewrite Nat2Z.inj_succ, Z.pow_succ_r by lia. lia. }
  assert (Hlt : (acc * 10 + digit_value c <? uint64_modulus) = true).
  { apply Z.ltb_lt. simpl in Hlen.
    assert (10 ^ Z.of_nat (S i) <= 10 ^ 19)
      by (apply Z.pow_le_mono_r; lia).
    unfold uint64_modulus. lia. }
  rewrite Hlt. apply (IH _ (S i)); auto. simpl in Hlen. lia.
Qed.

Lemma ParseUint_nonempty s : s <> [] -> ParseUint s = parse_from 0 s.
Proof. destruct s; [congruence | reflexivity]. Qed.

(** %012d of a counter below 10^12 is twelve digits that parse back. *)
Lemma pad12_spec k :
  0 <= k < 10 ^ 12 ->
  List.length (pad12 k) = 12%nat
  /\ forallb is_digit (pad12 k) = true
  /\ ParseUint (pad12 k) = Some k.
Proof.
  intros Hk. unfold pad12, itoa.
  assert (Hk20 : 0 <= k < 10 ^ Z.of_nat 20) by (change (10 ^ Z.of_nat 20) with (10 ^ 20); lia).
  destruct (digits_spec 20 k [] Hk20 ltac:(lia)) as (ds & Hds & Hall & Hval).
  pose proof (digits_length 20 k [] 12 ltac:(change (10 ^ Z.of_nat 12) with (10 ^ 12); lia) ltac:(lia)) as Hlen.
  rewrite Hds, app_nil_r in *. simpl in Hlen.
  set (z := repeat "0"%char (12 - List.length ds)).
  assert (Hlen12 : List.length (z ++ ds) = 12%nat).
  { unfold z. rewrite length_app, repeat_length. lia. }
  assert (Hall12 : forallb is_digit (z ++ ds) = true).
  { rewrite forallb_app, Hall. unfold z. rewrite forallb_repeat by reflexivity. reflexivity. }
  split; [exact Hlen12|]. split; [exact Hall12|].
  rewrite ParseUint_nonempty by (intros E; rewrite E in Hlen12; discriminate).
  rewrite (parse_from_value (z ++ ds) 0 0 Hall12) by (simpl; lia).
  rewrite value_from_app. unfold z. rewrite value_from_zeros by reflexivity.
  rewrite Hval. reflexivity.
Qed.

(** Names that the pattern's first group `(.+)` accepts as a whole. *)
Definition valid_name (n : string) : Prop :=
  n <> EmptyString
  /\ forallb (fun c => negb (Ascii.eqb c newline)) (list_ascii_of_string n) = true.

Lemma list_ascii_of_string_app s1 s2 :
  list_ascii_of_string (s1 ++ s2)
  = list_ascii_of_string s1 ++ list_ascii_of_string s2.
Proof. induction s1; simpl; [reflexivity | rewrite IHs1; reflexivity]. Qed.

Lemma chunkName_ascii n k :
  list_ascii_of_string (chunkName n k)
  = list_ascii_of_string n ++ "."%char :: pad12 k.
Proof.
  unfold chunkName. rewrite !list_ascii_of_string_app.
  rewrite list_ascii_of_string_of_list_ascii. reflexivity.
Qed.

(** The pattern takes a chunk name apart into the name and the counter. *)
Lemma regex_chunkName n k :
  valid_name n -> 0 <= k < 10 ^ 12 ->
  chunkFileNameRegex_FindStringSubmatch (chunkName n k) = Some (n, pad12 k).
Proof.
  intros [Hne Hnl] Hk.
  destruct (pad12_spec k Hk) as (Hlen & Hall & _).
  unfold chunkFileNameRegex_FindStringSubmatch.
  rewrite chunkName_ascii.
  set (l := list_ascii_of_string n) in *.
  assert (Hl : (1 <= List.length l)%nat).
  { unfold l. destruct n; [congruence | simpl; lia]. }
  rewrite length_app. simpl List.length. rewrite Hlen.
  destruct (List.length l + 13 <? 14)%nat eqn:Hlt; [apply Nat.ltb_lt in Hlt; lia|].
  replace (List.length l + 13 - 13)%nat with (List.length l + 0)%nat by lia.
  rewrite firstn_app_2, skipn_app, Nat.add_0_r, skipn_all, Nat.sub_diag.
  cbn [firstn skipn app]. rewrite app_nil_r. rewrite Hall, Hnl. simpl.
  unfold l. rewrite string_of_list_ascii_of_string. reflexivity.
Qed.

End NameFacts.

(* ================================================================== *)
(** * The Reader on an archive of chunked logical files *)
(* ================================================================== *)

Module ReaderFacts.

Import Decimal ChunktarReader Client WriterFacts NameFacts.

(** The Reader while it reads the logical file [n]: [k] is the index of
    the current chunk and [unread] what is left of its body. *)
Definition inside (eager : bool) (n : string) (k : Z) (unread : list byte)
           (items : list Tar.Item) : Reader :=
  {| tarReader := {| Tar.tr_items := items; Tar.tr_curr := Some unread;
                     Tar.tr_err := None; Tar.tr_eager := eager |};
     name := n; number := k; nextName := EmptyString |}.

(** The Reader after nextChunk met the first chunk of the file [n2]. *)
Definition lookahead (eager : bool) (k : Z) (n2 : string) (c2 : list byte)
           (items : list Tar.Item) : Reader :=
  {| tarReader := {| Tar.tr_items := items; Tar.tr_curr := Some c2;
                     Tar.tr_err := None; Tar.tr_eager := eager |};
     name := EmptyString; number := k; nextName := n2 |}.

(** The Reader after nextChunk met the end of the archive. *)
Definition at_end (eager : bool) (n : string) (k : Z) : Reader :=
  {| tarReader := {| Tar.tr_items := []; Tar.tr_curr := None;
                     Tar.tr_err := Some io_EOF; Tar.tr_eager := eager |};
     name := n; number := k; nextName := EmptyString |}.

Lemma uint64_wrap_small z : 0 <= z <= 10 ^ 12 -> uint64_wrap z = z.
Proof.
  intros H. unfold uint64_wrap, uint64_modulus. apply Z.mod_small.
  assert (10 ^ 12 < 2 ^ 64) by reflexivity. lia.
Qed.

Lemma valid_name_nonempty n : valid_name n -> String.eqb n EmptyString = false.
Proof. intros [H _]. apply String.eqb_neq. exact H. Qed.

Lemma nextChunk_continue eager n k unread c rest :
  valid_name n -> 0 <= k -> k + 1 < 10 ^ 12 ->
  nextChunk (inside eager n k unread (Tar.File (chunk n (k + 1) c) :: rest))
  = (inside eager n (k + 1) c rest, None).
Proof.
  intros Hn Hk0 Hk1. unfold nextChunk, inside. cbn [Tar.Next tarReader Tar.tr_err Tar.tr_items].
  cbn [set_tarReader chunk Tar.hdr Tar.Name Tar.body name number nextName].
  rewrite regex_chunkName by (auto; lia).
  destruct (pad12_spec (k + 1) ltac:(lia)) as (_ & _ & Hp). rewrite Hp.
  rewrite String.eqb_refl. rewrite uint64_wrap_small by lia.
  rewrite Z.eqb_refl. reflexivity.
Qed.

Lemma nextChunk_new eager n k unread n2 c2 rest :
  valid_name n2 -> n2 <> n ->
  nextChunk (inside eager n k unread (Tar.File (chunk n2 0 c2) :: rest))
  = (lookahead eager k n2 c2 rest, None).
Proof.
  intros Hn Hne. unfold nextChunk, inside. cbn [Tar.Next tarReader Tar.tr_err Tar.tr_items].
  cbn [set_tarReader chunk Tar.hdr Tar.Name Tar.body name number nextName].
  rewrite regex_chunkName by (auto; lia).
  destruct (pad12_spec 0 ltac:(lia)) as (_ & _ & Hp). rewrite Hp.
  apply String.eqb_neq in Hne. rewrite Hne. reflexivity.
Qed.

Lemma nextChunk_end eager n k unread :
  nextChunk (inside eager n k unread []) = (at_end eager n k, Some io_EOF).
Proof. reflexivity. Qed.

(** ** Read, case by case *)

Section Read.

Variable bufsz : Z.
Hypothesis bufsz_pos : 0 < bufsz.

Lemma bufsz_eqb : (bufsz =? 0) = false.
Proof. apply Z.eqb_neq. lia. Qed.

Lemma firstn_short {A} (l : list A) : len l <= bufsz -> firstn (Z.to_nat bufsz) l = l.
Proof. intros H. apply firstn_all2. unfold len in H. lia. Qed.

Lemma skipn_short {A} (l : list A) : len l <= bufsz -> skipn (Z.to_nat bufsz) l = [].
Proof. intros H. apply skipn_all2. unfold len in H. lia. Qed.

Lemma skipn_long {A} (l : list A) : bufsz < len l -> skipn (Z.to_nat bufsz) l <> [].
Proof.
  intros H E. apply (f_equal (@List.length A)) in E.
  rewrite length_skipn in E. unfold len in H. simpl in E. lia.
Qed.

(** Read inside a logical file goes to the tar reader. *)
Lemma Read_inside eager n k unread items :
  valid_name n ->
  Read (inside eager n k unread items) bufsz
  = let '(tr, data, err) :=
      Tar.Read (tarReader (inside eager n k unread items)) bufsz in
    let r := set_tarReader (inside eager n k unread items) tr in
    match err with
    | Some io_EOF =>
        match nextChunk r with
        | (r, Some err) => (r, data, Some err)
        | (r, None) =>
            if (len data =? 0) && String.eqb (nextName r) EmptyString then
              let '(tr, data, err) := Tar.Read (tarReader r) bufsz in
              (set_tarReader r tr, data, err)
            else (r, data, None)
        end
    | _ => (r, data, err)
    end.
Proof.
  intros Hn. unfold Read.
  change (nextName (inside eager n k unread items)) with EmptyString.
  change (name (inside eager n k unread items)) with n.
  rewrite (valid_name_nonempty n Hn). cbn [String.eqb negb orb].
  rewrite bufsz_eqb. reflexivity.
Qed.

(** The current chunk holds more than the buffer takes. *)
Lemma Read_more eager n k unread items :
  valid_name n -> bufsz < len unread ->
  Read (inside eager n k unread items) bufsz
  = (inside eager n k (skipn (Z.to_nat bufsz) unread) items,
     firstn (Z.to_nat bufsz) unread, None).
Proof.
  intros Hn Hlen. rewrite Read_inside by assumption.
  unfold Tar.Read. cbn [inside tarReader Tar.tr_err Tar.tr_curr].
  pose proof (skipn_long unread Hlen) as Hne.
  destruct unread as [|x u]; [unfold len in Hlen; simpl in Hlen; lia|].
  destruct (skipn (Z.to_nat bufsz) (x :: u)) eqn:E; [congruence|].
  reflexivity.
Qed.

(** The buffer takes the rest of the chunk: what the tar reader says. *)
Lemma Tar_Read_rest eager unread items :
  unread <> [] -> len unread <= bufsz ->
  Tar.Read {| Tar.tr_items := items; Tar.tr_curr := Some unread;
              Tar.tr_err := None; Tar.tr_eager := eager |} bufsz
  = ({| Tar.tr_items := items; Tar.tr_curr := Some [];
        Tar.tr_err := None; Tar.tr_eager := eager |},
     unread, if eager then Some io_EOF else None).
Proof.
  intros Hne Hlen. unfold Tar.Read. cbn [Tar.tr_err Tar.tr_curr Tar.tr_items Tar.tr_eager].
  rewrite firstn_short, skipn_short by assumption.
  destruct unread; [congruence | reflexivity].
Qed.

Lemma Tar_Read_empty eager items :
  Tar.Read {| Tar.tr_items := items; Tar.tr_curr := Some [];
              Tar.tr_err := None; Tar.tr_eager := eager |} bufsz
  = ({| Tar.tr_items := items; Tar.tr_curr := Some [];
        Tar.tr_err := None; Tar.tr_eager := eager |}, [], Some io_EOF).
Proof. reflexivity. Qed.

Lemma Read_lookahead eager k n2 c2 items :
  valid_name n2 ->
  Read (lookahead eager k n2 c2 items) bufsz
  = (lookahead eager k n2 c2 items, [], Some io_EOF).
Proof.
  intros Hn. unfold Read.
  change (nextName (lookahead eager k n2 c2 items)) with n2.
  rewrite (valid_name_nonempty n2 Hn). reflexivity.
Qed.

Lemma set_tarReader_inside eager n k unread items unread' items' :
  set_tarReader (inside eager n k unread items)
    {| Tar.tr_items := items'; Tar.tr_curr := Some unread';
       Tar.tr_err := None; Tar.tr_eager := eager |}
  = inside eager n k unread' items'.
Proof. reflexivity. Qed.

Lemma len_pos_of_nonempty {A} (l : list A) : l <> [] -> (len l =? 0) = false.
Proof.
  intros H. apply Z.eqb_neq. intros E. apply len_nil_iff in E. congruence.
Qed.

(** The buffer takes the rest of the chunk and the tar reader keeps
    io.EOF for the next call. *)
Lemma Read_rest_lazy n k unread items :
  valid_name n -> unread <> [] -> len unread <= bufsz ->
  Read (inside false n k unread items) bufsz
  = (inside false n k [] items, unread, None).
Proof.
  intros Hn Hne Hlen. rewrite Read_inside by assumption.
  cbn [inside tarReader]. rewrite Tar_Read_rest by assumption. reflexivity.
Qed.

(** The buffer takes the rest of the chunk, the tar reader says io.EOF
    at once, and the next entry continues the logical file. *)
Lemma Read_rest_eager_continue n k unread c rest :
  valid_name n -> 0 <= k -> k + 1 < 10 ^ 12 ->
  unread <> [] -> len unread <= bufsz ->
  Read (inside true n k unread (Tar.File (chunk n (k + 1) c) :: rest)) bufsz
  = (inside true n (k + 1) c rest, unread, None).
Proof.
  intros Hn Hk0 Hk1 Hne Hlen. rewrite Read_inside by assumption.
  cbn [inside tarReader]. rewrite Tar_Read_rest by assumption.
  cbv iota beta.
  rewrite set_tarReader_inside.
  rewrite nextChunk_continue by assumption.
  rewrite len_pos_of_nonempty by assumption. reflexivity.
Qed.

Lemma Read_rest_eager_new n k unread n2 c2 rest :
  valid_name n -> valid_name n2 -> n2 <> n ->
  unread <> [] -> len unread <= bufsz ->
  Read (inside true n k unread (Tar.File (chunk n2 0 c2) :: rest)) bufsz
  = (lookahead true k n2 c2 rest, unread, None).
Proof.
  intros Hn Hn2 Hd Hne Hlen. rewrite Read_inside by assumption.
  cbn [inside tarReader]. rewrite Tar_Read_rest by assumption.
  cbv iota beta.
  rewrite set_tarReader_inside.
  rewrite nextChunk_new by assumption.
  rewrite len_pos_of_nonempty by assumption. reflexivity.
Qed.

Lemma Read_rest_eager_end n k unread :
  valid_name n -> unread <> [] -> len unread <= bufsz ->
  Read (inside true n k unread []) bufsz = (at_end true n k, unread, Some io_EOF).
Proof.
  intros Hn Hne Hlen. rewrite Read_inside by assumption.
  cbn [inside tarReader]. rewrite Tar_Read_rest by assumption.
  reflexivity.
Qed.

(** Nothing is left of the chunk and the next entry continues the
    logical file: Read reads from that entry. *)
Lemma Read_empty_continue n k c rest :
  valid_name n -> 0 <= k -> k + 1 < 10 ^ 12 -> c <> [] ->
  Read (inside false n k [] (Tar.File (chunk n (k + 1) c) :: rest)) bufsz
  = (inside false n (k + 1) (skipn (Z.to_nat bufsz) c) rest,
     firstn (Z.to_nat bufsz) c, None).
Proof.
  intros Hn Hk0 Hk1 Hc. rewrite Read_inside by assumption.
  cbn [inside tarReader]. rewrite Tar_Read_empty.
  cbv iota beta.
  rewrite set_tarReader_inside.
  rewrite nextChunk_continue by assumption.
  change (len (@nil byte) =? 0) with true.
  change (nextName (inside false n (k + 1) c rest)) with EmptyString.
  cbn [String.eqb andb].
  destruct (Z_le_gt_dec (len c) bufsz) as [Hle | Hgt].
  - cbn [inside tarReader]. rewrite Tar_Read_rest by assumption.
    rewrite firstn_short, skipn_short by assumption. reflexivity.
  - unfold Tar.Read. cbn [inside tarReader Tar.tr_err Tar.tr_curr].
    pose proof (skipn_long c ltac:(lia)) as Hs.
    destruct c as [|x c]; [congruence|].
    destruct (skipn (Z.to_nat bufsz) (x :: c)) eqn:E; [congruence|].
    reflexivity.
Qed.

Lemma Read_empty_new eager n k n2 c2 rest :
  valid_name n -> valid_name n2 -> n2 <> n ->
  Read (inside eager n k [] (Tar.File (chunk n2 0 c2) :: rest)) bufsz
  = (lookahead eager k n2 c2 rest, [], None).
Proof.
  intros Hn Hn2 Hd. rewrite Read_inside by assumption.
  cbn [inside tarReader]. rewrite Tar_Read_empty.
  cbv iota beta.
  rewrite set_tarReader_inside.
  rewrite nextChunk_new by assumption.
  change (nextName (lookahead eager k n2 c2 rest)) with n2.
  rewrite (valid_name_nonempty n2 Hn2), andb_false_r. reflexivity.
Qed.

Lemma Read_empty_end eager n k :
  valid_name n ->
  Read (inside eager n k [] []) bufsz = (at_end eager n k, [], Some io_EOF).
Proof.
  intros Hn. rewrite Read_inside by assumption. reflexivity.
Qed.

(** ** Reading one logical file to its end *)

(** A logical file as the Reader needs it: a name the pattern gives
    back, at least one chunk, no empty chunk, and chunk indices that
    fit twelve digits. *)
Definition wf_file (fc : string * list (list byte)) : Prop :=
  valid_name (fst fc)
  /\ snd fc <> []
  /\ Forall (fun c => c <> []) (snd fc)
  /\ Z.of_nat (List.length (snd fc)) <= 10 ^ 12.

(** Well-formed files, none with the name of the one before it. *)
Fixpoint wf_files (prev : string) (fcs : list (string * list (list byte)))
  : Prop :=
  match fcs with
  | [] => True
  | fc :: rest => fst fc <> prev /\ wf_file fc /\ wf_files (fst fc) rest
  end.

(** The Reader once the file [n] is read to its end, [later] being the
    files behind it in the archive. *)
Definition boundary (eager : bool) (n : string) (k : Z)
           (later : list (string * list (list byte))) : Reader :=
  match later with
  | (n2, c2 :: cs2) :: later' =>
      lookahead eager k n2 c2
        (map Tar.File (chunks n2 1 cs2 ++ archive_of later'))
  | _ => at_end eager n k
  end.

Fixpoint weight (cs : list (list byte)) : nat :=
  match cs with
  | [] => O
  | c :: cs' => S (List.length c) + weight cs'
  end.

Lemma ReadAll_S fuel r :
  ReadAll (S fuel) r bufsz
  = match Read r bufsz with
    | (r, data, Some err) => Returns (r, data, err)
    | (r, data, None) =>
        Go.bind (ReadAll fuel r bufsz) (fun x =>
          let '(r, more, err) := x in Returns (r, data ++ more, err))
    end.
Proof. reflexivity. Qed.

Lemma archive_of_cons n2 c2 cs2 later :
  archive_of ((n2, c2 :: cs2) :: later)
  = chunk n2 0 c2 :: chunks n2 1 cs2 ++ archive_of later.
Proof. reflexivity. Qed.

Lemma wf_files_cases prev later :
  wf_files prev later ->
  later = []
  \/ exists n2 c2 cs2 later',
       later = (n2, c2 :: cs2) :: later' /\ valid_name n2 /\ n2 <> prev.
Proof.
  destruct later as [|[n2 cs] later']; [left; reflexivity|].
  intros (Hd & (Hv & Hne & _) & _). simpl in *.
  destruct cs as [|c2 cs2]; [congruence|].
  right. exists n2, c2, cs2, later'. auto.
Qed.

(** The last Read of a logical file and the one after it. *)
Lemma ReadAll_last eager n k later r data :
  wf_files n later ->
  (match later with
   | (n2, c2 :: cs2) :: later' =>
       Read r bufsz = (boundary eager n k later, data, None)
   | _ => Read r bufsz = (boundary eager n k later, data, Some io_EOF)
   end) ->
  forall fuel, (2 <= fuel)%nat ->
    ReadAll fuel r bufsz = Returns (boundary eager n k later, data, io_EOF).
Proof.
  intros Hwf Hread fuel Hfuel.
  destruct fuel as [|[|fuel]]; [lia | lia |].
  rewrite ReadAll_S.
  destruct later as [|[n2 [|c2 cs2]] later']; try (rewrite Hread; reflexivity).
  rewrite Hread. rewrite ReadAll_S. cbn [boundary].
  destruct Hwf as (_ & (Hv & _) & _). simpl in Hv.
  rewrite Read_lookahead by assumption. cbn [Go.bind].
  rewrite app_nil_r. reflexivity.
Qed.

Lemma ReadAll_file eager n later :
  valid_name n -> wf_files n later ->
  forall (N : nat) unread cs k,
    (List.length unread + weight cs < N)%nat ->
    eager = false \/ unread <> [] ->
    Forall (fun c => c <> []) cs ->
    0 <= k -> k + Z.of_nat (List.length cs) < 10 ^ 12 ->
    exists fuel0, forall fuel, (fuel0 <= fuel)%nat ->
      ReadAll fuel
        (inside eager n k unread
           (map Tar.File (chunks n (k + 1) cs ++ archive_of later))) bufsz
      = Returns (boundary eager n (k + Z.of_nat (List.length cs)) later,
                 unread ++ List.concat cs, io_EOF).
Proof.
  intros Hn Hwf. induction N as [|N IH]; intros unread cs k HN Hmode Hcs Hk0 Hk1;
    [lia|].
  (* what lies behind the current chunk *)
  assert (Htail : cs = [] ->
    forall data r, 
      (match later with
       | (n2, c2 :: cs2) :: later' =>
           Read r bufsz = (boundary eager n k later, data, None)
       | _ => Read r bufsz = (boundary eager n k later, data, Some io_EOF)
       end) ->
      exists fuel0, forall fuel, (fuel0 <= fuel)%nat ->
        ReadAll fuel r bufsz
        = Returns (boundary eager n (k + Z.of_nat (List.length cs)) later,
                   data ++ List.concat cs, io_EOF)).
  { intros -> data r Hread. exists 2%nat. intros fuel Hfuel.
    simpl List.length. simpl List.concat. rewrite Z.add_0_r, app_nil_r.
    eapply ReadAll_last; eassumption. }
  destruct (Z_le_gt_dec (len unread) bufsz) as [Hle | Hgt].
  2:{ (* the chunk holds more than the buffer *)
    destruct (IH (skipn (Z.to_nat bufsz) unread) cs k) as (fuel0 & Hrun); auto.
    - rewrite length_skipn. unfold len in Hgt. lia.
    - right. apply skipn_long. lia.
    - exists (S fuel0). intros fuel Hfuel. destruct fuel as [|fuel]; [lia|].
      rewrite ReadAll_S, Read_more by (auto; lia).
      rewrite Hrun by lia. cbn [Go.bind].
      rewrite app_assoc, firstn_skipn. reflexivity. }
  destruct unread as [|x u].
  - (* nothing is left of the chunk *)
    destruct Hmode as [-> | Hne]; [|congruence].
    destruct cs as [|c cs].
    + apply Htail; [reflexivity|].
      destruct (wf_files_cases _ _ Hwf)
        as [-> | (n2 & c2 & cs2 & later' & -> & Hv & Hd)].
      * apply Read_empty_end; assumption.
      * cbn [chunks app]. rewrite archive_of_cons. cbn [map].
        rewrite Read_empty_new by assumption. reflexivity.
    + inversion Hcs as [|? ? Hc Hcs']; subst.
      simpl List.length in Hk1. 
      destruct (IH (skipn (Z.to_nat bufsz) c) cs (k + 1)) as (fuel0 & Hrun); auto.
      * rewrite length_skipn. simpl in HN. lia.
      * lia.
      * lia.
      * exists (S fuel0). intros fuel Hfuel. destruct fuel as [|fuel]; [lia|].
        rewrite ReadAll_S. cbn [chunks app map].
        rewrite uint64_wrap_small by lia.
        rewrite Read_empty_continue by (auto; lia).
        rewrite Hrun by lia. cbn [Go.bind].
        simpl List.length. simpl List.concat.
        rewrite app_assoc, firstn_skipn.
        replace (k + 1 + Z.of_nat (List.length cs))
          with (k + Z.of_nat (S (List.length cs))) by lia.
        reflexivity.
  - (* the buffer takes the rest of the chunk *)
    assert (Hne : x :: u <> []) by discriminate.
    destruct eager.
    + destruct cs as [|c cs].
      * apply Htail; [reflexivity|].
        destruct (wf_files_cases _ _ Hwf)
          as [-> | (n2 & c2 & cs2 & later' & -> & Hv & Hd)].
        -- apply Read_rest_eager_end; assumption.
        -- cbn [chunks app]. rewrite archive_of_cons. cbn [map].
           rewrite Read_rest_eager_new by assumption. reflexivity.
      * inversion Hcs as [|? ? Hc Hcs']; subst.
        simpl List.length in Hk1.
        destruct (IH c cs (k + 1)) as (fuel0 & Hrun); auto.
        -- simpl in HN |- *. lia.
        -- lia.
        -- lia.
        -- exists (S fuel0). intros fuel Hfuel. destruct fuel as [|fuel]; [lia|].
           rewrite ReadAll_S. cbn [chunks app map].
           rewrite uint64_wrap_small by lia.
           rewrite Read_rest_eager_continue by (auto; lia).
           rewrite Hrun by lia. cbn [Go.bind].
           simpl List.length. simpl List.concat.
           replace (k + 1 + Z.of_nat (List.length cs))
             with (k + Z.of_nat (S (List.length cs))) by lia.
           reflexivity.
    + destruct (IH [] cs k) as (fuel0 & Hrun); auto.
      * simpl in HN |- *. lia.
      * exists (S fuel0). intros fuel Hfuel. destruct fuel as [|fuel]; [lia|].
        rewrite ReadAll_S. rewrite Read_rest_lazy by assumption.
        rewrite Hrun by lia. cbn [Go.bind]. reflexivity.
Qed.

(** ** Next, and the whole archive *)

Lemma Next_at_end eager n k :
  Next (at_end eager n k) = Returns (at_end eager n k, EmptyString, Some io_EOF).
Proof. reflexivity. Qed.

Lemma Next_lookahead eager k n2 c2 items :
  valid_name n2 ->
  Next (lookahead eager k n2 c2 items)
  = Returns (inside eager n2 0 c2 items, n2, None).
Proof.
  intros Hv. unfold Next. cbn [plus Next_loop].
  change (nextName (lookahead eager k n2 c2 items)) with n2.
  rewrite (valid_name_nonempty n2 Hv). reflexivity.
Qed.

Lemma nextChunk_first eager n2 c2 rest :
  valid_name n2 ->
  nextChunk (NewReader (Tar.NewReader eager (Tar.File (chunk n2 0 c2) :: rest)))
  = (lookahead eager 0 n2 c2 rest, None).
Proof.
  intros Hn. unfold nextChunk, NewReader, Tar.NewReader.
  cbn [Tar.Next tarReader Tar.tr_err Tar.tr_items].
  cbn [set_tarReader chunk Tar.hdr Tar.Name Tar.body name number nextName].
  rewrite regex_chunkName by (auto; lia).
  destruct (pad12_spec 0 ltac:(lia)) as (_ & _ & Hp). rewrite Hp.
  rewrite (valid_name_nonempty n2 Hn). reflexivity.
Qed.

Lemma Next_first eager n2 c2 rest :
  valid_name n2 ->
  Next (NewReader (Tar.NewReader eager (Tar.File (chunk n2 0 c2) :: rest)))
  = Returns (inside eager n2 0 c2 rest, n2, None).
Proof.
  intros Hv. unfold Next. cbn [plus Next_loop].
  change (nextName (NewReader _)) with EmptyString. cbn [String.eqb].
  rewrite nextChunk_first by assumption.
  change (nextName (lookahead eager 0 n2 c2 rest)) with n2.
  rewrite (valid_name_nonempty n2 Hv). reflexivity.
Qed.

Lemma ReadFiles_S fuel r :
  ReadFiles (S fuel) r bufsz
  = Go.bind (Next r) (fun x =>
      let '(r, fileName, err) := x in
      match err with
      | Some io_EOF => Returns ([], None)
      | Some e => Returns ([], Some e)
      | None =>
          Go.bind (ReadAll fuel r bufsz) (fun y =>
            let '(r, data, err) := y in
            match err with
            | io_EOF =>
                Go.bind (ReadFiles fuel r bufsz) (fun z =>
                  let '(files, err) := z in
                  Returns ((fileName, data) :: files, err))
            | e => Returns ([(fileName, data)], Some e)
            end)
      end).
Proof. reflexivity. Qed.

(** What a consumer gets from logical files given by their chunks. *)
Definition contents (fcs : list (string * list (list byte)))
  : list (string * list byte) :=
  map (fun fc => (fst fc, List.concat (snd fc))) fcs.

(** From a Next that enters the file [n] to the end of the archive. *)
Lemma ReadFiles_from eager r n c cs later :
  valid_name n -> wf_files n later ->
  c <> [] -> Forall (fun c => c <> []) cs ->
  Z.of_nat (List.length (c :: cs)) <= 10 ^ 12 ->
  Next r = Returns (inside eager n 0 c
                      (map Tar.File (chunks n 1 cs ++ archive_of later)),
                    n, None) ->
  (exists fuel0, forall fuel, (fuel0 <= fuel)%nat ->
     ReadFiles fuel (boundary eager n (0 + Z.of_nat (List.length cs)) later) bufsz
     = Returns (contents later, None)) ->
  exists fuel0, forall fuel, (fuel0 <= fuel)%nat ->
    ReadFiles fuel r bufsz = Returns (contents ((n, c :: cs) :: later), None).
Proof.
  intros Hn Hwf Hc Hcs Hlen HNext (fuelB & HB).
  destruct (ReadAll_file eager n later Hn Hwf
              (S (List.length c + weight cs)) c cs 0) as (fuelA & HA); auto; try lia.
  { simpl List.length in Hlen. lia. }
  exists (S (Nat.max fuelA fuelB)). intros fuel Hfuel.
  destruct fuel as [|fuel]; [lia|].
  rewrite ReadFiles_S, HNext. cbn [Go.bind].
  change (0 + 1) with 1 in HA.
  rewrite HA by lia. cbn [Go.bind].
  rewrite HB by lia. cbn [Go.bind]. reflexivity.
Qed.

Lemma ReadFiles_boundary eager : forall later n k,
  wf_files n later ->
  exists fuel0, forall fuel, (fuel0 <= fuel)%nat ->
    ReadFiles fuel (boundary eager n k later) bufsz
    = Returns (contents later, None).
Proof.
  induction later as [|[n2 cs] later IH]; intros n k Hwf.
  - exists 1%nat. intros fuel Hfuel. destruct fuel as [|fuel]; [lia|].
    rewrite ReadFiles_S. cbn [boundary]. rewrite Next_at_end. reflexivity.
  - destruct Hwf as (Hd & (Hv & Hne & Hall & Hlen) & Hwf).
    simpl in Hd, Hv, Hne, Hall, Hlen, Hwf.
    destruct cs as [|c2 cs2]; [congruence|].
    inversion Hall as [|? ? Hc2 Hcs2]; subst.
    eapply ReadFiles_from; eauto.
    cbn [boundary]. apply Next_lookahead. assumption.
Qed.

(** Reading back an archive of well-formed logical files gives their
    names in order, each with the bytes of its chunks. *)
Lemma read_back_archive eager fcs :
  wf_files EmptyString fcs ->
  exists fuel0, forall fuel, (fuel0 <= fuel)%nat ->
    read_back fuel eager (archive_of fcs) bufsz = Returns (contents fcs, None).
Proof.
  intros Hwf. unfold read_back.
  destruct fcs as [|[n cs] later].
  - exists 1%nat. intros fuel Hfuel. destruct fuel as [|fuel]; [lia|]. reflexivity.
  - destruct Hwf as (Hd & (Hv & Hne & Hall & Hlen) & Hwf).
    simpl in Hd, Hv, Hne, Hall, Hlen, Hwf.
    destruct cs as [|c cs]; [congruence|].
    inversion Hall as [|? ? Hc Hcs]; subst.
    eapply ReadFiles_from; eauto.
    + rewrite archive_of_cons. cbn [map]. apply Next_first. assumption.
    + apply ReadFiles_boundary. assumption.
Qed.

End Read.

End ReaderFacts.

(* ================================================================== *)
(** * package mongorestore: the tar restore driver *)
(* ================================================================== *)

Module Mongorestore.

Local Open Scope string_scope.

Inductive FileType : Type :=
| UnknownFileType
| BSONFileType
| MetadataFileType.

Definition FileType_eqb (a b : FileType) : bool :=
  match a, b with
  | UnknownFileType, UnknownFileType => true
  | BSONFileType, BSONFileType => true
  | MetadataFileType, MetadataFileType => true
  | _, _ => false
  end.

(** intents.Intent, with the fields that mongodump's
    CreateIntentForCollection fills in; its Reader is the one chunk
    reader of the run. *)
Record Intent : Type := mkIntent {
  DB : string;
  C : string;
  BSONPath : string;
  MetadataPath : string;
  Size : Z
}.

(** An index specification, by the name of its index. *)
Inductive IndexDocument : Type := Index (name : string).

(** map[string][]IndexDocument: the keys present and their slices. *)
Definition IndexMap : Type := list (string * list IndexDocument).

Fixpoint lookup (m : IndexMap) (key : string) : option (list IndexDocument) :=
  match m with
  | [] => None
  | (k, v) :: m' => if String.eqb k key then Some v else lookup m' key
  end.

(** The calls that reach the restore collaborator, in order. *)
Inductive Call : Type :=
| CallRestoreBeginCollection (intent : Intent)
| CallRestoreCollectionMetadata (intent : Intent) (collectionExists : bool)
| CallRestoreCollectionBSON (intent : Intent)
| CallIndexesFromBSONReader (collection : string)
| CallRestoreCollectionIndexes (intent : option Intent) (indexes : list IndexDocument).

(** The receiver *MongoRestore: the options that RestoreTarDump reads,
    and the methods and utilities it calls that lie outside the files at
    hand.  The callbacks that read the current logical file through the
    chunk reader are given its bytes. *)
Record MongoRestore : Type := mkMongoRestore {
  ToolOptions_DB : string;
  ToolOptions_Collection : string;
  OutputOptions_NoIndexRestore : bool;
  ValidateDBName : string -> option error;
  ValidateCollectionGrammar : string -> option error;
  (* the intent, and the value left in *usesMetadataFiles *)
  CreateIntentForFile : string -> string -> FileType -> bool -> option Intent * bool;
  RestoreBeginCollection : Intent -> bool * option error;
  RestoreCollectionMetadata :
    Intent -> list byte -> bool -> list IndexDocument * option error;
  RestoreCollectionBSON : Intent -> list byte -> option error;
  IndexesFromBSONReader : string -> list byte -> option IndexMap * option error;
  (* the *Intent it is handed can be nil *)
  RestoreCollectionIndexes : option Intent -> list IndexDocument -> option error
}.

Definition HasSuffix (s suffix : string) : bool :=
  let n := String.length s in
  let m := String.length suffix in
  (m <=? n)%nat && String.eqb (substring (n - m) m s) suffix.

Definition TrimSuffix (s suffix : string) : string :=
  substring 0 (String.length s - String.length suffix) s.

(** Modelled from the spec: GetInfoFromTarHeaderName is not among the
    sources.  The specification gives it as a pure, total function:
    `<db>/<col>.bson` is (db, col, bson), `<db>/<col>.metadata.json` is
    (db, col, metadata), anything else is ("", "", unknown); a logical
    name holds exactly one `/`. *)
Definition GetInfoFromTarHeaderName (fileName : string)
  : string * string * FileType :=
  match index 0 "/" fileName with
  | None => ("", "", UnknownFileType)
  | Some i =>
      let db := substring 0 i fileName in
      let rest := substring (S i) (String.length fileName - S i) fileName in
      match index 0 "/" rest with
      | Some _ => ("", "", UnknownFileType)
      | None =>
          if HasSuffix rest ".metadata.json"
          then (db, TrimSuffix rest ".metadata.json", MetadataFileType)
          else if HasSuffix rest ".bson"
          then (db, TrimSuffix rest ".bson", BSONFileType)
          else ("", "", UnknownFileType)
      end
  end.

Record TarRestoreState : Type := mkState {
  PastDbs : list string;
  CurrentDb : string;
  SingleDb : bool;
  PastCollections : list string;
  CurrentCollection : string;
  SingleCollection : bool;
  UsesMetadataFiles : bool;
  RestoredMetadata : bool;
  RestoredBSON : bool;
  CollectionExists : bool;
  MetadataIndexes : list IndexDocument;
  SystemIndexes : option IndexMap;
  Intent_ : option Intent
}.

Definition NewTarRestoreState (restore : MongoRestore) : TarRestoreState :=
  {| PastDbs := [];
     CurrentDb := ToolOptions_DB restore;
     SingleDb := negb (String.eqb (ToolOptions_DB restore) "");
     PastCollections := [];
     CurrentCollection := ToolOptions_Collection restore;
     SingleCollection := negb (String.eqb (ToolOptions_Collection restore) "");
     UsesMetadataFiles := false;
     RestoredMetadata := false;
     RestoredBSON := false;
     CollectionExists := false;
     MetadataIndexes := [];
     SystemIndexes := None;
     Intent_ := None |}.

(** The state and the calls made so far travel together. *)
Definition Run : Type := (TarRestoreState * list Call)%type.

Definition ChangeCollection (restore : MongoRestore) (run : Run)
           (collection : string) : go (Run * option error) :=
  let '(state, calls) := run in
  let PastCollections' :=
    if negb (String.eqb (CurrentCollection state) "")
    then (PastCollections state ++ [CurrentCollection state])%list
    else PastCollections state in
  let state :=
    mkState (PastDbs state) (CurrentDb state) (SingleDb state) PastCollections'
            collection (SingleCollection state) false
            (RestoredMetadata state) (RestoredBSON state) (CollectionExists state)
            (MetadataIndexes state) (SystemIndexes state) (Intent_ state) in
  let reset (state : TarRestoreState) : TarRestoreState :=
    mkState (PastDbs state) (CurrentDb state) (SingleDb state)
            (PastCollections state) (CurrentCollection state)
            (SingleCollection state) (UsesMetadataFiles state)
            false false false [] (SystemIndexes state) (Intent_ state) in
  let restoreIndexes (indexes : list IndexDocument) : go (Run * option error) :=
    let calls :=
      (calls ++ [CallRestoreCollectionIndexes (Intent_ state) indexes])%list in
    match RestoreCollectionIndexes restore (Intent_ state) indexes with
    | Some err => Returns ((state, calls), Some err)
    | None => Returns ((reset state, calls), None)
    end in
  if RestoredMetadata state then restoreIndexes (MetadataIndexes state)
  else
    match SystemIndexes state with
    | None => Returns ((reset state, calls), None)
    | Some systemIndexes =>
        match Intent_ state with
        | None =>
            (* state.Intent.C with a nil Intent *)
            Panics "invalid memory address or nil pointer dereference"
        | Some intent =>
            match lookup systemIndexes (C intent) with
            | Some indexes => restoreIndexes indexes
            | None => Returns ((reset state, calls), None)
            end
        end
    end.

Definition ChangeDatabase (restore : MongoRestore) (run : Run) (db : string)
  : go (Run * option error) :=
  let '(state, calls) := run in
  let PastDbs' :=
    if negb (String.eqb (CurrentDb state) "")
    then (PastDbs state ++ [CurrentDb state])%list
    else PastDbs state in
  let state :=
    mkState PastDbs' db (SingleDb state) [] (CurrentCollection state)
            (SingleCollection state) (UsesMetadataFiles state)
            (RestoredMetadata state) (RestoredBSON state) (CollectionExists state)
            (MetadataIndexes state) None (Intent_ state) in
  ChangeCollection restore (state, calls) "".

Definition set_Intent (state : TarRestoreState) (uses : bool)
           (intent : option Intent) : TarRestoreState :=
  mkState (PastDbs state) (CurrentDb state) (SingleDb state)
          (PastCollections state) (CurrentCollection state)
          (SingleCollection state) uses
          (RestoredMetadata state) (RestoredBSON state) (CollectionExists state)
          (MetadataIndexes state) (SystemIndexes state) intent.

Definition set_CollectionExists (state : TarRestoreState) (b : bool)
  : TarRestoreState :=
  mkState (PastDbs state) (CurrentDb state) (SingleDb state)
          (PastCollections state) (CurrentCollection state)
          (SingleCollection state) (UsesMetadataFiles state)
          (RestoredMetadata state) (RestoredBSON state) b
          (MetadataIndexes state) (SystemIndexes state) (Intent_ state).

Definition set_MetadataIndexes (state : TarRestoreState)
           (indexes : list IndexDocument) : TarRestoreState :=
  mkState (PastDbs state) (CurrentDb state) (SingleDb state)
          (PastCollections state) (CurrentCollection state)
          (SingleCollection state) (UsesMetadataFiles state)
          (RestoredMetadata state) (RestoredBSON state) (CollectionExists state)
          indexes (SystemIndexes state) (Intent_ state).

Definition set_RestoredMetadata (state : TarRestoreState) (b : bool)
  : TarRestoreState :=
  mkState (PastDbs state) (CurrentDb state) (SingleDb state)
          (PastCollections state) (CurrentCollection state)
          (SingleCollection state) (UsesMetadataFiles state)
          b (RestoredBSON state) (CollectionExists state)
          (MetadataIndexes state) (SystemIndexes state) (Intent_ state).

Definition set_SystemIndexes (state : TarRestoreState) (m : option IndexMap)
  : TarRestoreState :=
  mkState (PastDbs state) (CurrentDb state) (SingleDb state)
          (PastCollections state) (CurrentCollection state)
          (SingleCollection state) (UsesMetadataFiles state)
          (RestoredMetadata state) (RestoredBSON state) (CollectionExists state)
          (MetadataIndexes state) m (Intent_ state).

(** One pass of the loop of RestoreTarDump, for the logical file that
    chunkReader.Next returned: [inl] is `continue` or the end of the
    body, [inr] is `return err`. *)
Definition RestoreTarDump_body (restore : MongoRestore) (run : Run)
           (fileName : string) (content : list byte)
  : go (Run + Run * error) :=
  let '(db, collection, fileType) := GetInfoFromTarHeaderName fileName in
  if FileType_eqb fileType UnknownFileType then Returns (inl run)
  else
    match ValidateDBName restore db with
    | Some _ => Returns (inl run)
    | None =>
    match ValidateCollectionGrammar restore collection with
    | Some _ => Returns (inl run)
    | None =>
        let isSystemCollection := prefix "system." collection in
        let differs := negb (String.eqb db (CurrentDb (fst run))) in
        if differs && SingleDb (fst run) then Returns (inl run)
        else
          (* state.ChangeDatabase(db): the error it returns is dropped *)
          ('(run, _) <- (if differs then ChangeDatabase restore run db
                         else Returns (run, None)) ;;
           let differs :=
             negb (String.eqb collection (CurrentCollection (fst run))) in
           if differs && (SingleCollection (fst run) && negb isSystemCollection)
           then Returns (inl run)
           else
             (* state.ChangeCollection(collection): the error is dropped *)
             ('(run, _) <- (if differs then ChangeCollection restore run collection
                            else Returns (run, None)) ;;
              let '(state, calls) := run in
              if RestoredBSON state && FileType_eqb fileType MetadataFileType
              then Returns (inl run)
              else
                let '(created, uses) :=
                  CreateIntentForFile restore db collection fileType
                    (UsesMetadataFiles state) in
                let state := set_Intent state uses created in
                match created with
                | None => Returns (inl (state, calls))
                | Some intent =>
                    let begin : Run * option error :=
                      if negb (RestoredMetadata state) && negb (RestoredBSON state)
                         && negb isSystemCollection
                      then
                        let '(collectionExists, err) :=
                          RestoreBeginCollection restore intent in
                        ((set_CollectionExists state collectionExists,
                          calls ++ [CallRestoreBeginCollection intent])%list, err)
                      else ((state, calls), None) in
                    match begin with
                    | (run, Some err) => Returns (inr (run, err))
                    | ((state, calls), None) =>
                        if FileType_eqb fileType MetadataFileType
                           && negb isSystemCollection
                        then
                          let '(indexes, err) :=
                            RestoreCollectionMetadata restore intent content
                              (CollectionExists state) in
                          let state := set_MetadataIndexes state indexes in
                          let calls :=
                            (calls ++ [CallRestoreCollectionMetadata intent
                                         (CollectionExists state)])%list in
                          match err with
                          | Some err => Returns (inr ((state, calls), err))
                          | None =>
                              Returns (inl (set_RestoredMetadata state true, calls))
                          end
                        else if FileType_eqb fileType BSONFileType then
                          if String.eqb collection "system.indexes"
                             && negb (OutputOptions_NoIndexRestore restore)
                          then
                            (* state.SystemIndexes, err = ...; err is not looked at *)
                            let '(systemIndexes, _) :=
                              IndexesFromBSONReader restore
                                (ToolOptions_Collection restore) content in
                            Returns
                              (inl (set_SystemIndexes state systemIndexes,
                                    calls ++ [CallIndexesFromBSONReader
                                                (ToolOptions_Collection restore)])%list)
                          else
                            (* err = restore.RestoreCollectionBSON(...); err is
                               not looked at *)
                            let _ := RestoreCollectionBSON restore intent content in
                            Returns
                              (inl (state,
                                    calls ++ [CallRestoreCollectionBSON intent])%list)
                        else Returns (inl (state, calls))
                    end
                end))%go
    end
    end.

(** The loop of RestoreTarDump over what chunkReader.Next returns: the
    logical files in [files], then io.EOF when [last] is None and the
    error in [last] otherwise.  After the loop comes the final
    ChangeCollection(""). *)
Fixpoint RestoreTarDump_loop (restore : MongoRestore)
         (files : list (string * list byte)) (last : option error) (run : Run)
  : go (Run * option error) :=
  match files with
  | [] =>
      match last with
      | Some err => Returns (run, Some err)
      | None => ChangeCollection restore run ""
      end
  | (fileName, content) :: files' =>
      (res <- RestoreTarDump_body restore run fileName content ;;
       match res with
       | inl run => RestoreTarDump_loop restore files' last run
       | inr (run, err) => Returns (run, Some err)
       end)%go
  end.

Definition RestoreTarDump (restore : MongoRestore)
           (files : list (string * list byte)) (last : option error)
  : go (Run * option error) :=
  RestoreTarDump_loop restore files last (NewTarRestoreState restore, []).

End Mongorestore.

(* ================================================================== *)
(** * package mongodump: the intents of a dump *)
(* ================================================================== *)

Module Mongodump.

Import Mongorestore.
Local Open Scope string_scope.

(** The errors that the functions of prepare.go return, by the place
    that makes them; [cause] is the error of the session provider or of
    the file system. *)
Inductive DumpError : Type :=
| ErrSession (cause : error)                          (* GetSession's, as it is *)
| ErrCounting (namespace : string) (cause : error)    (* "error counting %v: %v" *)
| ErrCreatingDirectory (dbFolder : string) (cause : error)
| ErrCollectionNames (dbName : string) (cause : error)
| ErrDatabaseNames (cause : error).

(** The receiver *MongoDump: the options that prepare.go reads, and the
    session provider, os.MkdirAll and filepath.Join, which lie outside
    the file.  GetSession is given the number of sessions asked for
    before. *)
Record MongoDump : Type := mkMongoDump {
  OutputOptions_ExcludedCollections : list string;
  OutputOptions_ExcludedCollectionPrefixes : list string;
  OutputOptions_Out : string;
  OutputOptions_Tar : bool;
  useStdout : bool;
  GetSession : nat -> option error;
  Count : string -> string -> Z + error;
  CollectionNames : string -> list string + error;
  DatabaseNames : list string + error;
  MkdirAll : string -> option error;
  filepath_Join : list string -> string
}.

(** What prepare.go does to the world: directories made and intents put
    into the intent manager, in order. *)
Inductive Event : Type :=
| Mkdir (path : string)
| Put (intent : Intent).

Record World : Type := mkWorld {
  events : list Event;
  sessions : nat
}.

(** strings.HasPrefix(s, p) *)
Definition HasPrefix (s p : string) : bool := prefix p s.

(** intent.Namespace() *)
Definition Namespace (intent : Intent) : string := DB intent ++ "." ++ C intent.

Definition shouldSkipCollection (dump : MongoDump) (colName : string) : bool :=
  if existsb (fun excludedCollection => String.eqb colName excludedCollection)
       (OutputOptions_ExcludedCollections dump)
  then true
  else if existsb (fun excludedCollectionPrefix =>
                     HasPrefix colName excludedCollectionPrefix)
            (OutputOptions_ExcludedCollectionPrefixes dump)
  then true
  else false.

Definition outputPath (dump : MongoDump) (dbName colName : string) : string :=
  filepath_Join dump [OutputOptions_Out dump; dbName; colName].

Definition CreateIntentForCollection (dump : MongoDump) (w : World)
           (dbName colName : string) : World * option DumpError :=
  if shouldSkipCollection dump colName then (w, None)
  else
    let intent :=
      {| DB := dbName; C := colName;
         BSONPath := outputPath dump dbName colName ++ ".bson";
         MetadataPath := outputPath dump dbName colName ++ ".metadata.json";
         Size := 0 |} in
    let intent :=
      if useStdout dump
      then mkIntent (DB intent) (C intent) "-" "-" (Size intent)
      else intent in
    let asked := sessions w in
    let w := mkWorld (events w) (S asked) in
    match GetSession dump asked with
    | Some err => (w, Some (ErrSession err))
    | None =>
        match Count dump dbName colName with
        | inr err => (w, Some (ErrCounting (Namespace intent) err))
        | inl count =>
            let intent :=
              mkIntent (DB intent) (C intent) (BSONPath intent)
                       (MetadataPath intent) count in
            (mkWorld (events w ++ [Put intent]) (sessions w), None)
        end
    end.

(** One of the two loops of CreateIntentsForDatabase over [cols]: the
    collections that [wanted] takes, to the first error. *)
Fixpoint intents_loop (dump : MongoDump) (wanted : string -> bool) (w : World)
         (dbName : string) (cols : list string) : World * option DumpError :=
  match cols with
  | [] => (w, None)
  | colName :: cols' =>
      if wanted colName then
        match CreateIntentForCollection dump w dbName colName with
        | (w, Some err) => (w, Some err)
        | (w, None) => intents_loop dump wanted w dbName cols'
        end
      else intents_loop dump wanted w dbName cols'
  end.

Definition CreateIntentsForDatabase (dump : MongoDump) (w : World)
           (dbName : string) : World * option DumpError :=
  let dbFolder := filepath_Join dump [OutputOptions_Out dump; dbName] in
  let '(w, err) :=
    if negb (OutputOptions_Tar dump) then
      let w := mkWorld (events w ++ [Mkdir dbFolder]) (sessions w) in
      match MkdirAll dump dbFolder with
      | Some err => (w, Some (ErrCreatingDirectory dbFolder err))
      | None => (w, None)
      end
    else (w, None) in
  match err with
  | Some e => (w, Some e)
  | None =>
      match CollectionNames dump dbName with
      | inr err => (w, Some (ErrCollectionNames dbName err))
      | inl cols =>
          (* tar needs system collections to be first *)
          match intents_loop dump (fun colName => HasPrefix colName "system.")
                  w dbName cols with
          | (w, Some err) => (w, Some err)
          | (w, None) =>
              intents_loop dump
                (fun colName => negb (HasPrefix colName "system.")) w dbName cols
          end
      end
  end.

(** The loop of CreateAllIntents over [dbs]. *)
Fixpoint databases_loop (dump : MongoDump) (w : World) (dbs : list string)
  : World * option DumpError :=
  match dbs with
  | [] => (w, None)
  | dbName :: dbs' =>
      if String.eqb dbName "local" then databases_loop dump w dbs'
      else
        match CreateIntentsForDatabase dump w dbName with
        | (w, Some err) => (w, Some err)
        | (w, None) => databases_loop dump w dbs'
        end
  end.

Definition CreateAllIntents (dump : MongoDump) (w : World)
  : World * option DumpError :=
  match DatabaseNames dump with
  | inr err => (w, Some (ErrDatabaseNames err))
  | inl dbs => databases_loop dump w dbs
  end.

End Mongodump.

(* ================================================================== *)
(** * package mongorestore: the options *)
(* ================================================================== *)

Module RestoreOptions.

Import Mongorestore.
Local Open Scope string_scope.

(** The errors ParseAndValidateOptions returns, by the place that makes
    them; [cause] is the error it wraps or hands on. *)
Inductive OptionsError : Type :=
| ErrCollectionWithoutDB          (* "cannot dump a collection without a specified database" *)
| ErrInvalidDBName (cause : error)           (* "invalid db name: %v" *)
| ErrInvalidCollectionName (cause : error)   (* "invalid collection name: %v" *)
| ErrUsersAndRolesWithoutDB       (* "cannot use --restoreDbUsersAndRoles without a specified database" *)
| ErrUsersAndRolesWithAdmin       (* "cannot use --restoreDbUsersAndRoles with the admin database" *)
| ErrIsMongos (cause : error)                (* IsMongos's error, as it is *)
| ErrOplogLimitWithoutReplay      (* "cannot use --oplogLimit without --oplogReplay enabled" *)
| ErrOplogLimit (cause : error)              (* "error parsing timestamp argument to --oplogLimit: %v" *)
| ErrNodeType (cause : error)                (* "error determining type of connected node: %v" *)
| ErrWriteConcern (cause : error)            (* "error parsing write concern: %v" *)
| ErrNegativeInsertionWorkers     (* "cannot specify a negative number of insertion workers per collection" *)
| ErrStdinWithoutCollection.      (* "cannot restore from stdin without a specified collection" *)

Section Options.

(** db.NodeType and *mgo.Safe *)
Variables NodeType Safe : Type.

(** The options that ParseAndValidateOptions reads, with the session
    provider and the functions of other packages that it calls; the
    options of [restore] are ToolOptions.DB and ToolOptions.Collection,
    and its validators are util.ValidateDBName and
    util.ValidateCollectionGrammar. *)
Record Settings : Type := mkSettings {
  restore : MongoRestore;
  InputOptions_Objcheck : bool;
  InputOptions_RestoreDBUsersAndRoles : bool;
  InputOptions_OplogLimit : string;
  InputOptions_OplogReplay : bool;
  InputOptions_Tar : bool;
  OutputOptions_WriteConcern : string;
  OutputOptions_NumInsertionWorkers : Z;
  HiddenOptions_TempUsersColl : option string;
  HiddenOptions_TempRolesColl : option string;
  TargetDirectory : string;
  SessionProvider_IsMongos : bool * option error;
  ParseTimestampFlag : string -> Z * option error;
  SessionProvider_GetNodeType : NodeType * option error;
  BuildWriteConcern : string -> NodeType -> Safe * option error
}.

(** The fields of *MongoRestore that ParseAndValidateOptions writes. *)
Record Internal : Type := mkInternal {
  objCheck : bool;
  isMongos : bool;
  oplogLimit : Z;
  safety : option Safe;
  tempUsersCol : string;
  tempRolesCol : string;
  useStdin : bool
}.

Definition ParseAndValidateOptions (cfg : Settings) (st : Internal)
  : Internal * option OptionsError :=
  let DB := ToolOptions_DB (restore cfg) in
  let Collection := ToolOptions_Collection (restore cfg) in
  let st :=
    if InputOptions_Objcheck cfg
    then mkInternal true (isMongos st) (oplogLimit st) (safety st)
                    (tempUsersCol st) (tempRolesCol st) (useStdin st)
    else st in
  if String.eqb DB "" && negb (String.eqb Collection "")
  then (st, Some ErrCollectionWithoutDB)
  else
  match (if negb (String.eqb DB "") then ValidateDBName (restore cfg) DB else None) with
  | Some err => (st, Some (ErrInvalidDBName err))
  | None =>
  match (if negb (String.eqb Collection "")
         then ValidateCollectionGrammar (restore cfg) Collection else None) with
  | Some err => (st, Some (ErrInvalidCollectionName err))
  | None =>
  if InputOptions_RestoreDBUsersAndRoles cfg && String.eqb DB ""
  then (st, Some ErrUsersAndRolesWithoutDB)
  else if InputOptions_RestoreDBUsersAndRoles cfg && String.eqb DB "admin"
  then (st, Some ErrUsersAndRolesWithAdmin)
  else
  let '(mongos, err) := SessionProvider_IsMongos cfg in
  let st := mkInternal (objCheck st) mongos (oplogLimit st) (safety st)
                       (tempUsersCol st) (tempRolesCol st) (useStdin st) in
  match err with
  | Some err => (st, Some (ErrIsMongos err))
  | None =>
  let '(st, err) :=
    if negb (String.eqb (InputOptions_OplogLimit cfg) "") then
      if negb (InputOptions_OplogReplay cfg)
      then (st, Some ErrOplogLimitWithoutReplay)
      else
        let '(limit, err) := ParseTimestampFlag cfg (InputOptions_OplogLimit cfg) in
        let st := mkInternal (objCheck st) (isMongos st) limit (safety st)
                             (tempUsersCol st) (tempRolesCol st) (useStdin st) in
        match err with
        | Some err => (st, Some (ErrOplogLimit err))
        | None => (st, None)
        end
    else (st, None) in
  match err with
  | Some err => (st, Some err)
  | None =>
  match SessionProvider_GetNodeType cfg with
  | (_, Some err) => (st, Some (ErrNodeType err))
  | (nodeType, None) =>
  let '(safe, err) := BuildWriteConcern cfg (OutputOptions_WriteConcern cfg) nodeType in
  let st := mkInternal (objCheck st) (isMongos st) (oplogLimit st) (Some safe)
                       (tempUsersCol st) (tempRolesCol st) (useStdin st) in
  match err with
  | Some err => (st, Some (ErrWriteConcern err))
  | None =>
  let st :=
    mkInternal (objCheck st) (isMongos st) (oplogLimit st) (safety st)
               (match HiddenOptions_TempUsersColl cfg with
                | None => "tempusers"
                | Some name => name
                end)
               (tempRolesCol st) (useStdin st) in
  let st :=
    mkInternal (objCheck st) (isMongos st) (oplogLimit st) (safety st)
               (tempUsersCol st)
               (match HiddenOptions_TempRolesColl cfg with
                | None => "temproles"
                | Some name => name
                end)
               (useStdin st) in
  if (OutputOptions_NumInsertionWorkers cfg <? 0)%Z
  then (st, Some ErrNegativeInsertionWorkers)
  else
    if String.eqb (TargetDirectory cfg) "-" then
      let st := mkInternal (objCheck st) (isMongos st) (oplogLimit st) (safety st)
                           (tempUsersCol st) (tempRolesCol st) true in
      if negb (InputOptions_Tar cfg) && String.eqb Collection ""
      then (st, Some ErrStdinWithoutCollection)
      else (st, None)
    else (st, None)
  end
  end
  end
  end
  end
  end.

End Options.

Arguments restore {NodeType Safe} _.
Arguments InputOptions_Objcheck {NodeType Safe} _.
Arguments InputOptions_RestoreDBUsersAndRoles {NodeType Safe} _.
Arguments InputOptions_OplogLimit {NodeType Safe} _.
Arguments InputOptions_OplogReplay {NodeType Safe} _.
Arguments InputOptions_Tar {NodeType Safe} _.
Arguments OutputOptions_WriteConcern {NodeType Safe} _.
Arguments OutputOptions_NumInsertionWorkers {NodeType Safe} _.
Arguments HiddenOptions_TempUsersColl {NodeType Safe} _.
Arguments HiddenOptions_TempRolesColl {NodeType Safe} _.
Arguments TargetDirectory {NodeType Safe} _.
Arguments SessionProvider_IsMongos {NodeType Safe} _.
Arguments SessionProvider_GetNodeType {NodeType Safe} _.
Arguments ParseTimestampFlag {NodeType Safe} _ _.
Arguments BuildWriteConcern {NodeType Safe} _ _ _.
Arguments objCheck {Safe} _.
Arguments isMongos {Safe} _.
Arguments oplogLimit {Safe} _.
Arguments safety {Safe} _.
Arguments tempUsersCol {Safe} _.
Arguments tempRolesCol {Safe} _.
Arguments useStdin {Safe} _.
Arguments mkInternal {Safe} _ _ _ _ _ _ _.
Arguments ParseAndValidateOptions {NodeType Safe} cfg st.

End RestoreOptions.


(* ================================================================== *)
(** * Properties of the Writer *)
(* ================================================================== *)

Module WriterProperties.

Import ChunktarWriter Client WriterFacts.

Definition bs (s : string) : list byte :=
  map byte_of_ascii (list_ascii_of_string s).

(** Scenario A of the specification: one small collection. *)
Example scenario_A :
  written (produce [("db1/users.bson"%string, [bs "0123456789"])])
  = Returns ([chunk "db1/users.bson" 0 (bs "0123456789")], None).
Proof. vm_compute. reflexivity. Qed.

(** ** Empty logical files *)

(** The specification's reading: every logical file of the producer,
    an empty one too, has at least one chunk in the archive, the first
    with index 0. *)
Definition every_file_has_a_chunk (files : list (string * list (list byte)))
  : Prop :=
  exists fcs,
    written (produce files) = Returns (archive_of fcs, None)
    /\ Forall2 (fun f fc => fst fc = fst f /\ snd fc <> []
                            /\ List.concat (snd fc) = List.concat (snd f))
               files fcs.

Lemma chunks_nil_inv n k cs : chunks n k cs = [] -> cs = [].
Proof. destruct cs; [reflexivity | discriminate]. Qed.

(** C6, counterexample: a file opened with WriteHeader and closed with
    no byte written leaves no entry at all in the archive. *)
Lemma empty_file_has_no_chunk :
  written (produce [("a"%string, [])]) = Returns ([], None)
  /\ ~ every_file_has_a_chunk [("a"%string, [])].
Proof.
  split; [reflexivity|].
  intros (fcs & Hw & Hall).
  inversion Hall as [|f fc fs fcs' (Hn & Hne & _) Hrest]; subst.
  inversion Hrest; subst.
  assert (Ha : archive_of [fc] = []).
  { assert (E : written (produce [("a"%string, [])]) = Returns ([], None))
      by reflexivity.
    rewrite E in Hw. congruence. }
  unfold archive_of in Ha. simpl in Ha. rewrite app_nil_r in Ha.
  apply chunks_nil_inv in Ha. contradiction.
Qed.

Lemma concat_nonempty_chunks (cs : list (list byte)) :
  Forall (fun c => 0 < len c <= bufferLimit) cs ->
  List.concat cs = [] -> cs = [].
Proof.
  intros Hall Hc. destruct cs as [|c cs]; [reflexivity|].
  inversion Hall as [|? ? Hlen _]; subst. simpl in Hc.
  apply app_eq_nil in Hc as [Hc _]. subst c. unfold len in Hlen. simpl in Hlen. lia.
Qed.

(** C6, as the code has it: the archive holds the chunks of the logical
    files in order, the indices of each file starting at 0; a file with
    at least one byte has at least one chunk, and a file with no byte
    has none. *)
Theorem chunks_of_every_file (files : list (string * list (list byte))) :
  exists fcs,
    written (produce files) = Returns (archive_of fcs, None)
    /\ Forall2 (fun f fc =>
                  fst fc = fst f
                  /\ List.concat (snd fc) = List.concat (snd f)
                  /\ (List.concat (snd f) <> [] -> snd fc <> [])
                  /\ (List.concat (snd f) = [] -> snd fc = []))
               files fcs.
Proof.
  destruct (written_produce files) as (fcs & Hw & Hall).
  exists fcs. split; [exact Hw|].
  eapply Forall2_impl; [|exact Hall].
  intros f fc (Hn & Hcat & Hsize & _).
  split; [exact Hn|]. split; [exact Hcat|]. split.
  - intros Hne E. rewrite E in Hcat. simpl in Hcat. congruence.
  - intros E. rewrite E in Hcat. eapply concat_nonempty_chunks; eassumption.
Qed.

(** ** The threshold law *)

(** The law as the specification words it, read off the archive: no
    body above the limit, and a chunk that is followed by the next chunk
    of the same logical file is above the threshold. *)
Definition threshold_law (a : list Tar.Entry) : Prop :=
  Forall (fun e => len (Tar.body e) <= bufferLimit) a
  /\ forall pre e e' post n k,
       a = pre ++ e :: e' :: post -> 0 <= k ->
       Tar.Name (Tar.hdr e) = chunkName n k ->
       Tar.Name (Tar.hdr e') = chunkName n (k + 1) ->
       bufferThreshold < len (Tar.body e).

(** C8, counterexample: a Flush between two Writes of one entry emits a
    chunk of one byte that is not the last of its entry. *)
Lemma flush_breaks_threshold_law :
  exists a,
    written [OpWriteHeader "a"; OpWrite [x00]; OpFlush; OpWrite [x01]; OpClose]
    = Returns (a, None)
    /\ ~ threshold_law a.
Proof.
  eexists. split; [vm_compute; reflexivity|].
  intros [_ H].
  specialize (H [] _ _ [] "a"%string 0 eq_refl ltac:(lia) eq_refl eq_refl).
  vm_compute in H. discriminate.
Qed.

Lemma Forall_chunks (P : Z -> Prop) n k cs :
  Forall (fun c => P (len c)) cs ->
  Forall (fun e => P (len (Tar.body e))) (chunks n k cs).
Proof.
  revert k. induction cs as [|c cs IH]; intros k H; simpl; [constructor|].
  inversion H; subst. constructor; auto.
Qed.

Lemma emitted_idle w : wait w = None -> emitted w = Tar.archive (tarWriter w).
Proof. intros H. unfold emitted, Wait. rewrite H. reflexivity. Qed.

(** What one operation does to a ready writer. *)
Lemma run_op_ready w o :
  ready w ->
  exists w' err cs,
    run_op w o = Returns (w', err)
    /\ emitted w' = emitted w ++ chunks (name w) (chunkCount w) cs
    /\ Forall (fun c => len c <= bufferLimit) cs
    /\ (ready w' \/ open w' = false).
Proof.
  intros Hr. pose proof threshold_value as [HT HL].
  assert (Hres : Forall (fun c => len c <= bufferLimit) (residue w)).
  { destruct Hr as [_ Hle].
    destruct (residue_cases w) as [[_ ->] | [_ ->]]; repeat constructor. lia. }
  destruct o as [n | b | | ]; simpl.
  - destruct (WriteHeader_spec w n (proj1 Hr)) as (w' & Hrun & Hr' & _ & Hem & _).
    exists w', None, (residue w). rewrite Hrun. auto.
  - destruct (Write_spec w b Hr) as (w' & cs & Hrun & Hr' & Hem & Hcs & _).
    exists w', None, cs. rewrite Hrun. cbn [Go.bind].
    repeat split; auto.
    eapply Forall_impl; [|exact Hcs]. simpl. intros; lia.
  - destruct (Flush_spec w (proj1 Hr)) as (Hs & Hr' & Hw & Ha & Hi & _).
    destruct (Flush w) as [w' e]. simpl in *. subst e.
    exists w', None, (residue w). rewrite (emitted_idle w' Hw).
    repeat split; auto. left. split; [exact Hr'|].
    rewrite Hi. unfold len; simpl; lia.
  - destruct (Close_spec w (proj1 Hr)) as (w' & Hrun & Ho & Hw & Ha).
    exists w', None, (residue w). rewrite Hrun, (emitted_idle w' Hw). auto.
Qed.

Lemma run_op_closed w o :
  open w = false -> run_op w o = Returns (w, Some ErrWriterNotOpen).
Proof.
  intros Ho. destruct o; simpl; unfold WriteHeader, Write, Flush, Close;
    rewrite Ho; reflexivity.
Qed.

(** Whatever the producer calls, no chunk is above the limit. *)
Lemma run_ops_limit ops : forall w,
  ready w ->
  Forall (fun e => len (Tar.body e) <= bufferLimit) (emitted w) ->
  exists w' err,
    run_ops w ops = Returns (w', err)
    /\ Forall (fun e => len (Tar.body e) <= bufferLimit) (emitted w').
Proof.
  induction ops as [|o ops IH]; intros w Hr Hall.
  - exists w, None. auto.
  - destruct (run_op_ready w o Hr) as (w1 & err & cs & Hrun & Hem & Hcs & Hst).
    assert (Hall1 : Forall (fun e => len (Tar.body e) <= bufferLimit) (emitted w1)).
    { rewrite Hem. apply Forall_app. split; [exact Hall|].
      apply (Forall_chunks (fun z => z <= bufferLimit)). exact Hcs. }
    simpl. rewrite Hrun. cbn [Go.bind].
    destruct err as [e|]; [exists w1, (Some e); auto|].
    destruct Hst as [Hr1 | Hclosed]; [apply IH; assumption|].
    destruct ops as [|o' ops']; [exists w1, None; auto|].
    exists w1, (Some ErrWriterNotOpen). simpl.
    rewrite (run_op_closed w1 o' Hclosed). auto.
Qed.

(** C8, as the code has it: whatever the producer calls, no chunk body
    is above bufferLimit; and for a producer that calls WriteHeader,
    Write and Close only, every chunk that is not the last of its
    logical file is above bufferThreshold. *)
Theorem threshold_law_of_writer :
  (forall ops, exists w err,
      run_ops NewWriter ops = Returns (w, err)
      /\ Forall (fun e => len (Tar.body e) <= bufferLimit) (emitted w))
  /\ (forall files, exists fcs,
        written (produce files) = Returns (archive_of fcs, None)
        /\ Forall2 (fun f fc =>
                      fst fc = fst f
                      /\ List.concat (snd fc) = List.concat (snd f)
                      /\ Forall (fun c => len c <= bufferLimit) (snd fc)
                      /\ Forall (fun c => bufferThreshold < len c)
                                (removelast (snd fc)))
                   files fcs).
Proof.
  split.
  - intros ops. apply run_ops_limit; [apply NewWriter_ready | constructor].
  - intros files. destruct (written_produce files) as (fcs & Hw & Hall).
    exists fcs. split; [exact Hw|].
    eapply Forall2_impl; [|exact Hall].
    intros f fc (Hn & Hcat & Hsize & Hlast).
    repeat split; auto.
    eapply Forall_impl; [|exact Hsize]. simpl. intros; lia.
Qed.

(** ** Chunk boundaries and the size of the Write calls *)

(** The two producers of the specification: every logical file in one
    Write, and every logical file in Writes of one byte. *)
Definition in_one_write (files : list (string * list byte)) : list op :=
  produce (map (fun f => (fst f, [snd f])) files).

Definition byte_by_byte (files : list (string * list byte)) : list op :=
  produce (map (fun f => (fst f, map (fun x => [x]) (snd f))) files).

Definition same_archive (files : list (string * list byte)) : Prop :=
  written (in_one_write files) = written (byte_by_byte files).

Ltac len_lia :=
  pose proof threshold_value as [? ?];
  unfold len in *; cbn [List.length] in *; lia.

Lemma set_inputBuffer_twice w b1 b2 :
  set_inputBuffer (set_inputBuffer w b1) b2 = set_inputBuffer w b2.
Proof. destruct w; reflexivity. Qed.

Lemma set_inputBuffer_ready w b :
  ready0 w -> len b <= bufferThreshold -> ready (set_inputBuffer w b).
Proof.
  intros Hr Hb. split; [apply set_inputBuffer_ready0; exact Hr|].
  destruct w; exact Hb.
Qed.

(** Writes of one byte, as long as they end at most one byte above the
    threshold, leave the writer where one Write of all the bytes does. *)
Lemma bytewise_eq bytes : forall w,
  ready w ->
  len (inputBuffer w) + len bytes <= bufferThreshold + 1 ->
  run_ops w (map (fun x => OpWrite [x]) bytes) = run_ops w [OpWrite bytes].
Proof.
  pose proof threshold_value as [HT HL].
  induction bytes as [|x bytes IH]; intros w Hr Hlen.
  - simpl. rewrite Write_small by (auto; len_lia).
    cbn [Go.bind]. rewrite app_nil_r, set_inputBuffer_same.
    rewrite gtb_false by apply Hr. reflexivity.
  - assert (Hx : len (x :: bytes) = 1 + len bytes) by (len_lia).
    pose proof (len_nonneg bytes) as Hb0.
    pose proof (len_nonneg (inputBuffer w)) as Hi0.
    cbn [map run_ops run_op].
    rewrite (Write_small w [x]) by (auto; len_lia).
    rewrite (Write_small w (x :: bytes)) by (auto; lia).
    cbn [Go.bind].
    destruct bytes as [|y bytes].
    + reflexivity.
    + assert (Hy : len (y :: bytes) = 1 + len bytes) by (len_lia).
      pose proof (len_nonneg bytes) as Hb1.
      assert (Hsmall : len (inputBuffer w ++ [x]) <= bufferThreshold).
      { rewrite len_app. len_lia. }
      rewrite gtb_false by exact Hsmall. cbv zeta.
      assert (Hr1 : ready (set_inputBuffer w (inputBuffer w ++ [x])))
        by (apply set_inputBuffer_ready; [apply Hr | exact Hsmall]).
      assert (Hib1 : inputBuffer (set_inputBuffer w (inputBuffer w ++ [x]))
                     = inputBuffer w ++ [x]) by (destruct w; reflexivity).
      rewrite IH by (auto; rewrite Hib1, len_app; len_lia).
      cbn [run_ops run_op].
      rewrite Write_small by (auto; rewrite Hib1, len_app; len_lia).
      cbn [Go.bind]. rewrite Hib1, set_inputBuffer_twice, <- app_assoc.
      reflexivity.
Qed.

(** C5, as the code has it: a logical file of at most bufferThreshold+1
    bytes lies in the archive in the same way whether it is written in
    one Write or byte by byte; the archives of the two producers are
    equal when every file is that small. *)
Theorem chunk_boundary_invariance (files : list (string * list byte)) :
  Forall (fun f => len (snd f) <= bufferThreshold + 1) files ->
  written (in_one_write files) = written (byte_by_byte files).
Proof.
  intros Hall. unfold written, in_one_write, byte_by_byte. f_equal.
  generalize NewWriter_ready. generalize NewWriter.
  induction Hall as [|[n b] files Hb Hall IH]; intros w Hr; [reflexivity|].
  cbn [map fst snd]. rewrite !produce_cons. cbn [run_ops run_op].
  destruct (WriteHeader_spec w n (proj1 Hr)) as (w1 & Hrun & Hr1 & _ & _ & Hi1 & _).
  rewrite Hrun. cbn [Go.bind].
  rewrite !run_ops_app. rewrite map_map.
  simpl in Hb.
  rewrite bytewise_eq by (auto; rewrite Hi1; len_lia).
  cbn [map].
  destruct (Write_spec w1 b Hr1) as (w2 & cs & Hw & Hr2 & _).
  cbn [run_ops run_op]. rewrite Hw. cbn [Go.bind fst snd].
  apply IH. exact Hr2.
Qed.

Lemma chunk_boundary_invariance_witness :
  written (in_one_write [("db1/users.bson"%string, bs "0123456789")])
  = written (byte_by_byte [("db1/users.bson"%string, bs "0123456789")]).
Proof.
  apply chunk_boundary_invariance.
  repeat constructor. vm_compute. discriminate.
Defined.

(** C5, counterexample: a logical file of bufferThreshold+2 bytes is one
    chunk when it is written in one Write and two chunks when it is
    written byte by byte. *)
Lemma write_size_moves_chunk_boundary :
  ~ same_archive [("a"%string, repeat x00 (Z.to_nat (bufferThreshold + 2)))].
Proof.
  pose proof threshold_value as [HT HL].
  set (big := repeat x00 (Z.to_nat (bufferThreshold + 2))).
  set (mid := repeat x00 (Z.to_nat (bufferThreshold + 1))).
  assert (Hbig : big = mid ++ [x00]).
  { unfold big, mid.
    replace (Z.to_nat (bufferThreshold + 2))
      with (Z.to_nat (bufferThreshold + 1) + 1)%nat by lia.
    rewrite repeat_app. reflexivity. }
  assert (Hlbig : len big = bufferThreshold + 2)
    by (unfold big, len; rewrite repeat_length; lia).
  assert (Hlmid : len mid = bufferThreshold + 1)
    by (unfold mid, len; rewrite repeat_length; lia).
  clearbody big mid.
  unfold same_archive, written, in_one_write, byte_by_byte.
  cbn [map fst snd]. rewrite !produce_cons. cbn [run_ops run_op].
  destruct (WriteHeader_spec NewWriter "a" (proj1 NewWriter_ready))
    as (w1 & Hrun & Hr1 & Hw1 & Hem1 & Hi1 & Hn1 & Hc1).
  rewrite Hrun. cbn [Go.bind].
  change (emitted NewWriter ++ _) with (@nil Tar.Entry) in Hem1.
  (* one Write *)
  assert (Hone : exists w',
    run_ops w1 (map OpWrite [big] ++ produce []) = Returns (w', None)
    /\ Tar.archive (tarWriter w') = [chunk "a" 0 big]).
  { cbn [map app run_ops run_op].
    rewrite Write_small by (auto; rewrite Hi1, Hlbig; len_lia).
    cbn [Go.bind]. rewrite Hi1. cbn [app].
    rewrite gtb_true by lia. cbv zeta.
    assert (Hr : ready0 (set_inputBuffer w1 big))
      by (apply set_inputBuffer_ready0; apply Hr1).
    destruct (swapInOut_spec _ Hr) as (_ & Hr2 & Hem2 & Hi2 & Hn2 & Hc2).
    destruct (Close_spec _ Hr2) as (w' & Hcl & _ & _ & Ha).
    unfold produce. cbn [flat_map app run_ops run_op].
    rewrite Hcl. cbn [Go.bind]. exists w'. split; [reflexivity|].
    rewrite Ha, Hem2, set_inputBuffer_emitted, Hem1.
    unfold residue. rewrite Hi2. cbn [chunks app].
    destruct w1; simpl in *; subst. reflexivity. }
  (* byte by byte *)
  assert (Htwo : exists w',
    run_ops w1 (map OpWrite (map (fun x => [x]) big) ++ produce [])
    = Returns (w', None)
    /\ Tar.archive (tarWriter w')
       = [chunk "a" 0 mid; chunk "a" (uint64_wrap (0 + 1)) [x00]]).
  { rewrite map_map, Hbig, map_app, <- app_assoc, run_ops_app.
    rewrite bytewise_eq by (auto; rewrite Hi1, Hlmid; len_lia).
    cbn [run_ops run_op].
    rewrite Write_small by (auto; rewrite Hi1, Hlmid; len_lia).
    cbn [Go.bind fst snd]. rewrite Hi1. cbn [app].
    rewrite gtb_true by lia. cbv zeta.
    assert (Hr : ready0 (set_inputBuffer w1 mid))
      by (apply set_inputBuffer_ready0; apply Hr1).
    destruct (swapInOut_spec _ Hr) as (_ & Hr2 & Hem2 & Hi2 & Hn2 & Hc2).
    set (w2 := fst (swapInOut (set_inputBuffer w1 mid))) in *.
    assert (Hr2' : ready w2) by (split; [exact Hr2 | rewrite Hi2; len_lia]).
    cbn [map app run_ops run_op].
    rewrite Write_small by (auto; rewrite Hi2; len_lia).
    cbn [Go.bind]. rewrite Hi2. cbn [app].
    rewrite gtb_false by (len_lia). cbv zeta.
    assert (Hr3 : ready0 (set_inputBuffer w2 [x00]))
      by (apply set_inputBuffer_ready0; exact Hr2).
    destruct (Close_spec _ Hr3) as (w' & Hcl & _ & _ & Ha).
    unfold produce. cbn [flat_map app run_ops run_op].
    rewrite Hcl. cbn [Go.bind]. exists w'. split; [reflexivity|].
    rewrite Ha, set_inputBuffer_emitted, Hem2, set_inputBuffer_emitted, Hem1.
    unfold residue.
    replace (inputBuffer (set_inputBuffer w2 [x00])) with [x00]
      by (destruct w2; reflexivity).
    replace (name (set_inputBuffer w2 [x00])) with (name w2)
      by (destruct w2; reflexivity).
    replace (chunkCount (set_inputBuffer w2 [x00])) with (chunkCount w2)
      by (destruct w2; reflexivity).
    rewrite Hn2, Hc2.
    destruct w1; simpl in *; subst. reflexivity. }
  destruct Hone as (wa & Ha1 & Ha2). destruct Htwo as (wb & Hb1 & Hb2).
  rewrite Ha1, Hb1. cbn [Go.bind]. rewrite Ha2, Hb2.
  intros E. discriminate E.
Qed.

End WriterProperties.

(* ================================================================== *)
(** * Writing an archive and reading it back *)
(* ================================================================== *)

Module RoundTrip.

Import ChunktarWriter ChunktarReader Client WriterFacts NameFacts ReaderFacts.
Import WriterProperties.

(** Round-trip integrity for the logical files [files], each given by
    its name and the byte strings of its Write calls: the producer
    returns without error, and the consumer, whatever the size of its
    buffer and the way the tar reader reports the end of an entry, gets
    the names in order, each with its bytes. *)
Definition round_trip (files : list (string * list (list byte))) : Prop :=
  forall (eager : bool) (bufsz : Z), 0 < bufsz ->
  exists a,
    written (produce files) = Returns (a, None)
    /\ exists fuel0, forall fuel, (fuel0 <= fuel)%nat ->
         read_back fuel eager a bufsz
         = Returns (map (fun f => (fst f, List.concat (snd f))) files, None).

(** No logical file has the name of the one written just before it. *)
Fixpoint no_repeat (prev : string) (names : list string) : Prop :=
  match names with
  | [] => True
  | n :: rest => n <> prev /\ no_repeat n rest
  end.

Ltac refute_round_trip :=
  let H := fresh "H" in
  let a := fresh "a" in
  let Hw := fresh "Hw" in
  let fuel0 := fresh "fuel0" in
  let Hr := fresh "Hr" in
  intros H; destruct (H true 1 eq_refl) as (a & Hw & fuel0 & Hr);
  vm_compute in Hw; injection Hw as <-;
  specialize (Hr (S (S (S (S fuel0)))) ltac:(lia));
  vm_compute in Hr; discriminate Hr.

(** C1, counterexamples: a logical file without bytes is not in the
    archive; two files in a row under one name are read as chunks out
    of order; the empty name and a name with a line feed do not come
    back as they were written. *)
Lemma round_trip_fails :
  ~ round_trip [("a"%string, [])]
  /\ ~ round_trip [("a"%string, [[x00]]); ("a"%string, [[x01]])]
  /\ ~ round_trip [(EmptyString, [[x00]])]
  /\ ~ round_trip [(String newline "a", [[x00]])].
Proof.
  split; [|split; [|split]]; refute_round_trip.
Qed.

Lemma sum_above_threshold (l : list (list byte)) :
  Forall (fun c => bufferThreshold < len c) l ->
  Z.of_nat (List.length l) * (bufferThreshold + 1) <= len (List.concat l).
Proof.
  induction 1 as [|c l Hc Hl IH]; [unfold len; simpl; lia|].
  simpl List.concat. rewrite len_app. simpl List.length.
  rewrite Nat2Z.inj_succ. lia.
Qed.

Lemma removelast_concat_len (cs : list (list byte)) :
  len (List.concat (removelast cs)) <= len (List.concat cs).
Proof.
  destruct cs as [|c cs]; [apply Z.le_refl|].
  rewrite (app_removelast_last [] (l := c :: cs)) at 2 by discriminate.
  rewrite concat_app, len_app. pose proof (len_nonneg (List.concat [last (c :: cs) []])).
  lia.
Qed.

(** The writer's comment: twelve digits last for about four exabytes. *)
Lemma chunk_count_bound content cs :
  chunked_as content cs ->
  len content <= 10 ^ 12 * bufferThreshold ->
  Z.of_nat (List.length cs) <= 10 ^ 12.
Proof.
  intros (Hcat & _ & Hlast) Hlen.
  pose proof (sum_above_threshold _ Hlast) as Hsum.
  pose proof (removelast_concat_len cs) as Hrl.
  rewrite Hcat in Hrl.
  assert (Hl : List.length (removelast cs) = (List.length cs - 1)%nat).
  { destruct cs as [|c cs]; [reflexivity|].
    rewrite (app_removelast_last [] (l := c :: cs)) at 2 by discriminate.
    rewrite length_app. simpl. lia. }
  rewrite Hl in Hsum.
  pose proof threshold_value as [HT _]. rewrite HT in *.
  change (10 ^ 12) with 1000000000000 in *. lia.
Qed.

(** What the hypotheses on the written files give the Reader. *)
Lemma written_files_wf files : forall fcs prev,
  Forall2 (fun f fc => fst fc = fst f
                       /\ chunked_as (List.concat (snd f)) (snd fc)) files fcs ->
  Forall (fun f => valid_name (fst f)
                   /\ List.concat (snd f) <> []
                   /\ len (List.concat (snd f)) <= 10 ^ 12 * bufferThreshold)
         files ->
  no_repeat prev (map fst files) ->
  wf_files prev fcs
  /\ contents fcs = map (fun f => (fst f, List.concat (snd f))) files.
Proof.
  induction files as [|f files IH]; intros fcs prev H2 Hall Hnr.
  - inversion H2; subst. split; [exact I | reflexivity].
  - inversion H2 as [|? fc ? fcs' (Hn & Hch) H2']; subst.
    inversion Hall as [|? ? (Hv & Hne & Hlen) Hall']; subst.
    destruct Hnr as [Hd Hnr].
    destruct (IH fcs' (fst f) H2' Hall' Hnr) as (Hwf & Hcont).
    assert (Hcnt := chunk_count_bound _ _ Hch Hlen).
    destruct Hch as (Hcat & Hsize & _).
    split.
    + simpl. rewrite Hn. split; [exact Hd|]. split; [|exact Hwf].
      unfold wf_file. rewrite Hn. split; [exact Hv|]. split.
      * intros E. rewrite E in Hcat. simpl in Hcat. congruence.
      * split; [|exact Hcnt].
        eapply Forall_impl; [|exact Hsize]. simpl.
        intros c Hc E. subst c. unfold len in Hc. simpl in Hc. lia.
    + unfold contents in *. simpl. rewrite Hcont, Hn, Hcat. reflexivity.
Qed.

(** C1, as the code has it: the round trip holds for logical files
    whose names are not empty and hold no line feed, no name being the
    one written just before it, and whose contents are at least one
    byte and at most 10^12 * bufferThreshold bytes. *)
Theorem round_trip_integrity (files : list (string * list (list byte))) :
  Forall (fun f => valid_name (fst f)
                   /\ List.concat (snd f) <> []
                   /\ len (List.concat (snd f)) <= 10 ^ 12 * bufferThreshold)
         files ->
  no_repeat EmptyString (map fst files) ->
  round_trip files.
Proof.
  intros Hall Hnr eager bufsz Hbuf.
  destruct (written_produce files) as (fcs & Hw & H2).
  destruct (written_files_wf files fcs EmptyString H2 Hall Hnr) as (Hwf & Hcont).
  exists (archive_of fcs). split; [exact Hw|].
  destruct (read_back_archive bufsz Hbuf eager fcs Hwf) as (fuel0 & Hrun).
  exists fuel0. intros fuel Hfuel. rewrite Hrun by exact Hfuel.
  rewrite Hcont. reflexivity.
Qed.

Lemma round_trip_integrity_witness :
  round_trip [("db1/users.bson"%string, [bs "01234"; bs "56789"]);
              ("db1/orders.bson"%string, [bs "ab"])].
Proof.
  apply round_trip_integrity.
  - repeat constructor; try discriminate; vm_compute; discriminate.
  - simpl. repeat split; discriminate.
Defined.

End RoundTrip.

(* ================================================================== *)
(** * Properties of the Reader *)
(* ================================================================== *)

Module ReaderProperties.

Import Decimal ChunktarReader NameFacts WriterFacts.

(** The tar reader once Next has moved it onto the entry [e]. *)
Definition moved_onto (tr : Tar.Reader) (e : Tar.Entry) (rest : list Tar.Item)
  : Tar.Reader :=
  {| Tar.tr_items := rest; Tar.tr_curr := Some (Tar.body e);
     Tar.tr_err := None; Tar.tr_eager := Tar.tr_eager tr |}.

Lemma Tar_Next_file tr e rest :
  Tar.tr_err tr = None -> Tar.tr_items tr = Tar.File e :: rest ->
  Tar.Next tr = (moved_onto tr e rest, inl (Tar.hdr e)).
Proof. intros He Hi. unfold Tar.Next. rewrite He, Hi. reflexivity. Qed.

Lemma regex_base_nonempty s base digits :
  chunkFileNameRegex_FindStringSubmatch s = Some (base, digits) ->
  base <> EmptyString.
Proof.
  unfold chunkFileNameRegex_FindStringSubmatch.
  set (l := list_ascii_of_string s).
  destruct (List.length l <? 14)%nat eqn:Hlt; [discriminate|].
  apply Nat.ltb_ge in Hlt.
  destruct (skipn (List.length l - 13) l) as [|c ds]; [discriminate|].
  destruct (_ && _ && _); [|discriminate].
  intros H. injection H as <- _.
  destruct l as [|x l']; [simpl in Hlt; lia|].
  destruct (List.length (x :: l') - 13)%nat eqn:E; [lia|].
  simpl. discriminate.
Qed.

Lemma Next_promote r :
  nextName r <> EmptyString ->
  Next r = Returns ({| tarReader := tarReader r; name := nextName r;
                       number := 0; nextName := EmptyString |},
                    nextName r, None).
Proof.
  intros H. unfold Next. cbn [plus Next_loop].
  apply String.eqb_neq in H. rewrite H. reflexivity.
Qed.

(** nextChunk without error has taken one item from the tar source. *)
Lemma nextChunk_consumes r r' :
  nextChunk r = (r', None) ->
  S (List.length (Tar.tr_items (tarReader r')))
  = List.length (Tar.tr_items (tarReader r)).
Proof.
  unfold nextChunk, Tar.Next.
  destruct (Tar.tr_err (tarReader r)) as [e0|].
  { destruct e0; discriminate. }
  destruct (Tar.tr_items (tarReader r)) as [|[e|msg] rest]; try discriminate.
  destruct (chunkFileNameRegex_FindStringSubmatch _) as [[name' digits]|].
  - destruct (ParseUint digits) as [chunk|]; [|discriminate].
    cbn [set_tarReader name number].
    destruct (String.eqb name' (name r)).
    + destruct (negb _); [discriminate|].
      intros H; injection H as <-. reflexivity.
    + destruct (negb _); [discriminate|].
      intros H; injection H as <-. reflexivity.
  - intros H; injection H as <-. reflexivity.
Qed.

Lemma Next_loop_returns fuel : forall r err,
  (match err with
   | Some _ => 1
   | None => 2 + List.length (Tar.tr_items (tarReader r))
   end <= fuel)%nat ->
  exists res, Next_loop fuel r err = Returns res.
Proof.
  induction fuel as [|fuel IH]; intros r err Hfuel.
  - destruct err; lia.
  - cbn [Next_loop].
    destruct (String.eqb (nextName r) EmptyString); [|eexists; reflexivity].
    destruct err as [e|]; [eexists; reflexivity|].
    destruct (nextChunk r) as [r' [e|]] eqn:Hnc.
    + apply IH. lia.
    + apply IH. apply nextChunk_consumes in Hnc. lia.
Qed.

(** The bound on the loop of Next is never reached: Next returns in
    every state. *)
Lemma Next_returns r : exists res, Next r = Returns res.
Proof. unfold Next. apply Next_loop_returns. lia. Qed.

(** ** Order of the chunks *)

(** What nextChunk does with a tar entry whose name the pattern takes
    apart into [base] and the index [k]. *)
Definition ordering_checked (r : Reader) (e : Tar.Entry) (rest : list Tar.Item)
           (base : string) (k : Z) : Prop :=
  let r1 := set_tarReader r (moved_onto (tarReader r) e rest) in
  (base = name r -> k = number r + 1 ->
     nextChunk r = (set_number r1 k, None))
  /\ (base = name r -> k <> number r + 1 ->
        nextChunk r = (r1, Some (ErrChunksOutOfOrder base (number r + 1) k)))
  /\ (base <> name r -> k = 0 ->
        nextChunk r = (set_name (set_nextName r1 base) EmptyString, None)
        /\ Next (set_name (set_nextName r1 base) EmptyString)
           = Returns ({| tarReader := tarReader r1; name := base; number := 0;
                         nextName := EmptyString |}, base, None))
  /\ (base <> name r -> k <> 0 ->
        nextChunk r = (r1, Some (ErrMissingFirstChunk base k))).

(** C7: a chunk of the current logical file must carry the current
    index plus one, else nextChunk fails with chunks out of order; a
    chunk of another logical file must carry index 0, else nextChunk
    fails with missing first chunk; and the name of an accepted new file
    is what the next call of Next returns. *)
Theorem nextChunk_validates_order
        (r : Reader) (e : Tar.Entry) (rest : list Tar.Item)
        (base : string) (digits : list ascii) (k : Z) :
  Tar.tr_err (tarReader r) = None ->
  Tar.tr_items (tarReader r) = Tar.File e :: rest ->
  chunkFileNameRegex_FindStringSubmatch (Tar.Name (Tar.hdr e)) = Some (base, digits) ->
  ParseUint digits = Some k ->
  0 <= number r < uint64_modulus - 1 ->
  ordering_checked r e rest base k.
Proof.
  intros He Hi Hre Hp Hnum.
  assert (Hwrap : uint64_wrap (number r + 1) = number r + 1)
    by (unfold uint64_wrap; apply Z.mod_small; lia).
  assert (Hnc : nextChunk r
    = let r1 := set_tarReader r (moved_onto (tarReader r) e rest) in
      if String.eqb base (name r) then
        if negb (k =? number r + 1) then
          (r1, Some (ErrChunksOutOfOrder base (number r + 1) k))
        else (set_number r1 k, None)
      else if negb (k =? 0) then (r1, Some (ErrMissingFirstChunk base k))
      else (set_name (set_nextName r1 base) EmptyString, None)).
  { unfold nextChunk. rewrite (Tar_Next_file _ e rest He Hi).
    rewrite Hre, Hp. destruct r; cbn [set_tarReader name number].
    cbn [name number] in Hwrap. rewrite Hwrap. reflexivity. }
  unfold ordering_checked. cbv zeta in *.
  split; [intros Hb Hk | split; [intros Hb Hk | split; [intros Hb Hk; split | intros Hb Hk]]].
  - rewrite Hnc, (proj2 (String.eqb_eq _ _) Hb), (proj2 (Z.eqb_eq _ _) Hk). reflexivity.
  - rewrite Hnc, (proj2 (String.eqb_eq _ _) Hb), (proj2 (Z.eqb_neq _ _) Hk). reflexivity.
  - rewrite Hnc, (proj2 (String.eqb_neq _ _) Hb), (proj2 (Z.eqb_eq _ _) Hk). reflexivity.
  - rewrite Next_promote.
    + destruct r; reflexivity.
    + destruct r; cbn. eapply regex_base_nonempty; eassumption.
  - rewrite Hnc, (proj2 (String.eqb_neq _ _) Hb), (proj2 (Z.eqb_neq _ _) Hk). reflexivity.
Qed.

Lemma nextChunk_validates_order_witness :
  ordering_checked
    (NewReader (Tar.NewReader true [Tar.File (chunk "a" 0 [x00])]))
    (chunk "a" 0 [x00]) [] "a" 0.
Proof.
  apply (nextChunk_validates_order
           (NewReader (Tar.NewReader true [Tar.File (chunk "a" 0 [x00])]))
           (chunk "a" 0 [x00]) [] "a" (pad12 0) 0).
  - reflexivity.
  - reflexivity.
  - vm_compute. reflexivity.
  - vm_compute. reflexivity.
  - split; [apply Z.le_refl | reflexivity].
Defined.

(** The twelve digits that the pattern accepts always parse: the
    parse-error return of nextChunk is never taken. *)
Lemma regex_digits_parse s base digits :
  chunkFileNameRegex_FindStringSubmatch s = Some (base, digits) ->
  exists k, ParseUint digits = Some k.
Proof.
  unfold chunkFileNameRegex_FindStringSubmatch.
  set (l := list_ascii_of_string s).
  destruct (List.length l <? 14)%nat eqn:Hlt; [discriminate|].
  apply Nat.ltb_ge in Hlt.
  destruct (skipn (List.length l - 13) l) as [|c ds] eqn:Hsk; [discriminate|].
  destruct (Ascii.eqb c ".") eqn:Hc; [|discriminate]. cbn [andb].
  destruct (forallb is_digit ds) eqn:Hd; [|discriminate]. cbn [andb].
  destruct (forallb _ (firstn _ _)); [|discriminate].
  intros H. injection H as _ <-.
  assert (Hlen : List.length ds = 12%nat).
  { apply (f_equal (@List.length ascii)) in Hsk.
    rewrite length_skipn in Hsk. simpl in Hsk. lia. }
  rewrite ParseUint_nonempty by (intros E; rewrite E in Hlen; discriminate).
  rewrite (parse_from_value ds 0 0 Hd) by (simpl; lia).
  eexists. reflexivity.
Qed.

(** ** Read stays inside the current logical file *)












(** Scenario F of the specification: chunk 2 after chunk 0. *)
Example scenario_F :
  Client.read_back 10 true [chunk "db1/x.bson" 0 [x00]; chunk "db1/x.bson" 2 [x01]] 4
  = Returns ([("db1/x.bson"%string, [x00])],
             Some (ErrChunksOutOfOrder "db1/x.bson" 1 2)).
Proof. vm_compute. reflexivity. Qed.


End ReaderProperties.

(* ================================================================== *)
(** * The tar restore driver on concrete archives *)
(* ================================================================== *)

Module DriverProperties.

Import Mongorestore.
Local Open Scope string_scope.

(** CreateIntentForFile as RestoreTarDump calls it: path "-", size -1. *)
Definition intentFor (db c : string) (ft : FileType) (uses : bool)
  : option Intent * bool :=
  (Some (mkIntent db c "-" "-" (-1)), uses).

(** A restore collaborator for the examples: every name is valid, and
    the four callbacks in the arguments decide what fails.  The
    system.indexes file holds one index for users and one for orders. *)
Definition collaborator
           (create : string -> string -> FileType -> bool -> option Intent * bool)
           (bson : Intent -> list byte -> option error)
           (fromBSON : option error)
           (indexes : option Intent -> list IndexDocument -> option error)
  : MongoRestore :=
  {| ToolOptions_DB := "";
     ToolOptions_Collection := "";
     OutputOptions_NoIndexRestore := false;
     ValidateDBName := fun _ => None;
     ValidateCollectionGrammar := fun _ => None;
     CreateIntentForFile := create;
     RestoreBeginCollection := fun _ => (false, None);
     RestoreCollectionMetadata := fun _ _ _ => ([Index "X"], None);
     RestoreCollectionBSON := bson;
     IndexesFromBSONReader :=
       fun _ _ => (Some [("users", [Index "U"]); ("orders", [Index "O"])], fromBSON);
     RestoreCollectionIndexes := indexes |}.

(** The collaborator for which nothing fails. *)
Definition sound : MongoRestore :=
  collaborator intentFor (fun _ _ => None) None (fun _ _ => None).

(** The calls and the error of a run. *)
Definition outcome (r : go (Run * option error)) : go (list Call * option error) :=
  (x <- r ;; Returns (snd (fst x), snd x))%go.

Definition users (db : string) : Intent := mkIntent db "users" "-" "-" (-1).
Definition orders (db : string) : Intent := mkIntent db "orders" "-" "-" (-1).

(** Scenario D of the specification: the order of the calls. *)
Example scenario_D :
  outcome (RestoreTarDump sound
             [("db1/system.indexes.bson", []); ("db1/users.metadata.json", []);
              ("db1/users.bson", []); ("db1/orders.bson", [])] None)
  = Returns ([CallIndexesFromBSONReader "";
              CallRestoreBeginCollection (users "db1");
              CallRestoreCollectionMetadata (users "db1") false;
              CallRestoreCollectionBSON (users "db1");
              CallRestoreCollectionIndexes (Some (users "db1")) [Index "X"];
              CallRestoreBeginCollection (orders "db1");
              CallRestoreCollectionBSON (orders "db1");
              CallRestoreCollectionIndexes (Some (orders "db1")) [Index "O"]],
             None).
Proof. vm_compute. reflexivity. Qed.

(** Scenario E of the specification: single-collection mode. *)
Example scenario_E :
  outcome (RestoreTarDump
             {| ToolOptions_DB := "db1";
                ToolOptions_Collection := "users";
                OutputOptions_NoIndexRestore := false;
                ValidateDBName := fun _ => None;
                ValidateCollectionGrammar := fun _ => None;
                CreateIntentForFile := intentFor;
                RestoreBeginCollection := fun _ => (false, None);
                RestoreCollectionMetadata := fun _ _ _ => ([], None);
                RestoreCollectionBSON := fun _ _ => None;
                IndexesFromBSONReader := fun _ _ => (None, None);
                RestoreCollectionIndexes := fun _ _ => None |}
             [("db1/orders.bson", []); ("db1/users.bson", [])] None)
  = Returns ([CallRestoreBeginCollection (users "db1");
              CallRestoreCollectionBSON (users "db1")],
             None).
Proof. vm_compute. reflexivity. Qed.

(** ** Indexes at a database transition *)

(** ChangeDatabase clears SystemIndexes before its ChangeCollection("")
    looks at them: without metadata it restores no index. *)
Lemma ChangeDatabase_forgets_system_indexes restore state calls db :
  RestoredMetadata state = false ->
  exists state',
    ChangeDatabase restore (state, calls) db = Returns ((state', calls), None)
    /\ SystemIndexes state' = None.
Proof.
  intros H. unfold ChangeDatabase, ChangeCollection. cbn. rewrite H.
  eexists. split; reflexivity.
Qed.

(** C2, at the failing archive: the indexes that system.indexes holds
    for db1.orders are restored when the archive ends after db1, and
    are not restored when a file of db2 follows. *)
Theorem database_transition_loses_indexes :
  outcome (RestoreTarDump sound
             [("db1/system.indexes.bson", []); ("db1/orders.bson", [])] None)
  = Returns ([CallIndexesFromBSONReader "";
              CallRestoreBeginCollection (orders "db1");
              CallRestoreCollectionBSON (orders "db1");
              CallRestoreCollectionIndexes (Some (orders "db1")) [Index "O"]],
             None)
  /\ outcome (RestoreTarDump sound
                [("db1/system.indexes.bson", []); ("db1/orders.bson", []);
                 ("db2/users.bson", [])] None)
     = Returns ([CallIndexesFromBSONReader "";
                 CallRestoreBeginCollection (orders "db1");
                 CallRestoreCollectionBSON (orders "db1");
                 CallRestoreBeginCollection (users "db2");
                 CallRestoreCollectionBSON (users "db2")],
                None).
Proof. split; vm_compute; reflexivity. Qed.

(** ** Errors of the collaborator *)

Definition failing_bson (i : Intent) (_ : list byte) : option error :=
  if String.eqb (C i) "users" then Some (ErrCollaborator "bson") else None.

Definition failing_indexes (i : option Intent) (_ : list IndexDocument)
  : option error :=
  Some (ErrCollaborator "indexes").

(** C3, at the failing archives: the error of RestoreCollectionBSON,
    the error of IndexesFromBSONReader, and the error that
    RestoreCollectionIndexes returns during a collection transition are
    dropped; the restore goes on with the next logical file and, in the
    first two runs, returns no error. *)
Theorem collaborator_errors_dropped :
  outcome (RestoreTarDump
             (collaborator intentFor failing_bson None (fun _ _ => None))
             [("db1/users.bson", []); ("db1/orders.bson", [])] None)
  = Returns ([CallRestoreBeginCollection (users "db1");
              CallRestoreCollectionBSON (users "db1");
              CallRestoreBeginCollection (orders "db1");
              CallRestoreCollectionBSON (orders "db1")],
             None)
  /\ outcome (RestoreTarDump
                (collaborator intentFor (fun _ _ => None)
                   (Some (ErrCollaborator "system.indexes")) (fun _ _ => None))
                [("db1/system.indexes.bson", []); ("db1/orders.bson", [])] None)
     = Returns ([CallIndexesFromBSONReader "";
                 CallRestoreBeginCollection (orders "db1");
                 CallRestoreCollectionBSON (orders "db1");
                 CallRestoreCollectionIndexes (Some (orders "db1")) [Index "O"]],
                None)
  /\ outcome (RestoreTarDump
                (collaborator intentFor (fun _ _ => None) None failing_indexes)
                [("db1/users.metadata.json", []); ("db1/orders.bson", [])] None)
     = Returns ([CallRestoreBeginCollection (users "db1");
                 CallRestoreCollectionMetadata (users "db1") false;
                 CallRestoreCollectionIndexes (Some (users "db1")) [Index "X"];
                 CallRestoreCollectionBSON (orders "db1");
                 CallRestoreCollectionIndexes (Some (orders "db1")) [Index "X"]],
                Some (ErrCollaborator "indexes")).
Proof. repeat split; vm_compute; reflexivity. Qed.

(** ** Metadata after BSON *)

(** C4, at the failing archive: the metadata file that comes after the
    BSON file of its collection is not skipped; the collection is begun
    a second time and RestoreCollectionMetadata is called. *)
Theorem late_metadata_is_restored :
  outcome (RestoreTarDump sound
             [("db1/users.bson", []); ("db1/users.metadata.json", [])] None)
  = Returns ([CallRestoreBeginCollection (users "db1");
              CallRestoreCollectionBSON (users "db1");
              CallRestoreBeginCollection (users "db1");
              CallRestoreCollectionMetadata (users "db1") false;
              CallRestoreCollectionIndexes (Some (users "db1")) [Index "X"]],
             None).
Proof. vm_compute. reflexivity. Qed.

(** ** The nil Intent *)

(** ** Invariants of the loop *)

(** The run inside the result of one pass of the loop. *)
Definition run_of (res : Run + Run * error) : Run :=
  match res with
  | inl run => run
  | inr (run, _) => run
  end.

Lemma ChangeCollection_RestoredBSON restore run c run' err :
  RestoredBSON (fst run) = false ->
  ChangeCollection restore run c = Returns (run', err) ->
  RestoredBSON (fst run') = false.
Proof.
  destruct run as [state calls]. unfold ChangeCollection. cbn.
  intros Hb.
  destruct (RestoredMetadata state).
  - destruct (RestoreCollectionIndexes restore _ _);
      intros H; injection H as <- <-; cbn; auto.
  - destruct (SystemIndexes state) as [m|].
    + destruct (Intent_ state) as [i|]; [|discriminate].
      destruct (lookup m (C i)).
      * destruct (RestoreCollectionIndexes restore _ _);
          intros H; injection H as <- <-; cbn; auto.
      * intros H; injection H as <- <-; cbn; auto.
    + intros H; injection H as <- <-; cbn; auto.
Qed.

Lemma ChangeDatabase_RestoredBSON restore run db run' err :
  RestoredBSON (fst run) = false ->
  ChangeDatabase restore run db = Returns (run', err) ->
  RestoredBSON (fst run') = false.
Proof.
  destruct run as [state calls]. unfold ChangeDatabase. intros Hb.
  apply ChangeCollection_RestoredBSON. exact Hb.
Qed.

(** No pass of the loop sets RestoredBSON: whatever the collaborator
    does, the flag is false before every logical file. *)
Lemma RestoredBSON_stays_false restore run fileName content res :
  RestoredBSON (fst run) = false ->
  RestoreTarDump_body restore run fileName content = Returns res ->
  RestoredBSON (fst (run_of res)) = false.
Proof.
  intros Hb. unfold RestoreTarDump_body.
  destruct (GetInfoFromTarHeaderName fileName) as [[db collection] fileType].
  destruct (FileType_eqb fileType UnknownFileType);
    [intros H; injection H as <-; exact Hb|].
  destruct (ValidateDBName restore db);
    [intros H; injection H as <-; exact Hb|].
  destruct (ValidateCollectionGrammar restore collection);
    [intros H; injection H as <-; exact Hb|].
  destruct (negb (String.eqb db (CurrentDb (fst run))) && SingleDb (fst run));
    [intros H; injection H as <-; exact Hb|].
  assert (H1 : forall r,
    (if negb (String.eqb db (CurrentDb (fst run)))
     then ChangeDatabase restore run db else Returns (run, None)) = Returns r ->
    RestoredBSON (fst (fst r)) = false).
  { intros [run1 e1]. destruct (negb _).
    - apply ChangeDatabase_RestoredBSON. exact Hb.
    - intros H; injection H as <- <-. exact Hb. }
  destruct (if negb (String.eqb db (CurrentDb (fst run))) then _ else _)
    as [[run1 e1]| |]; [|discriminate|discriminate].
  specialize (H1 _ eq_refl). cbn [fst] in H1. cbn [Go.bind].
  destruct (negb (String.eqb collection (CurrentCollection (fst run1)))
            && (SingleCollection (fst run1) && negb (prefix "system." collection)));
    [intros H; injection H as <-; exact H1|].
  assert (H2 : forall r,
    (if negb (String.eqb collection (CurrentCollection (fst run1)))
     then ChangeCollection restore run1 collection else Returns (run1, None))
    = Returns r ->
    RestoredBSON (fst (fst r)) = false).
  { intros [run2 e2]. destruct (negb _).
    - apply ChangeCollection_RestoredBSON. exact H1.
    - intros H; injection H as <- <-. exact H1. }
  destruct (if negb (String.eqb collection (CurrentCollection (fst run1)))
            then _ else _) as [[[state calls] e2]| |]; [|discriminate|discriminate].
  specialize (H2 _ eq_refl). cbn [fst] in H2. cbn [Go.bind].
  rewrite H2. cbn [andb].
  destruct (CreateIntentForFile restore db collection fileType _) as [[intent|] uses];
    [|intros H; injection H as <-; exact H2].
  cbn [set_Intent RestoredMetadata RestoredBSON].
  destruct (negb (RestoredMetadata state) && negb (RestoredBSON state)
            && negb (prefix "system." collection)).
  - destruct (RestoreBeginCollection restore intent) as [ex [e|]];
      [intros H; injection H as <-; exact H2|].
    destruct (FileType_eqb fileType MetadataFileType && _).
    + destruct (RestoreCollectionMetadata restore intent content _) as [ix [e|]];
        intros H; injection H as <-; exact H2.
    + destruct (FileType_eqb fileType BSONFileType);
        [|intros H; injection H as <-; exact H2].
      destruct (String.eqb collection "system.indexes" && _).
      * destruct (IndexesFromBSONReader restore _ content) as [m e].
        intros H; injection H as <-; exact H2.
      * intros H; injection H as <-; exact H2.
  - destruct (FileType_eqb fileType MetadataFileType && _).
    + destruct (RestoreCollectionMetadata restore intent content _) as [ix [e|]];
        intros H; injection H as <-; exact H2.
    + destruct (FileType_eqb fileType BSONFileType);
        [|intros H; injection H as <-; exact H2].
      destruct (String.eqb collection "system.indexes" && _).
      * destruct (IndexesFromBSONReader restore _ content) as [m e].
        intros H; injection H as <-; exact H2.
      * intros H; injection H as <-; exact H2.
Qed.

Lemma RestoredBSON_false_at_end restore files : forall last run run' err,
  RestoredBSON (fst run) = false ->
  RestoreTarDump_loop restore files last run = Returns (run', err) ->
  RestoredBSON (fst run') = false.
Proof.
  induction files as [|[fileName content] files IH]; intros last run run' err Hb; simpl.
  - destruct last as [e|].
    + intros H; injection H as <- <-. exact Hb.
    + apply ChangeCollection_RestoredBSON. exact Hb.
  - destruct (RestoreTarDump_body restore run fileName content) as [res| |] eqn:Hbody;
      [|discriminate|discriminate].
    pose proof (RestoredBSON_stays_false _ _ _ _ _ Hb Hbody) as Hb'.
    cbn [Go.bind]. destruct res as [run1 | [run1 e1]]; cbn [run_of] in Hb'.
    + apply IH. exact Hb'.
    + intros H; injection H as <- <-. exact Hb'.
Qed.

(** ** The nil Intent *)

(** While state.Intent is nil, nothing waits for its indexes. *)
Definition intent_invariant (state : TarRestoreState) : Prop :=
  Intent_ state = None ->
  RestoredMetadata state = false /\ SystemIndexes state = None.

(** CreateIntentForFile never gives nil. *)
Definition never_nil (restore : MongoRestore) : Prop :=
  forall db c ft uses, fst (CreateIntentForFile restore db c ft uses) <> None.

Lemma ChangeCollection_returns restore run c :
  intent_invariant (fst run) ->
  exists run' err,
    ChangeCollection restore run c = Returns (run', err)
    /\ intent_invariant (fst run').
Proof.
  destruct run as [state calls]. unfold ChangeCollection, intent_invariant. cbn.
  intros Hinv.
  destruct (RestoredMetadata state) eqn:Hm.
  - destruct (RestoreCollectionIndexes restore _ _);
      eexists; eexists; (split; [reflexivity|]); cbn; intros Hi;
      destruct (Hinv Hi); auto; discriminate.
  - destruct (SystemIndexes state) as [m|] eqn:Hs.
    + destruct (Intent_ state) as [i|] eqn:Hi.
      * destruct (lookup m (C i));
          [destruct (RestoreCollectionIndexes restore _ _)|];
          eexists; eexists; (split; [reflexivity|]); cbn; rewrite ?Hi; discriminate.
      * destruct (Hinv eq_refl). discriminate.
    + eexists; eexists; (split; [reflexivity|]); cbn. auto.
Qed.

Lemma ChangeDatabase_returns restore run db :
  intent_invariant (fst run) ->
  exists run' err,
    ChangeDatabase restore run db = Returns (run', err)
    /\ intent_invariant (fst run').
Proof.
  destruct run as [state calls]. unfold ChangeDatabase. intros Hinv.
  apply ChangeCollection_returns. unfold intent_invariant in *. cbn in *.
  intros Hi. destruct (Hinv Hi). auto.
Qed.

(** When CreateIntentForFile never gives nil, a pass of the loop does
    not panic and keeps the invariant. *)
Lemma RestoreTarDump_body_returns restore run fileName content :
  never_nil restore ->
  intent_invariant (fst run) ->
  exists res,
    RestoreTarDump_body restore run fileName content = Returns res
    /\ intent_invariant (fst (run_of res)).
Proof.
  intros Hnn Hinv. unfold RestoreTarDump_body.
  destruct (GetInfoFromTarHeaderName fileName) as [[db collection] fileType].
  destruct (FileType_eqb fileType UnknownFileType); [eexists; split; [reflexivity | exact Hinv]|].
  destruct (ValidateDBName restore db); [eexists; split; [reflexivity | exact Hinv]|].
  destruct (ValidateCollectionGrammar restore collection);
    [eexists; split; [reflexivity | exact Hinv]|].
  destruct (negb (String.eqb db (CurrentDb (fst run))) && SingleDb (fst run));
    [eexists; split; [reflexivity | exact Hinv]|].
  match goal with |- context [Go.bind ?m _] =>
    assert (H1 : exists run1 e1,
              m = Returns (run1, e1) /\ intent_invariant (fst run1))
  end.
  { destruct (negb _).
    - apply ChangeDatabase_returns. exact Hinv.
    - eexists; eexists; split; [reflexivity | exact Hinv]. }
  destruct H1 as (run1 & e1 & -> & Hinv1). cbn [Go.bind].
  destruct (negb (String.eqb collection (CurrentCollection (fst run1)))
            && (SingleCollection (fst run1) && negb (prefix "system." collection)));
    [eexists; split; [reflexivity | exact Hinv1]|].
  match goal with |- context [Go.bind ?m _] =>
    assert (H2 : exists run2 e2,
              m = Returns (run2, e2) /\ intent_invariant (fst run2))
  end.
  { destruct (negb _).
    - apply ChangeCollection_returns. exact Hinv1.
    - eexists; eexists; split; [reflexivity | exact Hinv1]. }
  destruct H2 as ([state calls] & e2 & -> & Hinv2). cbn [Go.bind].
  destruct (RestoredBSON state && FileType_eqb fileType MetadataFileType);
    [eexists; split; [reflexivity | exact Hinv2]|].
  pose proof (Hnn db collection fileType (UsesMetadataFiles state)) as Hc.
  destruct (CreateIntentForFile restore db collection fileType _) as [[intent|] uses];
    [|cbn in Hc; congruence].
  cbn [set_Intent RestoredMetadata RestoredBSON].
  destruct (negb (RestoredMetadata state) && negb (RestoredBSON state)
            && negb (prefix "system." collection)).
  - destruct (RestoreBeginCollection restore intent) as [ex [e|]];
      [eexists; split; [reflexivity | cbn; discriminate]|].
    destruct (FileType_eqb fileType MetadataFileType && _).
    + destruct (RestoreCollectionMetadata restore intent content _) as [ix [e|]];
        eexists; (split; [reflexivity | cbn; discriminate]).
    + destruct (FileType_eqb fileType BSONFileType);
        [|eexists; split; [reflexivity | cbn; discriminate]].
      destruct (String.eqb collection "system.indexes" && _).
      * destruct (IndexesFromBSONReader restore _ content) as [m e].
        eexists; split; [reflexivity | cbn; discriminate].
      * eexists; split; [reflexivity | cbn; discriminate].
  - destruct (FileType_eqb fileType MetadataFileType && _).
    + destruct (RestoreCollectionMetadata restore intent content _) as [ix [e|]];
        eexists; (split; [reflexivity | cbn; discriminate]).
    + destruct (FileType_eqb fileType BSONFileType);
        [|eexists; split; [reflexivity | cbn; discriminate]].
      destruct (String.eqb collection "system.indexes" && _).
      * destruct (IndexesFromBSONReader restore _ content) as [m e].
        eexists; split; [reflexivity | cbn; discriminate].
      * eexists; split; [reflexivity | cbn; discriminate].
Qed.

(** When CreateIntentForFile never gives nil, RestoreTarDump returns on
    every archive: state.Intent.C is never evaluated on a nil Intent. *)
Lemma RestoreTarDump_returns restore files last :
  never_nil restore ->
  exists run err, RestoreTarDump restore files last = Returns (run, err).
Proof.
  intros Hnn. unfold RestoreTarDump.
  assert (Hinv : intent_invariant (fst (NewTarRestoreState restore, @nil Call)))
    by (intros _; split; reflexivity).
  revert Hinv. generalize (NewTarRestoreState restore, @nil Call).
  induction files as [|[fileName content] files IH]; intros run Hinv; simpl.
  - destruct last as [e|]; [eexists; eexists; reflexivity|].
    destruct (ChangeCollection_returns restore run "" Hinv) as (run' & err & H & _).
    eexists; eexists; exact H.
  - destruct (RestoreTarDump_body_returns restore run fileName content Hnn Hinv)
      as (res & -> & Hinv'). cbn [Go.bind].
    destruct res as [run1 | [run1 e1]]; [apply IH; exact Hinv'|].
    eexists; eexists; reflexivity.
Qed.

(** CreateIntentForFile that gives no intent for system.profile. *)
Definition refuses_profile (db c : string) (ft : FileType) (uses : bool)
  : option Intent * bool :=
  if String.eqb c "system.profile" then (None, uses) else intentFor db c ft uses.

(** C10, at the failing archive: after system.indexes, a file for which
    CreateIntentForFile gives nil leaves nil in state.Intent, and the
    next collection transition dereferences it. *)
Theorem nil_intent_is_dereferenced :
  RestoreTarDump
    (collaborator refuses_profile (fun _ _ => None) None (fun _ _ => None))
    [("db1/system.indexes.bson", []); ("db1/system.profile.bson", []);
     ("db1/users.bson", [])] None
  = Panics "invalid memory address or nil pointer dereference".
Proof. vm_compute. reflexivity. Qed.

End DriverProperties.


(* ================================================================== *)
(** * More on the Writer: every sequence of operations *)
(* ================================================================== *)

Module WriterExtras.

Import ChunktarWriter Client WriterFacts WriterProperties.

(** The bytes an operation hands to the writer. *)
Definition payload (o : op) : list byte :=
  match o with
  | OpWrite b => b
  | _ => []
  end.

Definition is_close (o : op) : bool :=
  match o with
  | OpClose => true
  | _ => false
  end.

(** The bytes of the entries of an archive, in order. *)
Definition bodies (a : list Tar.Entry) : list byte :=
  List.concat (map Tar.body a).

(** What the tar writer is handed for every chunk: mode 0644, the size
    of the body, and a body that is not empty. *)
Definition sound_entry (e : Tar.Entry) : Prop :=
  Tar.Mode (Tar.hdr e) = 420
  /\ Tar.Size (Tar.hdr e) = len (Tar.body e)
  /\ 0 < len (Tar.body e).

Lemma bodies_app a1 a2 : bodies (a1 ++ a2) = bodies a1 ++ bodies a2.
Proof. unfold bodies. rewrite map_app, concat_app. reflexivity. Qed.

Lemma bodies_chunks n k cs : bodies (chunks n k cs) = List.concat cs.
Proof.
  revert k. induction cs as [|c cs IH]; intros k; [reflexivity|].
  unfold bodies in *. simpl. rewrite IH. reflexivity.
Qed.

Lemma sound_chunks n k cs :
  Forall (fun c => 0 < len c) cs -> Forall sound_entry (chunks n k cs).
Proof.
  revert k. induction cs as [|c cs IH]; intros k H; simpl; [constructor|].
  inversion H; subst. constructor; [|apply IH; assumption].
  unfold sound_entry, chunk. simpl. auto.
Qed.

Lemma residue_concat w : List.concat (residue w) = inputBuffer w.
Proof.
  destruct (residue_cases w) as [[Hi ->] | [_ ->]]; simpl.
  - symmetry. exact Hi.
  - apply app_nil_r.
Qed.

Lemma residue_positive w : Forall (fun c => 0 < len c) (residue w).
Proof.
  destruct (residue_cases w) as [[_ ->] | [Hi ->]]; repeat constructor.
  pose proof (len_nonneg (inputBuffer w)).
  assert (len (inputBuffer w) <> 0) by (rewrite len_nil_iff; exact Hi). lia.
Qed.

(** One operation on a ready writer: it returns without error, what it
    emits are sound chunks, and no byte is lost or moved. *)
Lemma run_op_effect w o :
  ready w ->
  exists w',
    run_op w o = Returns (w', None)
    /\ (exists cs, emitted w' = emitted w ++ chunks (name w) (chunkCount w) cs
                   /\ Forall (fun c => 0 < len c) cs)
    /\ bodies (emitted w') ++ inputBuffer w'
       = bodies (emitted w) ++ inputBuffer w ++ payload o
    /\ (is_close o = false -> ready w')
    /\ (is_close o = true ->
        open w' = false /\ wait w' = None /\ inputBuffer w' = []).
Proof.
  intros Hr. pose proof threshold_value as [HT HL].
  destruct o as [n | b | | ]; simpl.
  - destruct (WriteHeader_spec w n (proj1 Hr))
      as (w' & Hrun & Hr' & _ & Hem & Hi & _).
    exists w'. rewrite Hrun. split; [reflexivity|]. split.
    { exists (residue w). split; [exact Hem | apply residue_positive]. }
    split.
    { rewrite Hem, bodies_app, bodies_chunks, residue_concat, Hi, !app_nil_r.
      reflexivity. }
    split; [auto | discriminate].
  - destruct (Write_spec w b Hr) as (w' & cs & Hrun & Hr' & Hem & Hcs & Hcat & _).
    exists w'. rewrite Hrun. cbn [Go.bind]. split; [reflexivity|]. split.
    { exists cs. split; [exact Hem|].
      eapply Forall_impl; [|exact Hcs]. simpl. intros; lia. }
    split.
    { rewrite Hem, bodies_app, bodies_chunks, <- app_assoc, Hcat. reflexivity. }
    split; [auto | discriminate].
  - destruct (Flush_spec w (proj1 Hr)) as (Hs & Hr' & Hw & Ha & Hi & _).
    destruct (Flush w) as [w' e]. simpl in Hs, Hr', Hw, Ha, Hi. subst e.
    exists w'. split; [reflexivity|].
    rewrite (emitted_idle w' Hw). split.
    { exists (residue w). split; [exact Ha | apply residue_positive]. }
    split.
    { rewrite Ha, bodies_app, bodies_chunks, residue_concat, Hi, !app_nil_r.
      reflexivity. }
    split; [|discriminate]. intros _. split; [exact Hr'|].
    rewrite Hi. unfold len; simpl; lia.
  - unfold Close.
    assert (Ho : open w = true) by apply Hr. rewrite Ho. simpl negb. cbv iota.
    destruct (Flush_spec w (proj1 Hr)) as (Hs & Hr' & Hw & Ha & Hi & _).
    destruct (Flush w) as [w1 e]. simpl in Hs, Hr', Hw, Ha, Hi. subst e.
    destruct Hr' as (Ho1 & He1 & Hcl1 & Hm1).
    unfold Tar.Close, Tar.Flush. rewrite Hcl1, (gtb_false _ _ Hm1).
    eexists. split; [reflexivity|].
    match goal with |- context [emitted ?w2] =>
      assert (H2 : wait w2 = None /\ inputBuffer w2 = [] /\ open w2 = false
                   /\ Tar.archive (tarWriter w2) = Tar.archive (tarWriter w1))
        by (destruct w1 as [tw ? ? ? ? ? ? ?]; destruct tw; simpl in *; auto);
      destruct H2 as (Hw2 & Hi2 & Ho2 & Ha2);
      rewrite (emitted_idle w2 Hw2), Ha2, Hi2
    end.
    split.
    { exists (residue w). split; [exact Ha | apply residue_positive]. }
    split.
    { rewrite Ha, bodies_app, bodies_chunks, residue_concat, !app_nil_r.
      reflexivity. }
    split; [discriminate | auto].
Qed.

(** A producer that has not closed the writer: every operation returns
    without error. *)
Lemma run_ops_effect ops : forall w,
  ready w -> forallb (fun o => negb (is_close o)) ops = true ->
  exists w',
    run_ops w ops = Returns (w', None)
    /\ ready w'
    /\ bodies (emitted w') ++ inputBuffer w'
       = bodies (emitted w) ++ inputBuffer w ++ List.concat (map payload ops).
Proof.
  induction ops as [|o ops IH]; intros w Hr Hnc.
  - exists w. simpl. rewrite !app_nil_r. auto.
  - simpl in Hnc. apply andb_true_iff in Hnc as [Ho Hnc].
    apply negb_true_iff in Ho.
    destruct (run_op_effect w o Hr) as (w1 & Hrun & _ & Hcat & Hready & _).
    destruct (IH w1 (Hready Ho) Hnc) as (w' & Hrun' & Hr' & Hcat').
    exists w'. simpl. rewrite Hrun. cbn [Go.bind].
    split; [exact Hrun'|]. split; [exact Hr'|].
    rewrite Hcat', app_assoc, Hcat, <- !app_assoc. reflexivity.
Qed.

Definition not_closing (ops : list op) : Prop :=
  forallb (fun o => negb (is_close o)) ops = true.

(** X1: when the calls of a producer (WriteHeader, Write and Flush in
    any order, also Writes before the first WriteHeader, then Close) all
    return nil, the bodies of the entries of the closed archive, put end
    to end, are the bytes of the Write calls in the order they were
    written: no byte is lost, repeated or moved. *)
Theorem no_byte_lost (ops : list op) (a : list Tar.Entry) :
  not_closing ops ->
  written (ops ++ [OpClose]) = Returns (a, None) ->
  bodies a = List.concat (map payload ops).
Proof.
  intros Hnc. unfold written. rewrite run_ops_app.
  destruct (run_ops_effect ops NewWriter NewWriter_ready Hnc)
    as (w1 & Hrun1 & Hr1 & Hcat1).
  rewrite Hrun1. cbn [Go.bind fst snd run_ops].
  destruct (run_op_effect w1 OpClose Hr1) as (w2 & Hrun2 & _ & Hcat2 & _ & Hcl).
  destruct (Hcl eq_refl) as (_ & Hw2 & Hi2).
  rewrite Hrun2. cbn [Go.bind]. intros H. injection H as <-.
  rewrite <- (emitted_idle w2 Hw2).
  rewrite Hi2 in Hcat2. cbn [payload] in Hcat2. rewrite !app_nil_r in Hcat2.
  rewrite Hcat2, Hcat1. reflexivity.
Qed.

Lemma no_byte_lost_witness :
  bodies [chunk "" 0 [x00]; chunk "a" 0 [x01; x02]; chunk "a" 1 [x03]]
  = List.concat (map payload [OpWrite [x00]; OpWriteHeader "a";
                              OpWrite [x01; x02]; OpFlush; OpWrite [x03]]).
Proof.
  apply (no_byte_lost
           [OpWrite [x00]; OpWriteHeader "a"; OpWrite [x01; x02]; OpFlush;
            OpWrite [x03]]
           [chunk "" 0 [x00]; chunk "a" 0 [x01; x02]; chunk "a" 1 [x03]]).
  - reflexivity.
  - vm_compute. reflexivity.
Defined.

(** X2: in every state that a sequence of operations reaches, the
    entries handed to the tar writer have mode 0644, a Size equal to the
    length of their body, and a body of at least one byte: the Writer
    never writes an empty chunk. *)
Theorem entries_are_sound (ops : list op) :
  exists w err,
    run_ops NewWriter ops = Returns (w, err)
    /\ Forall sound_entry (emitted w).
Proof.
  assert (H : forall w, ready w -> Forall sound_entry (emitted w) ->
            exists w' err, run_ops w ops = Returns (w', err)
                           /\ Forall sound_entry (emitted w')).
  { induction ops as [|o ops IH]; intros w Hr Hall.
    - exists w, None. auto.
    - destruct (run_op_effect w o Hr)
        as (w1 & Hrun & (cs & Hem & Hcs) & _ & Hready & Hclosed).
      assert (Hall1 : Forall sound_entry (emitted w1)).
      { rewrite Hem. apply Forall_app. split; [exact Hall|].
        apply sound_chunks. exact Hcs. }
      simpl. rewrite Hrun. cbn [Go.bind].
      destruct (is_close o) eqn:Ho; [|apply IH; auto].
      destruct (Hclosed eq_refl) as (Hop & _).
      destruct ops as [|o' ops']; [exists w1, None; auto|].
      exists w1, (Some ErrWriterNotOpen). simpl.
      rewrite (run_op_closed w1 o' Hop). auto. }
  apply H; [apply NewWriter_ready | constructor].
Qed.

(** ** The buffer and the open flag, in every state *)

(** The barrier touches neither the input buffer nor the open flag,
    whatever the tar writer does. *)
Lemma writeOutput_keeps w cn :
  inputBuffer (writeOutput w cn) = inputBuffer w
  /\ open (writeOutput w cn) = open w.
Proof.
  unfold writeOutput.
  destruct (Tar.WriteHeader (tarWriter w) _) as [tw [e|]]; [auto|].
  destruct (outputBuffer w) as [|x ob]; [auto|].
  destruct (Tar.Write tw (x :: ob)) as [[tw' m] [e|]]; auto.
Qed.

Lemma Wait_keeps w :
  inputBuffer (Wait w) = inputBuffer w /\ open (Wait w) = open w.
Proof.
  unfold Wait. destruct (wait w) as [cn|]; [|auto].
  apply (writeOutput_keeps (set_wait w None) cn).
Qed.

Lemma swapInOut_keeps w w' e :
  swapInOut w = (w', e) ->
  open w' = open w /\ (e = None -> inputBuffer w' = []).
Proof.
  unfold swapInOut. destruct (Wait_keeps w) as (_ & Ho).
  destruct (outputError (Wait w)); intros H; injection H as <- <-.
  - split; [exact Ho | discriminate].
  - split; [exact Ho | reflexivity].
Qed.

Lemma Flush_keeps w w' e :
  Flush w = (w', e) ->
  open w' = open w /\ (e = None -> inputBuffer w' = []).
Proof.
  unfold Flush. destruct (negb (open w)).
  { intros H; injection H as <- <-. split; [reflexivity | discriminate]. }
  assert (H1 : forall w1 e1,
            (if len (inputBuffer w) >? 0 then swapInOut w else (w, None)) = (w1, e1) ->
            open w1 = open w /\ (e1 = None -> inputBuffer w1 = [])).
  { intros w1 e1. destruct (len (inputBuffer w) >? 0) eqn:Hlen.
    - apply swapInOut_keeps.
    - intros H; injection H as <- <-. split; [reflexivity|]. intros _.
      apply len_nil_iff. pose proof (len_nonneg (inputBuffer w)).
      rewrite Z.gtb_ltb in Hlen. apply Z.ltb_ge in Hlen. lia. }
  destruct (if len (inputBuffer w) >? 0 then swapInOut w else (w, None))
    as [w1 e1].
  destruct (H1 w1 e1 eq_refl) as (Ho1 & Hi1).
  destruct e1 as [e1|].
  { intros H; injection H as <- <-. split; [exact Ho1 | discriminate]. }
  destruct (Wait_keeps w1) as (Hi2 & Ho2).
  destruct (outputError (Wait w1)).
  { intros H; injection H as <- <-. split; [congruence | discriminate]. }
  destruct (Tar.Flush (tarWriter (Wait w1))) as [tw e2].
  intros H; injection H as <- <-.
  change (open (set_tarWriter (Wait w1) tw)) with (open (Wait w1)).
  change (inputBuffer (set_tarWriter (Wait w1) tw)) with (inputBuffer (Wait w1)).
  split; [congruence|]. intros _. rewrite Hi2. auto.
Qed.

Lemma Write_loop_keeps fuel : forall w b n start stop w' n' e,
  Write_loop fuel w b n start stop = Returns (w', n', e) ->
  open w' = open w.
Proof.
  induction fuel as [|fuel IH]; intros w b n start stop w' n' e; [discriminate|].
  cbn [Write_loop]. destruct (start <? len b).
  2:{ intros H; injection H as <- _ _. reflexivity. }
  assert (H1 : forall w1 e1,
            (if start >? 0 then swapInOut w else (w, None)) = (w1, e1) ->
            open w1 = open w).
  { intros w1 e1. destruct (start >? 0).
    - intros H. apply swapInOut_keeps in H. apply H.
    - intros H; injection H as <- _. reflexivity. }
  destruct (if start >? 0 then swapInOut w else (w, None)) as [w1 e1].
  specialize (H1 w1 e1 eq_refl).
  destruct e1 as [e1|].
  { intros H; injection H as <- _ _. exact H1. }
  destruct (slice b start stop) as [piece| |]; cbn [Go.bind]; try discriminate.
  intros H. apply IH in H. rewrite H. exact H1.
Qed.

Lemma Write_keeps w b w' n e :
  Write w b = Returns (w', n, e) ->
  open w' = open w
  /\ (e = None -> len (inputBuffer w') <= bufferThreshold).
Proof.
  unfold Write. destruct (negb (open w)).
  { intros H; injection H as <- _ <-. split; [reflexivity | discriminate]. }
  destruct (Write_loop (S (S (List.length b))) w b 0 0 _)
    as [[[w1 n1] e1]| |] eqn:Hloop; cbn [Go.bind]; try discriminate.
  apply Write_loop_keeps in Hloop.
  destruct e1 as [e1|].
  { intros H; injection H as <- _ <-. split; [exact Hloop | discriminate]. }
  destruct (len (inputBuffer w1) >? bufferThreshold) eqn:Hlen.
  - destruct (swapInOut w1) as [w2 e2] eqn:Hs.
    apply swapInOut_keeps in Hs. destruct Hs as (Ho2 & Hi2).
    destruct e2 as [e2|]; intros H; injection H as <- _ <-.
    + split; [congruence | discriminate].
    + split; [congruence|]. intros _. rewrite (Hi2 eq_refl).
      pose proof threshold_value as [HT _]. rewrite HT. cbv. discriminate.
  - intros H; injection H as <- _ <-. split; [exact Hloop|]. intros _.
    rewrite Z.gtb_ltb in Hlen. apply Z.ltb_ge in Hlen. exact Hlen.
Qed.

(** The Writer between two calls of an open producer. *)
Definition between_calls (w : Writer) : Prop :=
  open w = true /\ len (inputBuffer w) <= bufferThreshold.

Lemma run_op_between_calls w o w' :
  is_close o = false ->
  open w = true ->
  run_op w o = Returns (w', None) ->
  between_calls w'.
Proof.
  intros Ho Hopen. pose proof threshold_value as [HT _].
  destruct o as [n|b| |]; cbn [run_op]; try discriminate Ho.
  - unfold WriteHeader. rewrite Hopen. cbn [negb].
    destruct (Flush w) as [w1 [e|]] eqn:HF; [discriminate|].
    apply Flush_keeps in HF. destruct HF as (Ho1 & Hi1).
    intros H; injection H as <-. split.
    + change (open (set_chunkCount (set_name w1 n) 0)) with (open w1). congruence.
    + change (inputBuffer (set_chunkCount (set_name w1 n) 0)) with (inputBuffer w1).
      rewrite (Hi1 eq_refl), HT. cbv. discriminate.
  - destruct (Write w b) as [[[w1 n] e]| |] eqn:HW; cbn [Go.bind]; try discriminate.
    intros H; injection H as <- ->.
    apply Write_keeps in HW. destruct HW as (Ho1 & Hi1).
    split; [congruence | auto].
  - intros H; injection H as HF.
    apply Flush_keeps in HF. destruct HF as (Ho1 & Hi1).
    split; [congruence|]. rewrite (Hi1 eq_refl), HT. cbv. discriminate.
Qed.

(** X3: in every state of an open Writer between two calls, whatever
    the state of the tar writer and whether or not an error of the
    background write is latched: after WriteHeader, Write and Flush
    calls that all return nil, the Writer is still open and its input
    buffer holds at most bufferThreshold bytes. *)
Theorem buffer_bounded_between_calls (w0 : Writer) (ops : list op) (w : Writer) :
  between_calls w0 ->
  not_closing ops ->
  run_ops w0 ops = Returns (w, None) ->
  between_calls w.
Proof.
  revert w0. induction ops as [|o ops IH]; intros w0 H0 Hnc; cbn [run_ops].
  - intros H; injection H as <-. exact H0.
  - unfold not_closing in Hnc. cbn [forallb] in Hnc.
    apply andb_true_iff in Hnc. destruct Hnc as (Ho & Hnc).
    apply negb_true_iff in Ho.
    destruct (run_op w0 o) as [[w1 [e|]]| |] eqn:Hop; cbn [Go.bind];
      try discriminate.
    apply (IH w1); [|exact Hnc].
    apply (run_op_between_calls w0 o w1 Ho (proj1 H0) Hop).
Qed.

Lemma buffer_bounded_between_calls_witness :
  between_calls
    (set_outputError (set_inputBuffer NewWriter [x03; x04; x05])
       (Some ErrTarWriteTooLong)).
Proof.
  apply (buffer_bounded_between_calls
           (set_outputError (set_inputBuffer NewWriter [x03])
              (Some ErrTarWriteTooLong))
           [OpWrite [x04]; OpWrite [x05]]).
  - split; [reflexivity|]. vm_compute. discriminate.
  - reflexivity.
  - vm_compute. reflexivity.
Defined.

(** X4: Close ends the writer: after a Close that succeeded, WriteHeader,
    Write, Flush and Close all fail with "chunktar.Writer not open" and
    change nothing, the archive included. *)
Theorem closed_writer_refuses (ops : list op) :
  not_closing ops ->
  exists w,
    run_ops NewWriter (ops ++ [OpClose]) = Returns (w, None)
    /\ open w = false
    /\ forall o, run_op w o = Returns (w, Some ErrWriterNotOpen).
Proof.
  intros Hnc. rewrite run_ops_app.
  destruct (run_ops_effect ops NewWriter NewWriter_ready Hnc) as (w1 & Hrun1 & Hr1 & _).
  rewrite Hrun1. cbn [Go.bind fst snd run_ops].
  destruct (run_op_effect w1 OpClose Hr1) as (w2 & Hrun2 & _ & _ & _ & Hcl).
  destruct (Hcl eq_refl) as (Ho2 & _).
  rewrite Hrun2. cbn [Go.bind]. exists w2.
  split; [reflexivity|]. split; [exact Ho2|].
  intros o. apply run_op_closed. exact Ho2.
Qed.

Lemma closed_writer_refuses_witness :
  exists w,
    run_ops NewWriter ([OpWriteHeader "a"; OpWrite [x00]] ++ [OpClose])
    = Returns (w, None)
    /\ open w = false
    /\ forall o, run_op w o = Returns (w, Some ErrWriterNotOpen).
Proof. apply closed_writer_refuses. reflexivity. Defined.

Lemma Flush_twice w :
  ready0 w -> Flush (fst (Flush w)) = (fst (Flush w), None).
Proof.
  intros Hr.
  destruct (Flush_spec w Hr) as (_ & Hr1 & Hw1 & _ & Hi1 & _).
  destruct (Flush w) as [w1 e]. cbn [fst] in *.
  destruct Hr1 as (Ho & He & Hcl & Hm).
  unfold Flush. rewrite Ho, Hi1. cbn [negb].
  change (len (@nil byte) >? 0) with false. cbv iota.
  unfold Wait. rewrite Hw1, He.
  unfold Tar.Flush. rewrite (gtb_false _ _ Hm).
  destruct w1; reflexivity.
Qed.

(** X5: Flush is idempotent: a second Flush right after a Flush emits
    nothing and leaves the writer as it is. *)
Theorem Flush_idempotent (ops : list op) :
  not_closing ops ->
  run_ops NewWriter (ops ++ [OpFlush; OpFlush])
  = run_ops NewWriter (ops ++ [OpFlush]).
Proof.
  intros Hnc. rewrite !run_ops_app.
  destruct (run_ops_effect ops NewWriter NewWriter_ready Hnc) as (w1 & Hrun1 & Hr1 & _).
  rewrite Hrun1. cbn [Go.bind fst snd run_ops run_op].
  pose proof (Flush_twice w1 (proj1 Hr1)) as H2.
  destruct (Flush_spec w1 (proj1 Hr1)) as (Hs & _).
  destruct (Flush w1) as [w2 e]. cbn [fst snd] in *. subst e.
  rewrite H2. reflexivity.
Qed.

Lemma Flush_idempotent_witness :
  run_ops NewWriter ([OpWriteHeader "a"; OpWrite [x00]] ++ [OpFlush; OpFlush])
  = run_ops NewWriter ([OpWriteHeader "a"; OpWrite [x00]] ++ [OpFlush]).
Proof. apply Flush_idempotent. reflexivity. Defined.

Lemma chunks_nth n cs : forall k i e,
  nth_error (chunks n k cs) i = Some e ->
  Tar.Name (Tar.hdr e) = chunkName n (advance i k).
Proof.
  induction cs as [|c cs IH]; intros k i e H.
  - destruct i; discriminate.
  - destruct i as [|i]; simpl in H.
    + injection H as <-. reflexivity.
    + apply IH in H. exact H.
Qed.

Lemma advance_small i : forall k,
  0 <= k -> k + Z.of_nat i < uint64_modulus ->
  advance i k = k + Z.of_nat i.
Proof.
  induction i as [|i IH]; intros k Hk Hlt; simpl advance; [lia|].
  assert (Hw : uint64_wrap (k + 1) = k + 1)
    by (unfold uint64_wrap; apply Z.mod_small; lia).
  rewrite Hw, IH by lia. lia.
Qed.

(** X6: the entries of one logical file are numbered from 0 in the order
    they are written: in the archive of a producer with one WriteHeader,
    the i-th entry has the name `<name>.<i, twelve digits>`. *)
Theorem chunk_names_in_order
        (n : string) (ws : list (list byte)) (a : list Tar.Entry)
        (i : nat) (e : Tar.Entry) :
  written (produce [(n, ws)]) = Returns (a, None) ->
  nth_error a i = Some e ->
  Z.of_nat i < uint64_modulus ->
  Tar.Name (Tar.hdr e) = chunkName n (Z.of_nat i).
Proof.
  intros Hw Hnth Hi.
  destruct (written_produce [(n, ws)]) as (fcs & Hw' & Hall).
  rewrite Hw' in Hw. injection Hw as <-.
  inversion Hall as [|f fc fs fcs' (Hn & _) Hrest]; subst.
  inversion Hrest; subst.
  unfold archive_of in Hnth. simpl in Hnth. rewrite app_nil_r, Hn in Hnth.
  apply chunks_nth in Hnth. rewrite Hnth, advance_small by lia. reflexivity.
Qed.

Lemma chunk_names_in_order_witness :
  Tar.Name (Tar.hdr (chunk "db1/users.bson" 0 (bs "0123456789")))
  = chunkName "db1/users.bson" (Z.of_nat 0).
Proof.
  apply (chunk_names_in_order "db1/users.bson" [bs "0123456789"]
           [chunk "db1/users.bson" 0 (bs "0123456789")] 0).
  - vm_compute. reflexivity.
  - reflexivity.
  - reflexivity.
Defined.

(** X7: a failure of the background write is latched: while outputError
    is set, Flush and WriteHeader return it and change nothing, Close
    returns it and only marks the writer closed; a Write that stays
    below the threshold does not look at it and takes its bytes. *)
Theorem latched_error_surfaces (w : Writer) (e : error) :
  open w = true -> wait w = None -> outputError w = Some e ->
  Flush w = (w, Some e)
  /\ (forall n, WriteHeader w n = (w, Some e))
  /\ Close w = (set_open w false, Some e)
  /\ (forall b, len (inputBuffer w) + len b <= bufferThreshold ->
        Write w b
        = Returns (set_inputBuffer w (inputBuffer w ++ b), len b, None)).
Proof.
  intros Ho Hw He.
  assert (HF : Flush w = (w, Some e)).
  { unfold Flush, swapInOut, Wait. rewrite Ho. cbn [negb].
    destruct (len (inputBuffer w) >? 0); cbv beta iota zeta;
      rewrite Hw; cbv beta iota zeta; rewrite He; reflexivity. }
  split; [exact HF|]. split; [|split].
  - intros n. unfold WriteHeader. rewrite Ho, HF. reflexivity.
  - unfold Close. rewrite Ho, HF. reflexivity.
  - intros b Hfit. unfold Write. rewrite Ho. cbn [negb].
    pose proof threshold_value as [HT HL].
    pose proof (len_nonneg b) as Hb0. pose proof (len_nonneg (inputBuffer w)) as Hi0.
    rewrite Write_loop_S.
    destruct (0 <? len b) eqn:Hlt.
    + apply Z.ltb_lt in Hlt. change (0 >? 0) with false. cbv iota beta.
      rewrite MinInt_min. rewrite Z.min_l by lia.
      rewrite slice_ok by lia. cbn [Go.bind].
      replace (firstn (Z.to_nat (len b - 0)) (skipn (Z.to_nat 0) b)) with b.
      2:{ simpl skipn. unfold len. rewrite Z.sub_0_r, Nat2Z.id, firstn_all. reflexivity. }
      rewrite Write_loop_S. rewrite Z.ltb_irrefl. cbn [Go.bind].
      replace (inputBuffer (set_inputBuffer w (inputBuffer w ++ b)))
        with (inputBuffer w ++ b) by (destruct w; reflexivity).
      rewrite gtb_false by (rewrite len_app; lia). reflexivity.
    + apply Z.ltb_ge in Hlt. assert (Hb : b = []) by (apply len_nil_iff; lia).
      subst b. cbn [Go.bind]. rewrite app_nil_r, set_inputBuffer_same.
      rewrite gtb_false by lia. reflexivity.
Qed.

Lemma latched_error_surfaces_witness :
  Flush (set_outputError NewWriter (Some ErrTarWriteTooLong))
  = (set_outputError NewWriter (Some ErrTarWriteTooLong), Some ErrTarWriteTooLong)
  /\ (forall n, WriteHeader (set_outputError NewWriter (Some ErrTarWriteTooLong)) n
                = (set_outputError NewWriter (Some ErrTarWriteTooLong),
                   Some ErrTarWriteTooLong))
  /\ Close (set_outputError NewWriter (Some ErrTarWriteTooLong))
     = (set_open (set_outputError NewWriter (Some ErrTarWriteTooLong)) false,
        Some ErrTarWriteTooLong)
  /\ (forall b,
        len (inputBuffer (set_outputError NewWriter (Some ErrTarWriteTooLong)))
        + len b <= bufferThreshold ->
        Write (set_outputError NewWriter (Some ErrTarWriteTooLong)) b
        = Returns (set_inputBuffer (set_outputError NewWriter (Some ErrTarWriteTooLong))
                     (inputBuffer (set_outputError NewWriter (Some ErrTarWriteTooLong))
                      ++ b), len b, None)).
Proof. apply latched_error_surfaces; reflexivity. Defined.

End WriterExtras.

(* ================================================================== *)
(** * More on the Reader *)
(* ================================================================== *)

Module ReaderExtras.

Import Decimal ChunktarReader Client WriterFacts NameFacts ReaderFacts
       ReaderProperties.

(** ** Errors of nextChunk and Next *)

Lemma set_tarReader_same r : set_tarReader r (tarReader r) = r.
Proof. destruct r; reflexivity. Qed.

(** The errors nextChunk makes. *)
Definition chunk_error (e : error) : Prop :=
  match e with
  | io_EOF | ErrUnableToReadNext _ | ErrChunksOutOfOrder _ _ _
  | ErrMissingFirstChunk _ _ => True
  | _ => False
  end.

Lemma nextChunk_error r r' e :
  nextChunk r = (r', Some e) ->
  chunk_error e
  /\ nextName r' = nextName r
  /\ (e = io_EOF -> Tar.tr_err (tarReader r') = Some io_EOF).
Proof.
  unfold nextChunk, Tar.Next.
  destruct (Tar.tr_err (tarReader r)) as [e0|] eqn:He.
  { destruct e0; intros H; injection H as <- <-;
      (split; [exact I|]); (split; [destruct r; reflexivity|]);
      intros E; try discriminate E.
    rewrite set_tarReader_same. exact He. }
  destruct (Tar.tr_items (tarReader r)) as [|[x|msg] rest] eqn:Hi.
  - intros H; injection H as <- <-. split; [exact I|].
    split; [destruct r; reflexivity|]. reflexivity.
  - destruct (chunkFileNameRegex_FindStringSubmatch (Tar.Name (Tar.hdr x)))
      as [[name' digits]|] eqn:Hre.
    + destruct (regex_digits_parse _ _ _ Hre) as (k & Hk). rewrite Hk.
      cbn [set_tarReader name number].
      destruct (String.eqb name' (name r)).
      * destruct (negb _); [|discriminate].
        intros H; injection H as <- <-. split; [exact I|].
        split; [destruct r; reflexivity|]. discriminate.
      * destruct (negb _); [|discriminate].
        intros H; injection H as <- <-. split; [exact I|].
        split; [destruct r; reflexivity|]. discriminate.
    + discriminate.
  - intros H; injection H as <- <-. split; [exact I|].
    split; [destruct r; reflexivity|]. discriminate.
Qed.

(** An error of Next comes from the nextChunk of its last pass. *)
Lemma Next_loop_error fuel : forall r err r' n e,
  Next_loop fuel r err = Returns (r', n, Some e) ->
  n = EmptyString
  /\ nextName r' = EmptyString
  /\ ((err = Some e /\ r' = r) \/ exists r0, nextChunk r0 = (r', Some e)).
Proof.
  induction fuel as [|fuel IH]; intros r err r' n e; [discriminate|].
  cbn [Next_loop].
  destruct (String.eqb (nextName r) EmptyString) eqn:Hn; [|discriminate].
  apply String.eqb_eq in Hn.
  destruct err as [e0|].
  - intros H; injection H as <- <- <-. auto.
  - destruct (nextChunk r) as [r1 err1] eqn:Hnc. intros H.
    destruct (IH _ _ _ _ _ H) as (Hn' & Hnn & [[-> ->] | Hr0]).
    + split; [exact Hn'|]. split; [exact Hnn|]. right. exists r. exact Hnc.
    + auto.
Qed.

(** X8: the return "unable to parse chunk number" of nextChunk is dead
    code: what the pattern takes as the chunk number is twelve ASCII
    digits, which ParseUint always accepts; so neither nextChunk nor Next
    ever gives that error, whatever the archive holds. *)
Theorem parse_error_never_returned (r : Reader) (s : string) :
  snd (nextChunk r) <> Some (ErrParseChunkNumber s)
  /\ (forall r' n, Next r <> Returns (r', n, Some (ErrParseChunkNumber s))).
Proof.
  split.
  - destruct (nextChunk r) as [r' [e|]] eqn:H; [|discriminate].
    apply nextChunk_error in H. destruct H as (Hc & _).
    cbn [snd]. intros E. injection E as ->. exact Hc.
  - intros r' n H. unfold Next in H.
    apply Next_loop_error in H. destruct H as (_ & _ & [[E _] | (r0 & H)]).
    + discriminate.
    + apply nextChunk_error in H. destruct H as (Hc & _). exact Hc.
Qed.

(** X9: io.EOF from Next is final: Next gives io.EOF again and leaves
    the Reader as it is, and a Read into a buffer that is not empty gives
    no byte and io.EOF. *)
Theorem Next_EOF_is_final (r r' : Reader) (n : string) :
  Next r = Returns (r', n, Some io_EOF) ->
  n = EmptyString
  /\ Next r' = Returns (r', EmptyString, Some io_EOF)
  /\ forall lenb, 0 < lenb -> Read r' lenb = (r', [], Some io_EOF).
Proof.
  intros H. unfold Next in H. apply Next_loop_error in H.
  destruct H as (Hn & Hnn & [[E _] | (r0 & H)]); [discriminate|].
  apply nextChunk_error in H. destruct H as (_ & _ & Herr).
  specialize (Herr eq_refl).
  assert (Hnc : nextChunk r' = (r', Some io_EOF)).
  { unfold nextChunk, Tar.Next. rewrite Herr, set_tarReader_same. reflexivity. }
  split; [exact Hn|]. split.
  - unfold Next. cbn [plus Next_loop]. rewrite Hnn. cbn [String.eqb].
    rewrite Hnc. cbn [Next_loop]. rewrite Hnn. reflexivity.
  - intros lenb Hlen. unfold Read. rewrite Hnn. cbn [String.eqb negb orb].
    destruct (String.eqb (name r') EmptyString); [reflexivity|].
    assert (E : (lenb =? 0) = false) by (apply Z.eqb_neq; lia). rewrite E.
    unfold Tar.Read. rewrite Herr, set_tarReader_same, Hnc. reflexivity.
Qed.

Lemma Next_EOF_is_final_witness :
  EmptyString = EmptyString
  /\ Next (at_end false "db1/users.bson" 2)
     = Returns (at_end false "db1/users.bson" 2, EmptyString, Some io_EOF)
  /\ forall lenb, 0 < lenb ->
       Read (at_end false "db1/users.bson" 2) lenb
       = (at_end false "db1/users.bson" 2, [], Some io_EOF).
Proof.
  apply (Next_EOF_is_final
           (inside false "db1/users.bson" 2 [x00] [])
           (at_end false "db1/users.bson" 2) EmptyString).
  reflexivity.
Defined.

(** ** Next without Read *)

(** A consumer that lists the archive: Next until an error, io.EOF
    included, without a Read in between. *)
Fixpoint NextAll (fuel : nat) (r : Reader) : go (list string * error) :=
  match fuel with
  | O => OutOfFuel
  | S fuel' =>
      ('(r, fileName, err) <- Next r ;;
       match err with
       | Some e => Returns ([], e)
       | None =>
           ('(names, e) <- NextAll fuel' r ;;
            Returns (fileName :: names, e))
       end)%go
  end.

Lemma NextAll_S fuel r :
  NextAll (S fuel) r
  = Go.bind (Next r) (fun x =>
      let '(r, fileName, err) := x in
      match err with
      | Some e => Returns ([], e)
      | None =>
          Go.bind (NextAll fuel r) (fun y =>
            let '(names, e) := y in Returns (fileName :: names, e))
      end).
Proof. reflexivity. Qed.

(** Where Next gets to from inside the file [n]. *)
Definition after_skip (eager : bool) (n : string) (k : Z)
           (later : list (string * list (list byte)))
  : Reader * string * option error :=
  match later with
  | (n2, c2 :: cs2) :: later' =>
      (inside eager n2 0 c2 (map Tar.File (chunks n2 1 cs2 ++ archive_of later')),
       n2, None)
  | _ => (at_end eager n k, EmptyString, Some io_EOF)
  end.

Lemma Next_loop_skip eager n later :
  valid_name n -> wf_files n later ->
  forall cs fuel k unread,
    (2 + List.length cs <= fuel)%nat ->
    0 <= k -> k + Z.of_nat (List.length cs) < 10 ^ 12 ->
    Next_loop fuel
      (inside eager n k unread
         (map Tar.File (chunks n (k + 1) cs ++ archive_of later))) None
    = Returns (after_skip eager n (k + Z.of_nat (List.length cs)) later).
Proof.
  intros Hn Hwf. induction cs as [|c cs IH]; intros fuel k unread Hfuel Hk0 Hk1.
  - destruct fuel as [|[|fuel]]; [simpl in Hfuel; lia | simpl in Hfuel; lia |].
    simpl List.length. rewrite Z.add_0_r.
    cbn [Next_loop]. change (nextName (inside _ _ _ _ _)) with EmptyString.
    cbn [String.eqb chunks app].
    destruct (wf_files_cases _ _ Hwf)
      as [-> | (n2 & c2 & cs2 & later' & -> & Hv & Hd)].
    + reflexivity.
    + rewrite archive_of_cons. cbn [map].
      rewrite nextChunk_new by assumption.
      change (nextName (lookahead eager k n2 c2 _)) with n2.
      rewrite (valid_name_nonempty n2 Hv). reflexivity.
  - destruct fuel as [|fuel]; [simpl in Hfuel; lia|].
    simpl List.length in *.
    cbn [Next_loop]. change (nextName (inside _ _ _ _ _)) with EmptyString.
    cbn [String.eqb chunks app map].
    rewrite uint64_wrap_small by lia.
    rewrite nextChunk_continue by (auto; lia).
    rewrite IH by lia.
    replace (k + 1 + Z.of_nat (List.length cs))
      with (k + Z.of_nat (S (List.length cs))) by lia.
    reflexivity.
Qed.

Lemma length_chunks n cs : forall k, List.length (chunks n k cs) = List.length cs.
Proof. induction cs as [|c cs IH]; intros k; simpl; [|rewrite IH]; reflexivity. Qed.

Lemma Next_skip eager n later cs k unread :
  valid_name n -> wf_files n later ->
  0 <= k -> k + Z.of_nat (List.length cs) < 10 ^ 12 ->
  Next (inside eager n k unread
          (map Tar.File (chunks n (k + 1) cs ++ archive_of later)))
  = Returns (after_skip eager n (k + Z.of_nat (List.length cs)) later).
Proof.
  intros Hn Hwf Hk0 Hk1. unfold Next. apply Next_loop_skip; auto.
  cbn [inside tarReader Tar.tr_items].
  rewrite length_map, length_app, length_chunks. lia.
Qed.

Lemma NextAll_inside eager : forall later n cs k unread,
  valid_name n -> wf_files n later ->
  0 <= k -> k + Z.of_nat (List.length cs) < 10 ^ 12 ->
  NextAll (S (List.length later))
    (inside eager n k unread
       (map Tar.File (chunks n (k + 1) cs ++ archive_of later)))
  = Returns (map fst later, io_EOF).
Proof.
  induction later as [|[n2 cs2] later IH]; intros n cs k unread Hn Hwf Hk0 Hk1.
  - rewrite NextAll_S, Next_skip by assumption. reflexivity.
  - simpl List.length. rewrite NextAll_S.
    rewrite Next_skip by assumption.
    destruct Hwf as (Hd & (Hv & Hne & Hall & Hlen) & Hwf).
    cbn [fst snd] in Hd, Hv, Hne, Hall, Hlen, Hwf.
    destruct cs2 as [|c2 cs2]; [congruence|].
    cbn [after_skip Go.bind].
    change (chunks n2 1 cs2) with (chunks n2 (0 + 1) cs2).
    cbn [List.length] in Hlen.
    rewrite (IH n2 cs2 0 c2) by (auto; lia). reflexivity.
Qed.

(** X10: Next may be called without reading the current logical file to
    its end: it passes over the chunks that are left.  On the archive of
    well-formed logical files, Next after Next gives the names of the
    files, each once and in order, and then io.EOF. *)
Theorem Next_skips_unread
        (eager : bool) (fcs : list (string * list (list byte))) :
  wf_files EmptyString fcs ->
  NextAll (S (List.length fcs))
    (NewReader (Tar.NewReader eager (map Tar.File (archive_of fcs))))
  = Returns (map fst fcs, io_EOF).
Proof.
  intros Hwf. destruct fcs as [|[n cs] later]; [reflexivity|].
  destruct Hwf as (Hd & (Hv & Hne & Hall & Hlen) & Hwf).
  cbn [fst snd] in Hd, Hv, Hne, Hall, Hlen, Hwf.
  destruct cs as [|c cs]; [congruence|].
  simpl List.length. rewrite NextAll_S.
  rewrite archive_of_cons. cbn [map].
  rewrite Next_first by assumption. cbn [Go.bind].
  change (chunks n 1 cs) with (chunks n (0 + 1) cs).
  cbn [List.length] in Hlen.
  rewrite (NextAll_inside eager later n cs 0 c) by (auto; lia). reflexivity.
Qed.

Lemma Next_skips_unread_witness :
  NextAll 3
    (NewReader (Tar.NewReader false
       (map Tar.File (archive_of [("a"%string, [[x00]; [x01]]); ("b"%string, [[x02]])]))))
  = Returns (["a"; "b"]%string, io_EOF).
Proof.
  apply (Next_skips_unread false [("a"%string, [[x00]; [x01]]); ("b"%string, [[x02]])]).
  simpl. unfold wf_file, valid_name. simpl.
  repeat split; try discriminate; try lia;
    repeat constructor; discriminate.
Defined.

(** ** Archives that are not chunked *)

(** An entry of a plain tar archive: it has a name, and the name does
    not end in a dot and twelve digits. *)
Definition plain (e : Tar.Entry) : Prop :=
  Tar.Name (Tar.hdr e) <> EmptyString
  /\ chunkFileNameRegex_FindStringSubmatch (Tar.Name (Tar.hdr e)) = None.

Definition entry_file (e : Tar.Entry) : string * list byte :=
  (Tar.Name (Tar.hdr e), Tar.body e).

(** The Reader once the entry [n] is read to its end. *)
Definition plain_boundary (eager : bool) (n : string) (k : Z)
           (rest : list Tar.Entry) : Reader :=
  match rest with
  | [] => at_end eager n k
  | e :: rest' =>
      lookahead eager k (Tar.Name (Tar.hdr e)) (Tar.body e) (map Tar.File rest')
  end.

Lemma nextChunk_plain eager n k unread e rest :
  plain e ->
  nextChunk (inside eager n k unread (Tar.File e :: rest))
  = (lookahead eager k (Tar.Name (Tar.hdr e)) (Tar.body e) rest, None).
Proof.
  intros [_ Hre]. unfold nextChunk, inside.
  cbn [Tar.Next tarReader Tar.tr_err Tar.tr_items]. rewrite Hre. reflexivity.
Qed.

Lemma Read_named bufsz eager n k unread items :
  0 < bufsz -> n <> EmptyString ->
  Read (inside eager n k unread items) bufsz
  = let '(tr, data, err) :=
      Tar.Read (tarReader (inside eager n k unread items)) bufsz in
    let r := set_tarReader (inside eager n k unread items) tr in
    match err with
    | Some io_EOF =>
        match nextChunk r with
        | (r, Some err) => (r, data, Some err)
        | (r, None) =>
            if (len data =? 0) && String.eqb (nextName r) EmptyString then
              let '(tr, data, err) := Tar.Read (tarReader r) bufsz in
              (set_tarReader r tr, data, err)
            else (r, data, None)
        end
    | _ => (r, data, err)
    end.
Proof.
  intros Hb Hn. unfold Read.
  change (nextName (inside eager n k unread items)) with EmptyString.
  change (name (inside eager n k unread items)) with n.
  apply String.eqb_neq in Hn. rewrite Hn. cbn [String.eqb negb orb].
  assert (E : (bufsz =? 0) = false) by (apply Z.eqb_neq; lia).
  rewrite E. reflexivity.
Qed.

Lemma Read_ahead bufsz eager k n2 c2 items :
  n2 <> EmptyString ->
  Read (lookahead eager k n2 c2 items) bufsz
  = (lookahead eager k n2 c2 items, [], Some io_EOF).
Proof.
  intros Hn. unfold Read.
  change (nextName (lookahead eager k n2 c2 items)) with n2.
  apply String.eqb_neq in Hn. rewrite Hn. reflexivity.
Qed.

(** The Read that meets the end of the entry [n], and the one after it. *)
Lemma ReadAll_plain_last bufsz eager n k rest r data :
  Forall plain rest ->
  (match rest with
   | [] => Read r bufsz = (plain_boundary eager n k rest, data, Some io_EOF)
   | _ => Read r bufsz = (plain_boundary eager n k rest, data, None)
   end) ->
  forall fuel, (2 <= fuel)%nat ->
    ReadAll fuel r bufsz = Returns (plain_boundary eager n k rest, data, io_EOF).
Proof.
  intros Hall Hread fuel Hfuel.
  destruct fuel as [|[|fuel]]; [lia | lia |].
  rewrite ReadAll_S.
  destruct rest as [|e rest']; [rewrite Hread; reflexivity|].
  rewrite Hread, ReadAll_S. cbn [plain_boundary].
  inversion Hall as [|? ? [Hne _] _]; subst.
  rewrite Read_ahead by assumption. cbn [Go.bind].
  rewrite app_nil_r. reflexivity.
Qed.

Lemma ReadAll_plain bufsz eager n k rest :
  0 < bufsz -> n <> EmptyString -> Forall plain rest ->
  forall (N : nat) unread,
    (List.length unread < N)%nat ->
    forall fuel, (N + 2 <= fuel)%nat ->
      ReadAll fuel (inside eager n k unread (map Tar.File rest)) bufsz
      = Returns (plain_boundary eager n k rest, unread, io_EOF).
Proof.
  intros Hb Hn Hall. induction N as [|N IH]; intros unread HN fuel Hfuel; [lia|].
  destruct (Z_le_gt_dec (len unread) bufsz) as [Hle | Hgt].
  2:{ (* the entry holds more than the buffer *)
    destruct fuel as [|fuel]; [lia|].
    rewrite ReadAll_S, Read_named by assumption.
    unfold Tar.Read. cbn [inside tarReader Tar.tr_err Tar.tr_curr].
    pose proof (skipn_long bufsz Hb unread ltac:(lia)) as Hs.
    destruct unread as [|x u]; [unfold len in Hgt; simpl in Hgt; lia|].
    destruct (skipn (Z.to_nat bufsz) (x :: u)) as [|y v] eqn:E; [congruence|].
    cbv iota beta. cbn [Tar.tr_items Tar.tr_eager].
    rewrite set_tarReader_inside.
    rewrite (IH (y :: v)).
    - cbn [Go.bind]. rewrite <- E, firstn_skipn. reflexivity.
    - rewrite <- E, length_skipn. unfold len in Hgt. simpl List.length in *. lia.
    - lia. }
  destruct unread as [|x u].
  - (* nothing is left of the entry *)
    apply ReadAll_plain_last; [assumption | | lia].
    rewrite Read_named by assumption.
    cbn [inside tarReader]. rewrite Tar_Read_empty. cbv iota beta.
    rewrite set_tarReader_inside.
    destruct rest as [|e rest']; [reflexivity|].
    cbn [map]. inversion Hall as [|? ? He _]; subst.
    rewrite nextChunk_plain by assumption.
    change (nextName (lookahead _ _ ?m _ _)) with m.
    destruct He as [Hne _]. apply String.eqb_neq in Hne.
    rewrite Hne, andb_false_r. reflexivity.
  - (* the buffer takes the rest of the entry *)
    assert (Hne : x :: u <> []) by discriminate.
    destruct eager.
    + apply ReadAll_plain_last; [assumption | | lia].
      rewrite Read_named by assumption.
      cbn [inside tarReader]. rewrite Tar_Read_rest by assumption.
      cbv iota beta. rewrite set_tarReader_inside.
      destruct rest as [|e rest']; [reflexivity|].
      cbn [map]. inversion Hall as [|? ? He _]; subst.
      rewrite nextChunk_plain by assumption.
      rewrite (len_pos_of_nonempty _ Hne). reflexivity.
    + destruct fuel as [|fuel]; [lia|].
      rewrite ReadAll_S, Read_named by assumption.
      cbn [inside tarReader]. rewrite Tar_Read_rest by assumption.
      cbv iota beta. rewrite set_tarReader_inside.
      rewrite (IH []) by (simpl in HN |- *; lia).
      cbn [Go.bind]. rewrite app_nil_r. reflexivity.
Qed.

Fixpoint plain_fuel (a : list Tar.Entry) : nat :=
  match a with
  | [] => 1
  | e :: rest => S (Nat.max (List.length (Tar.body e) + 3) (plain_fuel rest))
  end.

Lemma ReadFiles_plain_from bufsz eager r e rest :
  0 < bufsz -> plain e -> Forall plain rest ->
  Next r = Returns (inside eager (Tar.Name (Tar.hdr e)) 0 (Tar.body e)
                      (map Tar.File rest),
                    Tar.Name (Tar.hdr e), None) ->
  (forall fuel, (plain_fuel rest <= fuel)%nat ->
     ReadFiles fuel (plain_boundary eager (Tar.Name (Tar.hdr e)) 0 rest) bufsz
     = Returns (map entry_file rest, None)) ->
  forall fuel, (plain_fuel (e :: rest) <= fuel)%nat ->
    ReadFiles fuel r bufsz = Returns (map entry_file (e :: rest), None).
Proof.
  intros Hb [Hne Hre] Hall HNext HB fuel Hfuel.
  cbn [plain_fuel] in Hfuel.
  destruct fuel as [|fuel]; [lia|].
  rewrite ReadFiles_S, HNext. cbn [Go.bind].
  rewrite (ReadAll_plain bufsz eager _ 0 rest Hb Hne Hall
             (S (List.length (Tar.body e))) (Tar.body e)) by lia.
  cbn [Go.bind]. rewrite HB by lia. reflexivity.
Qed.

Lemma ReadFiles_plain bufsz eager : forall rest n k,
  0 < bufsz -> Forall plain rest ->
  forall fuel, (plain_fuel rest <= fuel)%nat ->
    ReadFiles fuel (plain_boundary eager n k rest) bufsz
    = Returns (map entry_file rest, None).
Proof.
  induction rest as [|e rest IH]; intros n k Hb Hall fuel Hfuel.
  - destruct fuel as [|fuel]; [simpl in Hfuel; lia|].
    rewrite ReadFiles_S. cbn [plain_boundary]. rewrite Next_at_end. reflexivity.
  - inversion Hall as [|? ? He Hrest]; subst.
    apply (ReadFiles_plain_from bufsz eager _ e rest); auto.
    cbn [plain_boundary]. rewrite Next_promote.
    + reflexivity.
    + apply He.
Qed.

(** X11: a tar archive that was not written in chunks is read as it
    is: when no entry name is empty or ends in a dot and twelve digits,
    the Reader gives every entry as one logical file with the entry's
    name and bytes, in the order of the archive, whatever the size of
    the read buffer and also for empty entries and repeated names. *)
Theorem plain_tar_read_back
        (eager : bool) (a : list Tar.Entry) (bufsz : Z) :
  0 < bufsz -> Forall plain a ->
  forall fuel, (plain_fuel a <= fuel)%nat ->
    read_back fuel eager a bufsz = Returns (map entry_file a, None).
Proof.
  intros Hb Hall fuel Hfuel. unfold read_back.
  destruct a as [|e rest].
  - destruct fuel as [|fuel]; [simpl in Hfuel; lia|]. reflexivity.
  - inversion Hall as [|? ? He Hrest]; subst.
    apply (ReadFiles_plain_from bufsz eager _ e rest); auto.
    + destruct He as [Hne Hre].
      unfold Next. cbn [plus Next_loop].
      change (nextName (NewReader _)) with EmptyString. cbn [String.eqb].
      unfold nextChunk, NewReader, Tar.NewReader.
      cbn [map Tar.Next tarReader Tar.tr_err Tar.tr_items]. rewrite Hre.
      cbn [set_tarReader set_nextName set_name nextName tarReader name number].
      apply String.eqb_neq in Hne. rewrite Hne. reflexivity.
    + intros fuel' Hfuel'. apply ReadFiles_plain; assumption.
Qed.

Lemma plain_tar_read_back_witness :
  read_back 6 true
    [Tar.mkEntry (Tar.mkHeader "a.bson" 420 2) [x00; x01];
     Tar.mkEntry (Tar.mkHeader "a.bson" 420 0) []] 1
  = Returns ([("a.bson"%string, [x00; x01]); ("a.bson"%string, [])], None).
Proof.
  apply (plain_tar_read_back true
           [Tar.mkEntry (Tar.mkHeader "a.bson" 420 2) [x00; x01];
            Tar.mkEntry (Tar.mkHeader "a.bson" 420 0) []] 1).
  - lia.
  - repeat constructor; discriminate.
  - simpl. lia.
Defined.

End ReaderExtras.

(* ================================================================== *)
(** * More on the tar restore driver: every archive *)
(* ================================================================== *)

Module DriverExtras.

Import Mongorestore DriverProperties.
Local Open Scope string_scope.

(** ** What the transitions do *)

(** Calls of RestoreCollectionIndexes, all for the same intent. *)
Definition index_calls (intent : option Intent) (cs : list Call) : Prop :=
  Forall (fun c => exists ixs, c = CallRestoreCollectionIndexes intent ixs) cs.

(** What neither ChangeCollection nor ChangeDatabase touches. *)
Definition same_mode (s s' : TarRestoreState) : Prop :=
  SingleDb s' = SingleDb s
  /\ SingleCollection s' = SingleCollection s
  /\ Intent_ s' = Intent_ s.

Lemma ChangeCollection_effect restore state calls c run' err :
  ChangeCollection restore (state, calls) c = Returns (run', err) ->
  exists idx,
    snd run' = (calls ++ idx)%list
    /\ index_calls (Intent_ state) idx
    /\ same_mode state (fst run')
    /\ CurrentDb (fst run') = CurrentDb state
    /\ CurrentCollection (fst run') = c.
Proof.
  unfold ChangeCollection, same_mode, index_calls. cbn.
  destruct (RestoredMetadata state).
  - exists [CallRestoreCollectionIndexes (Intent_ state) (MetadataIndexes state)].
    destruct (RestoreCollectionIndexes restore _ _);
      injection H as <- <-; cbn; repeat split; auto;
      repeat constructor; eexists; reflexivity.
  - destruct (SystemIndexes state) as [m|].
    + destruct (Intent_ state) as [i|] eqn:Hi; [|discriminate].
      destruct (lookup m (C i)) as [ixs|].
      * exists [CallRestoreCollectionIndexes (Some i) ixs].
        destruct (RestoreCollectionIndexes restore _ _);
          injection H as <- <-; cbn; repeat split; auto;
          repeat constructor; eexists; reflexivity.
      * exists []. injection H as <- <-; cbn. rewrite app_nil_r.
        repeat split; auto.
    + exists []. injection H as <- <-; cbn. rewrite app_nil_r.
      repeat split; auto.
Qed.

Lemma ChangeDatabase_effect restore state calls db run' err :
  ChangeDatabase restore (state, calls) db = Returns (run', err) ->
  exists idx,
    snd run' = (calls ++ idx)%list
    /\ index_calls (Intent_ state) idx
    /\ same_mode state (fst run')
    /\ CurrentDb (fst run') = db
    /\ CurrentCollection (fst run') = "".
Proof.
  unfold ChangeDatabase. intros H.
  apply ChangeCollection_effect in H. exact H.
Qed.

(** ** What one pass of the loop does *)

Definition file_db (fileName : string) : string :=
  fst (fst (GetInfoFromTarHeaderName fileName)).
Definition file_collection (fileName : string) : string :=
  snd (fst (GetInfoFromTarHeaderName fileName)).
Definition file_type (fileName : string) : FileType :=
  snd (GetInfoFromTarHeaderName fileName).

(** The calls a pass makes for the file at hand, [created] being the
    intent that CreateIntentForFile gave for it. *)
Definition new_call_ok (restore : MongoRestore) (collection : string)
           (created : Intent) (c : Call) : Prop :=
  match c with
  | CallRestoreBeginCollection i | CallRestoreCollectionMetadata i _ =>
      i = created /\ prefix "system." collection = false
  | CallRestoreCollectionBSON i =>
      i = created
      /\ (String.eqb collection "system.indexes"
          && negb (OutputOptions_NoIndexRestore restore)) = false
  | CallIndexesFromBSONReader c' =>
      c' = ToolOptions_Collection restore
      /\ collection = "system.indexes"
      /\ OutputOptions_NoIndexRestore restore = false
  | CallRestoreCollectionIndexes _ _ => False
  end.

(** A pass of the loop: the calls it adds are index calls for the intent
    of the file before, then calls for the file at hand; the two modes
    stay; in single-database mode the database stays. *)
Definition pass_effect (restore : MongoRestore) (run : Run)
           (db collection : string) (fileType : FileType) (run' : Run) : Prop :=
  exists idx new,
    snd run' = (snd run ++ idx ++ new)%list
    /\ index_calls (Intent_ (fst run)) idx
    /\ SingleDb (fst run') = SingleDb (fst run)
    /\ SingleCollection (fst run') = SingleCollection (fst run)
    /\ (SingleDb (fst run) = true -> CurrentDb (fst run') = CurrentDb (fst run))
    /\ (SingleDb (fst run) = true ->
        CurrentCollection (fst run') = CurrentCollection (fst run)
        \/ (CurrentCollection (fst run') = collection
            /\ (SingleCollection (fst run) = true ->
                prefix "system." collection = true)))
    /\ ((new = [] /\ Intent_ (fst run') = Intent_ (fst run))
        \/ (exists uses created uses',
              CreateIntentForFile restore db collection fileType uses
              = (created, uses')
              /\ Intent_ (fst run') = created
              /\ (SingleDb (fst run) = true -> db = CurrentDb (fst run))
              /\ (SingleDb (fst run) = true -> SingleCollection (fst run) = true ->
                  collection = CurrentCollection (fst run)
                  \/ prefix "system." collection = true)
              /\ match created with
                 | None => new = []
                 | Some i => Forall (new_call_ok restore collection i) new
                 end)).

Lemma pass_skip restore run db collection fileType :
  pass_effect restore run db collection fileType run.
Proof.
  exists [], []. rewrite !app_nil_r.
  repeat split; auto; constructor.
Qed.

(** The facts that the two transitions of a pass establish. *)
Definition transitions_done (state : TarRestoreState) (db collection : string)
           (state2 : TarRestoreState) (idx : list Call) : Prop :=
  index_calls (Intent_ state) idx
  /\ same_mode state state2
  /\ (SingleDb state = true ->
      CurrentDb state2 = CurrentDb state /\ db = CurrentDb state)
  /\ (SingleDb state = true ->
      CurrentCollection state2 = CurrentCollection state
      \/ (CurrentCollection state2 = collection
          /\ (SingleCollection state = true ->
              prefix "system." collection = true))).

(** The file at hand passed the tests of the two modes. *)
Definition selected (state : TarRestoreState) (collection : string) : Prop :=
  SingleDb state = true -> SingleCollection state = true ->
  collection = CurrentCollection state \/ prefix "system." collection = true.

(** What the updates after the transitions leave alone. *)
Definition same_place (s s' : TarRestoreState) : Prop :=
  SingleDb s' = SingleDb s
  /\ SingleCollection s' = SingleCollection s
  /\ CurrentDb s' = CurrentDb s
  /\ CurrentCollection s' = CurrentCollection s.

Lemma pass_idle restore state calls db collection fileType state2 idx :
  transitions_done state db collection state2 idx ->
  pass_effect restore (state, calls) db collection fileType
    (state2, (calls ++ idx)%list).
Proof.
  intros (Hix & (Hsd & Hsc & Hi) & Hdb & Hcc).
  exists idx, []. cbn [fst snd]. rewrite app_nil_r.
  split; [reflexivity|]. split; [exact Hix|].
  split; [exact Hsd|]. split; [exact Hsc|].
  split; [intros Hs; apply (Hdb Hs)|].
  split; [exact Hcc|]. left. auto.
Qed.

Lemma pass_done restore state calls db collection fileType state2 idx
      state3 new uses created uses' :
  transitions_done state db collection state2 idx ->
  selected state collection ->
  same_place state2 state3 ->
  Intent_ state3 = created ->
  CreateIntentForFile restore db collection fileType uses = (created, uses') ->
  match created with
  | None => new = []
  | Some i => Forall (new_call_ok restore collection i) new
  end ->
  pass_effect restore (state, calls) db collection fileType
    (state3, ((calls ++ idx) ++ new)%list).
Proof.
  intros (Hix & (Hsd & Hsc & Hi) & Hdb & Hcc) Hsel (Psd & Psc & Pdb & Pcc)
         Hint Hcreate Hnew.
  exists idx, new. cbn [fst snd]. rewrite <- app_assoc.
  split; [reflexivity|]. split; [exact Hix|].
  split; [congruence|]. split; [congruence|].
  split; [intros Hs; rewrite Pdb; apply (Hdb Hs)|].
  split; [rewrite Pcc; exact Hcc|].
  right. exists uses, created, uses'.
  split; [exact Hcreate|]. split; [exact Hint|].
  split; [intros Hs; apply (Hdb Hs)|].
  split; [exact Hsel | exact Hnew].
Qed.

Lemma body_effect restore run fileName content res :
  RestoreTarDump_body restore run fileName content = Returns res ->
  pass_effect restore run (file_db fileName) (file_collection fileName)
    (file_type fileName) (run_of res).
Proof.
  unfold RestoreTarDump_body, file_db, file_collection, file_type.
  destruct (GetInfoFromTarHeaderName fileName) as [[db collection] fileType].
  cbn [fst snd].
  destruct (FileType_eqb fileType UnknownFileType);
    [intros H; injection H as <-; apply pass_skip|].
  destruct (ValidateDBName restore db);
    [intros H; injection H as <-; apply pass_skip|].
  destruct (ValidateCollectionGrammar restore collection);
    [intros H; injection H as <-; apply pass_skip|].
  destruct run as [state calls]. cbn [fst snd].
  destruct (negb (String.eqb db (CurrentDb state)) && SingleDb state) eqn:Hskip;
    [intros H; injection H as <-; apply pass_skip|].
  (* the database transition *)
  match goal with |- context [Go.bind ?m _] =>
    assert (H1 : forall r, m = Returns r ->
      exists idx1,
        snd (fst r) = (calls ++ idx1)%list
        /\ index_calls (Intent_ state) idx1
        /\ same_mode state (fst (fst r))
        /\ (SingleDb state = true ->
            CurrentDb (fst (fst r)) = CurrentDb state
            /\ CurrentCollection (fst (fst r)) = CurrentCollection state
            /\ db = CurrentDb state))
  end.
  { intros [run1 e1]. destruct (negb (String.eqb db (CurrentDb state))) eqn:Hd.
    - intros H. apply ChangeDatabase_effect in H.
      destruct H as (idx1 & Hc & Hix & Hm & _). exists idx1.
      split; [exact Hc|]. split; [exact Hix|]. split; [exact Hm|].
      intros Hs. rewrite Hs in Hskip. discriminate.
    - intros H; injection H as <- <-. exists []. cbn. rewrite app_nil_r.
      apply negb_false_iff, String.eqb_eq in Hd.
      repeat split; auto. constructor. }
  match goal with |- context [Go.bind ?m _] =>
    destruct m as [[run1 e1]| |]; [|discriminate|discriminate]
  end.
  destruct (H1 _ eq_refl) as (idx1 & Hc1 & Hix1 & (Hsd1 & Hsc1 & Hi1) & Hdb1).
  clear H1. cbn [fst snd] in *. cbn [Go.bind].
  destruct run1 as [state1 calls1]. cbn [fst snd] in *. subst calls1.
  destruct (negb (String.eqb collection (CurrentCollection state1))
            && (SingleCollection state1 && negb (prefix "system." collection)))
    eqn:Hskip2.
  { intros H; injection H as <-. apply pass_idle.
    split; [exact Hix1|]. split; [split; [|split]; assumption|].
    split; [intros Hs; destruct (Hdb1 Hs) as (? & _ & ?); auto|].
    intros Hs; destruct (Hdb1 Hs) as (_ & ? & _); auto. }
  assert (Hsel : selected state collection).
  { intros Hs Hc. destruct (Hdb1 Hs) as (_ & Hcc & _).
    rewrite Hsc1, Hc, Hcc in Hskip2.
    destruct (String.eqb collection (CurrentCollection state)) eqn:E;
      [apply String.eqb_eq in E; auto|].
    destruct (prefix "system." collection); [auto | discriminate]. }
  (* the collection transition *)
  match goal with |- context [Go.bind ?m _] =>
    assert (H2 : forall r, m = Returns r ->
      exists idx,
        snd (fst r) = (calls ++ idx)%list
        /\ transitions_done state db collection (fst (fst r)) idx)
  end.
  { intros [run2 e2].
    destruct (negb (String.eqb collection (CurrentCollection state1))) eqn:Hd.
    - intros H. apply ChangeCollection_effect in H.
      destruct H as (idx2 & Hc & Hix & (Hsd2 & Hsc2 & Hi2) & Hdb2 & Hcc2).
      exists (idx1 ++ idx2)%list. cbn [fst snd]. rewrite Hc, app_assoc.
      split; [reflexivity|].
      split; [apply Forall_app; split; [exact Hix1 | rewrite <- Hi1; exact Hix]|].
      split; [split; [|split]; congruence|].
      split; [intros Hs; destruct (Hdb1 Hs) as (? & _ & ?); split; congruence|].
      intros Hs. right. split; [exact Hcc2|].
      intros Hcs. rewrite Hsc1, Hcs in Hskip2. cbn [andb] in Hskip2.
      apply negb_false_iff in Hskip2. exact Hskip2.
    - intros H; injection H as <- <-. exists idx1. cbn [fst snd].
      split; [reflexivity|]. split; [exact Hix1|].
      split; [split; [|split]; assumption|].
      split; [intros Hs; destruct (Hdb1 Hs) as (? & _ & ?); auto|].
      intros Hs; destruct (Hdb1 Hs) as (_ & ? & _); auto. }
  match goal with |- context [Go.bind ?m _] =>
    destruct m as [[[state2 calls2] e2]| |]; [|discriminate|discriminate]
  end.
  destruct (H2 _ eq_refl) as (idx & Hc2 & Htr). clear H2.
  cbn [fst snd] in *. cbn [Go.bind]. subst calls2.
  destruct (RestoredBSON state2 && FileType_eqb fileType MetadataFileType);
    [intros H; injection H as <-; apply pass_idle; exact Htr|].
  destruct (CreateIntentForFile restore db collection fileType
              (UsesMetadataFiles state2)) as [[intent|] uses] eqn:Hcreate.
  2:{ intros H; injection H as <-. cbn [run_of].
      rewrite <- (app_nil_r (calls ++ idx)).
      eapply pass_done; eauto; repeat split. }
  assert (Hfin : forall state3 new,
            same_place state2 state3 -> Intent_ state3 = Some intent ->
            Forall (new_call_ok restore collection intent) new ->
            pass_effect restore (state, calls) db collection fileType
              (state3, ((calls ++ idx) ++ new)%list)).
  { intros state3 new Hp Hi Hn. eapply pass_done; eauto. }
  assert (Hfin0 : forall state3,
            same_place state2 state3 -> Intent_ state3 = Some intent ->
            pass_effect restore (state, calls) db collection fileType
              (state3, (calls ++ idx)%list)).
  { intros state3 Hp Hi. rewrite <- (app_nil_r (calls ++ idx)).
    apply Hfin; auto. }
  clear Htr Hcreate.
  destruct (prefix "system." collection) eqn:Hsys;
    destruct (String.eqb collection "system.indexes") eqn:Hsi;
    destruct (OutputOptions_NoIndexRestore restore) eqn:Hni;
    destruct (FileType_eqb fileType MetadataFileType);
    destruct (FileType_eqb fileType BSONFileType);
    cbn [negb andb];
    rewrite ?andb_false_r, ?andb_true_r; cbn [negb andb].
  all: try apply String.eqb_eq in Hsi.
  all: try (subst collection; vm_compute in Hsys; discriminate Hsys).
  all: repeat match goal with
       | |- context [RestoreBeginCollection ?r ?i] =>
           destruct (RestoreBeginCollection r i) as [ex [e|]]
       | |- context [RestoreCollectionMetadata ?r ?i ?c ?b] =>
           destruct (RestoreCollectionMetadata r i c b) as [ix [e'|]]
       | |- context [IndexesFromBSONReader ?r ?c ?d] =>
           destruct (IndexesFromBSONReader r c d) as [m e'']
       | |- context [if ?b then _ else _] => destruct b
       end.
  all: intros H; injection H as <-; cbn [run_of].
  all: rewrite <- ?(app_assoc (calls ++ idx)); cbn [app].
  all: first
    [ apply Hfin0; repeat split
    | apply Hfin; [repeat split | reflexivity |];
      repeat constructor; cbn [new_call_ok]; rewrite ?Hsi, ?Hni; auto ].
Qed.


(** ** Invariants of the loop, by the passes *)

Lemma loop_invariant restore (I : Run -> Prop) :
  (forall run fileName content res,
     I run -> RestoreTarDump_body restore run fileName content = Returns res ->
     I (run_of res)) ->
  (forall run run' err,
     I run -> ChangeCollection restore run "" = Returns (run', err) -> I run') ->
  forall files last run run' err,
    I run ->
    RestoreTarDump_loop restore files last run = Returns (run', err) ->
    I run'.
Proof.
  intros Hbody Hlast.
  induction files as [|[fileName content] files IH]; intros last run run' err Hi;
    cbn [RestoreTarDump_loop].
  - destruct last as [e|].
    + intros H; injection H as <- <-. exact Hi.
    + apply Hlast. exact Hi.
  - destruct (RestoreTarDump_body restore run fileName content) as [res| |] eqn:Hb;
      [|discriminate|discriminate].
    pose proof (Hbody _ _ _ _ Hi Hb) as Hi'. cbn [Go.bind].
    destruct res as [run1 | [run1 e1]]; cbn [run_of] in Hi'.
    + apply IH. exact Hi'.
    + intros H; injection H as <- <-. exact Hi'.
Qed.

Lemma loop_invariant_post restore (I Q : Run -> Prop) :
  (forall run fileName content res,
     I run -> RestoreTarDump_body restore run fileName content = Returns res ->
     I (run_of res)) ->
  (forall run, I run -> Q run) ->
  (forall run run' err,
     I run -> ChangeCollection restore run "" = Returns (run', err) -> Q run') ->
  forall files last run run' err,
    I run ->
    RestoreTarDump_loop restore files last run = Returns (run', err) ->
    Q run'.
Proof.
  intros Hbody Hweak Hlast.
  induction files as [|[fileName content] files IH]; intros last run run' err Hi;
    cbn [RestoreTarDump_loop].
  - destruct last as [e|].
    + intros H; injection H as <- <-. apply Hweak. exact Hi.
    + apply Hlast. exact Hi.
  - destruct (RestoreTarDump_body restore run fileName content) as [res| |] eqn:Hb;
      [|discriminate|discriminate].
    pose proof (Hbody _ _ _ _ Hi Hb) as Hi'. cbn [Go.bind].
    destruct res as [run1 | [run1 e1]]; cbn [run_of] in Hi'.
    + apply IH. exact Hi'.
    + intros H; injection H as <- <-. apply Hweak. exact Hi'.
Qed.

(** CreateIntentForFile gives an intent for the database and the
    collection it is asked for. *)
Definition faithful (restore : MongoRestore) : Prop :=
  forall db c ft uses i u,
    CreateIntentForFile restore db c ft uses = (Some i, u) ->
    DB i = db /\ C i = c.

(** A property of calls that holds of every index call and of every
    call a pass makes for its file holds of the whole trace. *)
Lemma trace_property restore (P : Call -> Prop) :
  (forall oi ixs, P (CallRestoreCollectionIndexes oi ixs)) ->
  (forall db collection ft uses i u c,
     CreateIntentForFile restore db collection ft uses = (Some i, u) ->
     new_call_ok restore collection i c -> P c) ->
  forall files last run run' err,
    Forall P (snd run) ->
    RestoreTarDump_loop restore files last run = Returns (run', err) ->
    Forall P (snd run').
Proof.
  intros Hidx Hnew.
  assert (Hix : forall oi idx, index_calls oi idx -> Forall P idx).
  { intros oi idx H. eapply Forall_impl; [|exact H].
    cbn. intros c (ixs & ->). apply Hidx. }
  apply (loop_invariant restore (fun run => Forall P (snd run))).
  - intros run fileName content res Hp Hb.
    apply body_effect in Hb.
    destruct Hb as (idx & new & -> & Hi & _ & _ & _ & _ & Hcase).
    apply Forall_app. split; [exact Hp|].
    apply Forall_app. split; [eapply Hix; exact Hi|].
    destruct Hcase as [[-> _] | (uses & created & uses' & Hc & _ & _ & _ & Hn)];
      [constructor|].
    destruct created as [i|]; [|subst new; constructor].
    eapply Forall_impl; [|exact Hn]. intros c. apply (Hnew _ _ _ _ _ _ _ Hc).
  - intros [state calls] run' err Hp H.
    apply ChangeCollection_effect in H.
    destruct H as (idx & -> & Hi & _).
    apply Forall_app. split; [exact Hp|]. eapply Hix; exact Hi.
Qed.

(** ** RestoredBSON *)

(** X12: no statement of RestoreTarDump sets RestoredBSON: the flag is
    false in the state that every archive and every collaborator lead
    to, so the test "it is too late to restore metadata" never skips a file. *)
Theorem RestoredBSON_is_never_set
        (restore : MongoRestore) (files : list (string * list byte))
        (last : option error) :
  match RestoreTarDump restore files last with
  | Returns (run, _) => RestoredBSON (fst run) = false
  | _ => True
  end.
Proof.
  destruct (RestoreTarDump restore files last) as [[run err]| |] eqn:H; auto.
  unfold RestoreTarDump in H.
  apply (RestoredBSON_false_at_end restore files last
           (NewTarRestoreState restore, []) run err); [reflexivity | exact H].
Qed.

(** ** Panics *)

(** X13: when CreateIntentForFile never gives nil, RestoreTarDump
    returns on every archive, with every collaborator and whatever error
    Next ends with: the nil dereference in ChangeCollection is not
    reached, since an intent is in the state whenever there are indexes
    to restore. *)
Theorem RestoreTarDump_does_not_panic
        (restore : MongoRestore) (files : list (string * list byte))
        (last : option error) :
  never_nil restore ->
  exists run err,
    RestoreTarDump restore files last = Returns (run, err)
    /\ intent_invariant (fst run).
Proof.
  intros Hnn. unfold RestoreTarDump.
  assert (Hinv : intent_invariant (fst (NewTarRestoreState restore, @nil Call)))
    by (intros _; split; reflexivity).
  revert Hinv. generalize (NewTarRestoreState restore, @nil Call).
  induction files as [|[fileName content] files IH]; intros run Hinv;
    cbn [RestoreTarDump_loop].
  - destruct last as [e|]; [exists run, (Some e); auto|].
    apply ChangeCollection_returns. exact Hinv.
  - destruct (RestoreTarDump_body_returns restore run fileName content Hnn Hinv)
      as (res & -> & Hinv'). cbn [Go.bind].
    destruct res as [run1 | [run1 e1]]; cbn [run_of] in Hinv';
      [apply IH; exact Hinv'|].
    exists run1, (Some e1). auto.
Qed.

Lemma RestoreTarDump_does_not_panic_witness :
  exists run err,
    RestoreTarDump sound
      [("db1/system.indexes.bson", []); ("db1/users.bson", [])] None
    = Returns (run, err)
    /\ intent_invariant (fst run).
Proof.
  apply RestoreTarDump_does_not_panic.
  intros db c ft uses. cbn. discriminate.
Defined.

(** ** Files that are passed over *)

(** The files a pass leaves at once: unknown type, or a database or
    collection name that is not valid. *)
Definition passed_over (restore : MongoRestore) (fileName : string) : bool :=
  let '(db, collection, fileType) := GetInfoFromTarHeaderName fileName in
  FileType_eqb fileType UnknownFileType
  || match ValidateDBName restore db with Some _ => true | None => false end
  || match ValidateCollectionGrammar restore collection with
     | Some _ => true
     | None => false
     end.

Lemma body_passed_over restore run fileName content :
  passed_over restore fileName = true ->
  RestoreTarDump_body restore run fileName content = Returns (inl run).
Proof.
  unfold passed_over, RestoreTarDump_body.
  destruct (GetInfoFromTarHeaderName fileName) as [[db collection] fileType].
  destruct (FileType_eqb fileType UnknownFileType); [reflexivity|].
  destruct (ValidateDBName restore db); [reflexivity|].
  destruct (ValidateCollectionGrammar restore collection); [reflexivity|].
  discriminate.
Qed.

(** X14: a file of unknown type, or with a database or collection name
    that does not validate, leaves no trace: the restore of an archive
    is the restore of the archive without these files, in state, calls
    and error. *)
Theorem passed_over_files_leave_no_trace
        (restore : MongoRestore) (files : list (string * list byte))
        (last : option error) :
  RestoreTarDump restore files last
  = RestoreTarDump restore
      (filter (fun f => negb (passed_over restore (fst f))) files) last.
Proof.
  unfold RestoreTarDump. generalize (NewTarRestoreState restore, @nil Call).
  induction files as [|[fileName content] files IH]; intros run; [reflexivity|].
  cbn [filter fst].
  destruct (passed_over restore fileName) eqn:Hp; cbn [negb].
  - cbn [RestoreTarDump_loop]. rewrite body_passed_over by assumption.
    cbn [Go.bind]. apply IH.
  - cbn [RestoreTarDump_loop].
    destruct (RestoreTarDump_body restore run fileName content)
      as [[run1 | [run1 e1]]| |]; cbn [Go.bind]; auto.
Qed.

(** ** What the calls are made for *)

(** The intent a call is made for. *)
Definition call_intent (c : Call) : option Intent :=
  match c with
  | CallRestoreBeginCollection i => Some i
  | CallRestoreCollectionMetadata i _ => Some i
  | CallRestoreCollectionBSON i => Some i
  | CallIndexesFromBSONReader _ => None
  | CallRestoreCollectionIndexes oi _ => oi
  end.

Lemma new_call_intent restore collection created c i :
  new_call_ok restore collection created c ->
  call_intent c = Some i -> i = created.
Proof.
  destruct c; cbn; try (intros [-> _] H; injection H as <-; reflexivity).
  - discriminate.
  - contradiction.
Qed.

(** The calls of a run. *)
Definition calls_of (r : go (Run * option error)) : list Call :=
  match r with
  | Returns (run, _) => snd run
  | _ => []
  end.

(** A call that is made for an intent is made for an intent of [db]. *)
Definition for_database (db : string) (c : Call) : Prop :=
  forall i, call_intent c = Some i -> DB i = db.

(** X15: with --db, every call that RestoreTarDump makes for an intent
    is for an intent of that database: the files of other databases in
    the archive are passed over, and the collection transitions restore
    indexes of that database only. *)
Theorem single_db_restores_that_db
        (restore : MongoRestore) (files : list (string * list byte))
        (last : option error) :
  faithful restore ->
  ToolOptions_DB restore <> "" ->
  Forall (for_database (ToolOptions_DB restore))
    (calls_of (RestoreTarDump restore files last)).
Proof.
  intros Hf Hdb.
  destruct (RestoreTarDump restore files last) as [[run err]| |] eqn:H;
    cbn [calls_of]; try constructor.
  set (T := ToolOptions_DB restore) in *.
  set (I := fun run : Run =>
         SingleDb (fst run) = true
         /\ CurrentDb (fst run) = T
         /\ (forall i, Intent_ (fst run) = Some i -> DB i = T)
         /\ Forall (for_database T) (snd run)).
  assert (HI : I run).
  { unfold RestoreTarDump in H. revert H.
    apply (loop_invariant restore I).
    - intros run0 fileName content res (Hs & Hc & Hi & Hall) Hb.
      apply body_effect in Hb.
      destruct Hb as (idx & new & Hcalls & Hix & Hsd & _ & Hcd & _ & Hcase).
      assert (Hidx : Forall (for_database T) idx).
      { eapply Forall_impl; [|exact Hix]. cbn. intros c0 (ixs & ->) i0. cbn. apply Hi. }
      unfold I. rewrite Hsd, (Hcd Hs), Hcalls.
      split; [exact Hs|]. split; [exact Hc|].
      destruct Hcase as [[-> Hsame] | (uses & created & uses' & Hcr & Hint & Hd & _ & Hn)].
      + rewrite Hsame. split; [exact Hi|].
        rewrite app_nil_r. apply Forall_app. auto.
      + assert (Hcreated : forall i0, created = Some i0 -> DB i0 = T).
        { intros i0 ->. destruct (Hf _ _ _ _ _ _ Hcr) as [-> _].
          rewrite (Hd Hs). exact Hc. }
        rewrite Hint. split; [exact Hcreated|].
        apply Forall_app. split; [exact Hall|].
        apply Forall_app. split; [exact Hidx|].
        destruct created as [i0|]; [|subst new; constructor].
        eapply Forall_impl; [|exact Hn]. cbn. intros c0 Hok i1 Hci.
        rewrite (new_call_intent _ _ _ _ _ Hok Hci). apply Hcreated. reflexivity.
    - intros [state calls] run' err' (Hs & Hc & Hi & Hall) Hcc.
      apply ChangeCollection_effect in Hcc.
      destruct Hcc as (idx & Hcalls & Hix & (Hsd & _ & Hin) & Hcd & _).
      cbn [fst snd] in *. unfold I. rewrite Hsd, Hcd, Hcalls, Hin.
      split; [exact Hs|]. split; [exact Hc|]. split; [exact Hi|].
      apply Forall_app. split; [exact Hall|].
      eapply Forall_impl; [|exact Hix]. cbn. intros c0 (ixs & ->) i0. cbn. apply Hi.
    - unfold I. cbn. split; [|split; [reflexivity|split; [discriminate|constructor]]].
      apply String.eqb_neq in Hdb. fold T. rewrite Hdb. reflexivity. }
  apply HI.
Qed.

(** A restore with the options [db] and [collection], for which every
    name is valid and nothing fails. *)
Definition selecting (db collection : string) : MongoRestore :=
  {| ToolOptions_DB := db;
     ToolOptions_Collection := collection;
     OutputOptions_NoIndexRestore := false;
     ValidateDBName := fun _ => None;
     ValidateCollectionGrammar := fun _ => None;
     CreateIntentForFile := intentFor;
     RestoreBeginCollection := fun _ => (false, None);
     RestoreCollectionMetadata := fun _ _ _ => ([], None);
     RestoreCollectionBSON := fun _ _ => None;
     IndexesFromBSONReader := fun _ _ => (None, None);
     RestoreCollectionIndexes := fun _ _ => None |}.

Lemma single_db_restores_that_db_witness :
  Forall (for_database (ToolOptions_DB (selecting "db1" "")))
    (calls_of (RestoreTarDump (selecting "db1" "")
                 [("db2/orders.bson", []); ("db1/users.bson", [])] None)).
Proof.
  apply (single_db_restores_that_db (selecting "db1" "")).
  - intros db c ft uses i u H. injection H as <- _. split; reflexivity.
  - discriminate.
Defined.

(** What RestoreTarDump does not do for a system collection. *)
Definition no_begin_for_system (c : Call) : Prop :=
  match c with
  | CallRestoreBeginCollection i | CallRestoreCollectionMetadata i _ =>
      prefix "system." (C i) = false
  | _ => True
  end.

(** X16: RestoreTarDump calls neither RestoreBeginCollection nor
    RestoreCollectionMetadata for a collection whose name starts with
    "system.". *)
Theorem system_collections_are_not_begun
        (restore : MongoRestore) (files : list (string * list byte))
        (last : option error) :
  faithful restore ->
  Forall no_begin_for_system (calls_of (RestoreTarDump restore files last)).
Proof.
  intros Hf.
  destruct (RestoreTarDump restore files last) as [[run err]| |] eqn:H;
    cbn [calls_of]; try constructor.
  unfold RestoreTarDump in H. revert H.
  apply (trace_property restore no_begin_for_system); [| |constructor].
  - intros oi ixs. exact I.
  - intros db collection ft uses i u c Hc Hok.
    destruct (Hf _ _ _ _ _ _ Hc) as [_ HC].
    destruct c; cbn in *; auto; destruct Hok as [-> Hp]; rewrite HC; exact Hp.
Qed.

Lemma system_collections_are_not_begun_witness :
  Forall no_begin_for_system
    (calls_of (RestoreTarDump sound
                 [("db1/system.users.metadata.json", []);
                  ("db1/system.users.bson", [])] None)).
Proof.
  apply system_collections_are_not_begun.
  intros db c ft uses i u H. injection H as <- _. split; reflexivity.
Defined.

(** Where the documents of system.indexes go. *)
Definition indexes_go_one_way (restore : MongoRestore) (c : Call) : Prop :=
  match c with
  | CallIndexesFromBSONReader collection =>
      OutputOptions_NoIndexRestore restore = false
      /\ collection = ToolOptions_Collection restore
  | CallRestoreCollectionBSON i =>
      C i = "system.indexes" -> OutputOptions_NoIndexRestore restore = true
  | _ => True
  end.

(** X17: system.indexes is read for index definitions only when
    NoIndexRestore is off, and then with the collection of the options
    as the filter; it is restored as the documents of a collection only
    when NoIndexRestore is on. *)
Theorem system_indexes_go_one_way
        (restore : MongoRestore) (files : list (string * list byte))
        (last : option error) :
  faithful restore ->
  Forall (indexes_go_one_way restore)
    (calls_of (RestoreTarDump restore files last)).
Proof.
  intros Hf.
  destruct (RestoreTarDump restore files last) as [[run err]| |] eqn:H;
    cbn [calls_of]; try constructor.
  unfold RestoreTarDump in H. revert H.
  apply (trace_property restore (indexes_go_one_way restore)); [| |constructor].
  - intros oi ixs. exact I.
  - intros db collection ft uses i u c Hc Hok.
    destruct (Hf _ _ _ _ _ _ Hc) as [_ HC].
    destruct c; cbn in *; auto.
    + destruct Hok as [-> Hp]. rewrite HC. intros ->.
      cbn in Hp. destruct (OutputOptions_NoIndexRestore restore);
        [reflexivity | discriminate].
    + destruct Hok as (-> & _ & Hn). auto.
Qed.

Lemma system_indexes_go_one_way_witness :
  Forall (indexes_go_one_way sound)
    (calls_of (RestoreTarDump sound
                 [("db1/system.indexes.bson", []); ("db1/users.bson", [])] None)).
Proof.
  apply system_indexes_go_one_way.
  intros db c ft uses i u H. injection H as <- _. split; reflexivity.
Defined.

(** ** Single-collection mode behind a system collection *)

(** A file of a system collection that passes the tests moves
    CurrentCollection onto its collection. *)
Lemma body_enters restore run fileName content res :
  FileType_eqb (file_type fileName) UnknownFileType = false ->
  ValidateDBName restore (file_db fileName) = None ->
  ValidateCollectionGrammar restore (file_collection fileName) = None ->
  file_db fileName = CurrentDb (fst run) ->
  prefix "system." (file_collection fileName) = true ->
  RestoreTarDump_body restore run fileName content = Returns res ->
  CurrentCollection (fst (run_of res)) = file_collection fileName.
Proof.
  unfold RestoreTarDump_body, file_db, file_collection, file_type.
  destruct (GetInfoFromTarHeaderName fileName) as [[db collection] fileType].
  cbn [fst snd]. intros -> -> -> -> Hsys. rewrite Hsys.
  rewrite String.eqb_refl. cbn [negb andb Go.bind].
  rewrite !andb_false_r.
  destruct run as [state calls]. cbn [fst snd].
  match goal with |- context [Go.bind ?m _] =>
    assert (H2 : forall r, m = Returns r ->
              CurrentCollection (fst (fst r)) = collection)
  end.
  { intros [run2 e2].
    destruct (negb (String.eqb collection (CurrentCollection state))) eqn:Hd.
    - intros H. apply ChangeCollection_effect in H.
      destruct H as (idx & _ & _ & _ & _ & Hcc). exact Hcc.
    - intros H; injection H as <- <-. cbn [fst].
      apply negb_false_iff, String.eqb_eq in Hd. auto. }
  match goal with |- context [Go.bind ?m _] =>
    destruct m as [[[state2 calls2] e2]| |]; [|discriminate|discriminate]
  end.
  specialize (H2 _ eq_refl). cbn [fst snd] in H2. cbn [Go.bind].
  repeat match goal with
  | |- context [CreateIntentForFile ?r ?d ?c ?f ?u] =>
      destruct (CreateIntentForFile r d c f u) as [[intent|] uses]
  | |- context [RestoreBeginCollection ?r ?i] =>
      destruct (RestoreBeginCollection r i) as [ex [e|]]
  | |- context [RestoreCollectionMetadata ?r ?i ?c ?b] =>
      destruct (RestoreCollectionMetadata r i c b) as [ix [e'|]]
  | |- context [IndexesFromBSONReader ?r ?c ?d] =>
      destruct (IndexesFromBSONReader r c d) as [m e'']
  | |- context [if ?b then _ else _] => destruct b
  end.
  all: intros H; injection H as <-; exact H2.
Qed.

(** The calls that restore nothing of a collection outside "system.". *)
Definition system_only (c : Call) : Prop :=
  match c with
  | CallRestoreBeginCollection _ | CallRestoreCollectionMetadata _ _ => False
  | CallRestoreCollectionBSON i => prefix "system." (C i) = true
  | _ => True
  end.

Lemma system_pass restore run db collection fileType run' :
  faithful restore ->
  pass_effect restore run db collection fileType run' ->
  SingleDb (fst run) = true -> SingleCollection (fst run) = true ->
  prefix "system." (CurrentCollection (fst run)) = true
  \/ prefix "system." collection = true ->
  Forall system_only (snd run) ->
  SingleDb (fst run') = true
  /\ SingleCollection (fst run') = true
  /\ Forall system_only (snd run')
  /\ (prefix "system." (CurrentCollection (fst run)) = true ->
      prefix "system." (CurrentCollection (fst run')) = true).
Proof.
  intros Hf (idx & new & Hcalls & Hix & Hsd & Hsc & _ & Hcc & Hcase) Hs Hc Hsys Hall.
  rewrite Hsd, Hsc, Hcalls.
  split; [exact Hs|]. split; [exact Hc|]. split.
  - apply Forall_app. split; [exact Hall|].
    apply Forall_app. split.
    + eapply Forall_impl; [|exact Hix]. cbn. intros c (ixs & ->). exact I.
    + destruct Hcase as [[-> _] | (uses & created & uses' & Hcr & _ & _ & Hsel & Hn)];
        [constructor|].
      destruct created as [i|]; [|subst new; constructor].
      destruct (Hf _ _ _ _ _ _ Hcr) as [_ HC].
      assert (Hp : prefix "system." collection = true).
      { destruct Hsys as [Hcur | Hp]; [|exact Hp].
        destruct (Hsel Hs Hc) as [-> | Hp]; assumption. }
      eapply Forall_impl; [|exact Hn]. intros c Hok.
      destruct c; cbn in *; auto.
      * destruct Hok as [_ Hno]. congruence.
      * destruct Hok as [_ Hno]. congruence.
      * destruct Hok as [-> _]. rewrite HC. exact Hp.
  - intros Hcur. destruct (Hcc Hs) as [-> | [-> Hp]]; auto.
Qed.

(** X18: in single-collection mode a file of a system collection moves
    CurrentCollection onto the system collection, and the test against
    CurrentCollection then passes over every file of a collection
    outside "system.", those of the selected collection included: once
    the archive begins with an accepted file of a system collection, no
    call begins a collection, restores metadata, or restores the
    documents of a collection outside "system.". *)
Theorem single_collection_lost_behind_system_file
        (restore : MongoRestore) (sysfile : string) (content : list byte)
        (files : list (string * list byte)) (last : option error) :
  faithful restore ->
  ToolOptions_DB restore <> "" ->
  ToolOptions_Collection restore <> "" ->
  FileType_eqb (file_type sysfile) UnknownFileType = false ->
  ValidateDBName restore (file_db sysfile) = None ->
  ValidateCollectionGrammar restore (file_collection sysfile) = None ->
  file_db sysfile = ToolOptions_DB restore ->
  prefix "system." (file_collection sysfile) = true ->
  Forall system_only
    (calls_of (RestoreTarDump restore ((sysfile, content) :: files) last)).
Proof.
  intros Hf Hdb Hcol Hft Hvd Hvc Hfd Hsys.
  destruct (RestoreTarDump restore ((sysfile, content) :: files) last)
    as [[run err]| |] eqn:H; cbn [calls_of]; try constructor.
  unfold RestoreTarDump in H. cbn [RestoreTarDump_loop] in H.
  set (run0 := (NewTarRestoreState restore, @nil Call)) in *.
  assert (Hs0 : SingleDb (fst run0) = true).
  { cbn. apply String.eqb_neq in Hdb. rewrite Hdb. reflexivity. }
  assert (Hc0 : SingleCollection (fst run0) = true).
  { cbn. apply String.eqb_neq in Hcol. rewrite Hcol. reflexivity. }
  destruct (RestoreTarDump_body restore run0 sysfile content) as [res| |] eqn:Hb;
    [|discriminate|discriminate].
  pose proof (body_enters restore run0 sysfile content res Hft Hvd Hvc Hfd Hsys Hb)
    as Henter.
  apply body_effect in Hb.
  destruct (system_pass restore run0 _ _ _ _ Hf Hb Hs0 Hc0 (or_intror Hsys)
              (Forall_nil _)) as (Hs1 & Hc1 & Hall1 & _).
  cbn [Go.bind] in H.
  set (J := fun run : Run =>
         SingleDb (fst run) = true /\ SingleCollection (fst run) = true
         /\ prefix "system." (CurrentCollection (fst run)) = true
         /\ Forall system_only (snd run)).
  destruct res as [run1 | [run1 e1]]; cbn [run_of] in *.
  - revert H. apply (loop_invariant_post restore J (fun run => Forall system_only (snd run))).
    + intros runA fileName contentA resA (HsA & HcA & HpA & HallA) HbA.
      apply body_effect in HbA.
      destruct (system_pass restore runA _ _ _ _ Hf HbA HsA HcA (or_introl HpA)
                  HallA) as (? & ? & ? & Hp').
      unfold J. auto.
    + intros runA HJ. apply HJ.
    + intros [state calls] run' err' (HsA & HcA & HpA & HallA) Hcc.
      apply ChangeCollection_effect in Hcc.
      destruct Hcc as (idx & Hcalls & Hix & _).
      cbn [fst snd] in *. rewrite Hcalls.
      apply Forall_app. split; [exact HallA|].
      eapply Forall_impl; [|exact Hix]. cbn. intros c (ixs & ->). exact I.
    + unfold J. rewrite Henter. auto.
  - injection H as <- <-. exact Hall1.
Qed.

Lemma single_collection_lost_behind_system_file_witness :
  Forall system_only
    (calls_of (RestoreTarDump (selecting "db1" "users")
       (("db1/system.indexes.bson", []) :: [("db1/users.bson", [])]) None)).
Proof.
  apply (single_collection_lost_behind_system_file (selecting "db1" "users")).
  - intros db c ft uses i u H. injection H as <- _. split; reflexivity.
  - discriminate.
  - discriminate.
  - reflexivity.
  - reflexivity.
  - reflexivity.
  - reflexivity.
  - reflexivity.
Defined.

(** ** Errors that are not looked at *)

(** The collaborator whose RestoreCollectionBSON and
    IndexesFromBSONReader do the same but give no error. *)
Definition without_bson_errors (restore : MongoRestore) : MongoRestore :=
  {| ToolOptions_DB := ToolOptions_DB restore;
     ToolOptions_Collection := ToolOptions_Collection restore;
     OutputOptions_NoIndexRestore := OutputOptions_NoIndexRestore restore;
     ValidateDBName := ValidateDBName restore;
     ValidateCollectionGrammar := ValidateCollectionGrammar restore;
     CreateIntentForFile := CreateIntentForFile restore;
     RestoreBeginCollection := RestoreBeginCollection restore;
     RestoreCollectionMetadata := RestoreCollectionMetadata restore;
     RestoreCollectionBSON := fun _ _ => None;
     IndexesFromBSONReader :=
       fun collection content =>
         (fst (IndexesFromBSONReader restore collection content), None);
     RestoreCollectionIndexes := RestoreCollectionIndexes restore |}.

Lemma body_without_bson_errors restore run fileName content :
  RestoreTarDump_body (without_bson_errors restore) run fileName content
  = RestoreTarDump_body restore run fileName content.
Proof.
  unfold RestoreTarDump_body.
  change (ChangeDatabase (without_bson_errors restore))
    with (ChangeDatabase restore).
  change (ChangeCollection (without_bson_errors restore))
    with (ChangeCollection restore).
  cbn [without_bson_errors ToolOptions_DB ToolOptions_Collection
       OutputOptions_NoIndexRestore ValidateDBName ValidateCollectionGrammar
       CreateIntentForFile RestoreBeginCollection RestoreCollectionMetadata
       RestoreCollectionBSON IndexesFromBSONReader RestoreCollectionIndexes].
  destruct (GetInfoFromTarHeaderName fileName) as [[db collection] fileType].
  repeat match goal with
  | |- ?x = ?x => reflexivity
  | |- context [IndexesFromBSONReader ?r ?c ?d] =>
      destruct (IndexesFromBSONReader r c d) as [m e'']; cbn [fst]
  | |- Go.bind ?m _ = Go.bind ?m _ => destruct m as [[[state calls] e]| |]; cbn [Go.bind]
  | |- context [CreateIntentForFile ?r ?d ?c ?f ?u] =>
      destruct (CreateIntentForFile r d c f u) as [[intent|] uses]
  | |- context [RestoreBeginCollection ?r ?i] =>
      destruct (RestoreBeginCollection r i) as [ex [e|]]
  | |- context [if ?b then _ else _] => destruct b
  | |- context [match ?x with _ => _ end] => destruct x
  end.
Qed.

(** X25: the errors of RestoreCollectionBSON and of
    IndexesFromBSONReader are not looked at: with every archive,
    RestoreTarDump ends in the same state, with the same calls and the
    same error, as with collaborators that do the same and never fail,
    so a failed restore of documents is not reported. *)
Theorem bson_errors_are_not_reported
        (restore : MongoRestore) (files : list (string * list byte))
        (last : option error) :
  RestoreTarDump restore files last
  = RestoreTarDump (without_bson_errors restore) files last.
Proof.
  unfold RestoreTarDump.
  change (NewTarRestoreState (without_bson_errors restore))
    with (NewTarRestoreState restore).
  generalize (NewTarRestoreState restore, @nil Call).
  induction files as [|[fileName content] files IH]; intros run;
    cbn [RestoreTarDump_loop].
  - reflexivity.
  - rewrite body_without_bson_errors.
    destruct (RestoreTarDump_body restore run fileName content)
      as [[run1 | [run1 e1]]| |]; cbn [Go.bind]; auto.
Qed.

End DriverExtras.

(* ================================================================== *)
(** * The intents of a dump: order and exclusions *)
(* ================================================================== *)

Module DumpExtras.

Import Mongorestore Mongodump.
Local Open Scope string_scope.

(** The collections of the intents put, in order. *)
Fixpoint put_collections (evs : list Event) : list string :=
  match evs with
  | [] => []
  | Put intent :: evs' => C intent :: put_collections evs'
  | Mkdir _ :: evs' => put_collections evs'
  end.

(** The directories made, in order. *)
Fixpoint made_directories (evs : list Event) : list string :=
  match evs with
  | [] => []
  | Mkdir path :: evs' => path :: made_directories evs'
  | Put _ :: evs' => made_directories evs'
  end.

Lemma put_collections_app evs1 evs2 :
  put_collections (evs1 ++ evs2) = (put_collections evs1 ++ put_collections evs2)%list.
Proof.
  induction evs1 as [|[path|intent] evs1 IH]; simpl; [reflexivity | exact IH |].
  rewrite IH. reflexivity.
Qed.

Lemma made_directories_app evs1 evs2 :
  made_directories (evs1 ++ evs2)
  = (made_directories evs1 ++ made_directories evs2)%list.
Proof.
  induction evs1 as [|[path|intent] evs1 IH]; simpl; [reflexivity | | exact IH].
  rewrite IH. reflexivity.
Qed.

Definition is_system (colName : string) : bool := HasPrefix colName "system.".

(** What CreateIntentForCollection adds to the world. *)
Lemma CreateIntentForCollection_effect dump w dbName colName w' err :
  CreateIntentForCollection dump w dbName colName = (w', err) ->
  exists new,
    events w' = (events w ++ new)%list
    /\ (new = [] \/ exists intent,
          new = [Put intent] /\ DB intent = dbName /\ C intent = colName
          /\ shouldSkipCollection dump colName = false /\ err = None)
    /\ (err = None -> shouldSkipCollection dump colName = false ->
        new <> []).
Proof.
  unfold CreateIntentForCollection.
  destruct (shouldSkipCollection dump colName) eqn:Hskip.
  { intros H; injection H as <- <-. exists []. rewrite app_nil_r.
    split; [reflexivity|]. split; [auto | discriminate]. }
  destruct (GetSession dump (sessions w)).
  { intros H; injection H as <- <-. exists []. cbn. rewrite app_nil_r.
    split; [reflexivity|]. split; [auto | discriminate]. }
  destruct (Count dump dbName colName) as [count|e].
  - intros H; injection H as <- <-. eexists. cbn [events].
    split; [reflexivity|]. split; [|discriminate].
    right. eexists. split; [reflexivity|].
    destruct (useStdout dump); cbn; auto.
  - intros H; injection H as <- <-. exists []. cbn. rewrite app_nil_r.
    split; [reflexivity|]. split; [auto | discriminate].
Qed.

(** The collections that a loop over [cols] is to put. *)
Definition to_put (dump : MongoDump) (wanted : string -> bool)
           (cols : list string) : list string :=
  filter (fun colName => negb (shouldSkipCollection dump colName))
    (filter wanted cols).

(** The intents a loop puts are of the database at hand, and their
    collections are the first of the collections to put, all of them
    when there is no error. *)
Definition loop_effect (dump : MongoDump) (dbName : string)
           (expected : list string) (w w' : World) (err : option DumpError) : Prop :=
  exists new rest,
    events w' = (events w ++ map Put new)%list
    /\ expected = (map C new ++ rest)%list
    /\ Forall (fun intent => DB intent = dbName) new
    /\ (err = None -> rest = []).

Lemma intents_loop_effect dump wanted dbName cols : forall w w' err,
  intents_loop dump wanted w dbName cols = (w', err) ->
  loop_effect dump dbName (to_put dump wanted cols) w w' err.
Proof.
  unfold loop_effect, to_put.
  induction cols as [|colName cols IH]; intros w w' err; cbn [intents_loop filter].
  - intros H; injection H as <- <-. exists [], []. cbn. rewrite app_nil_r. auto.
  - destruct (wanted colName); [|apply IH].
    destruct (CreateIntentForCollection dump w dbName colName) as [w1 e1] eqn:Hc.
    apply CreateIntentForCollection_effect in Hc.
    destruct Hc as (new1 & Hev & Hnew & Hput). cbn [filter].
    destruct e1 as [e|].
    + intros H; injection H as <- <-.
      destruct Hnew as [-> | (i & _ & _ & _ & _ & Hn)]; [|discriminate].
      exists [], (filter (fun c => negb (shouldSkipCollection dump c))
                    (colName :: filter wanted cols)).
      cbn [map app filter]. rewrite Hev, app_nil_r.
      split; [reflexivity|]. split; [reflexivity|]. split; [constructor|discriminate].
    + intros H. apply IH in H.
      destruct H as (new & rest & Hev2 & Hexp & Hdb & Hrest).
      destruct (shouldSkipCollection dump colName) eqn:Hskip; cbn [negb].
      * destruct Hnew as [-> | (i & _ & _ & _ & Hs & _)]; [|discriminate].
        rewrite app_nil_r in Hev. exists new, rest. rewrite Hev2, Hev. auto.
      * destruct Hnew as [-> | (i & -> & Hd & Hc & _)];
          [exfalso; apply (Hput eq_refl eq_refl); reflexivity|].
        exists (i :: new), rest. rewrite Hev2, Hev, <- app_assoc.
        cbn [map app]. rewrite Hc, <- Hexp.
        split; [reflexivity|]. split; [reflexivity|]. split; [|exact Hrest].
        constructor; assumption.
Qed.

(** X19: the intents of a database are put with the system collections
    first: the collections of the intents that CreateIntentsForDatabase
    puts are the collections named "system.*" in the order of
    CollectionNames, then the others in that order, each without the
    excluded ones; an error stops the sequence where it is, and without
    an error the sequence is complete. *)
Theorem system_collections_are_put_first
        (dump : MongoDump) (w : World) (dbName : string) (cols : list string) :
  CollectionNames dump dbName = inl cols ->
  let '(w', err) := CreateIntentsForDatabase dump w dbName in
  exists done rest,
    put_collections (events w') = (put_collections (events w) ++ done)%list
    /\ (to_put dump is_system cols
        ++ to_put dump (fun c => negb (is_system c)) cols)%list
       = (done ++ rest)%list
    /\ (err = None -> rest = []).
Proof.
  intros Hcols. unfold CreateIntentsForDatabase.
  set (dbFolder := filepath_Join dump [OutputOptions_Out dump; dbName]).
  set (expected1 := to_put dump is_system cols).
  set (expected2 := to_put dump (fun c => negb (is_system c)) cols).
  assert (Hpre : forall w1 : World,
    put_collections (events w1) = put_collections (events w) ->
    let '(w', err) :=
      match CollectionNames dump dbName with
      | inr err => (w1, Some (ErrCollectionNames dbName err))
      | inl cols =>
          match intents_loop dump (fun colName => HasPrefix colName "system.")
                  w1 dbName cols with
          | (w, Some err) => (w, Some err)
          | (w, None) =>
              intents_loop dump
                (fun colName => negb (HasPrefix colName "system.")) w dbName cols
          end
      end in
    exists done rest,
      put_collections (events w') = (put_collections (events w) ++ done)%list
      /\ (expected1 ++ expected2)%list = (done ++ rest)%list
      /\ (err = None -> rest = [])).
  { intros w1 Hw1. rewrite Hcols.
    destruct (intents_loop dump (fun colName => HasPrefix colName "system.")
                w1 dbName cols) as [w2 e2] eqn:H1.
    apply intents_loop_effect in H1.
    destruct H1 as (new1 & rest1 & Hev1 & Hexp1 & _ & Hrest1).
    fold is_system in Hexp1. fold expected1 in Hexp1.
    assert (Hput1 : put_collections (events w2)
                    = (put_collections (events w) ++ map C new1)%list).
    { rewrite Hev1, put_collections_app, Hw1. f_equal.
      clear. induction new1 as [|i l IH]; simpl; [|rewrite IH]; reflexivity. }
    destruct e2 as [e|].
    - exists (map C new1), (rest1 ++ expected2)%list.
      split; [exact Hput1|]. split; [|discriminate].
      rewrite Hexp1, <- app_assoc. reflexivity.
    - rewrite (Hrest1 eq_refl), app_nil_r in Hexp1.
      destruct (intents_loop dump (fun colName => negb (HasPrefix colName "system."))
                  w2 dbName cols) as [w3 e3] eqn:H2.
      apply intents_loop_effect in H2.
      destruct H2 as (new2 & rest2 & Hev2 & Hexp2 & _ & Hrest2).
      change (to_put dump (fun colName => negb (HasPrefix colName "system.")) cols)
        with expected2 in Hexp2.
      exists (map C new1 ++ map C new2)%list, rest2.
      split; [|split; [|exact Hrest2]].
      + rewrite Hev2, put_collections_app, Hput1, <- app_assoc. f_equal. f_equal.
        clear. induction new2 as [|i l IH]; simpl; [|rewrite IH]; reflexivity.
      + rewrite Hexp1, Hexp2, <- app_assoc. reflexivity. }
  destruct (negb (OutputOptions_Tar dump)).
  - destruct (MkdirAll dump dbFolder) as [e|].
    + exists [], (expected1 ++ expected2)%list. cbn [events].
      rewrite put_collections_app. cbn. rewrite !app_nil_r.
      split; [reflexivity|]. split; [reflexivity | discriminate].
    + apply Hpre. cbn [events]. rewrite put_collections_app. cbn.
      apply app_nil_r.
  - apply Hpre. reflexivity.
Qed.

(** A provider with the collections [cols] in every database, [n]
    documents in every collection, and no failure. *)
Definition provider (excluded : list string) (tar : bool)
           (dbs cols : list string) (n : Z) : MongoDump :=
  {| OutputOptions_ExcludedCollections := excluded;
     OutputOptions_ExcludedCollectionPrefixes := [];
     OutputOptions_Out := "dump";
     OutputOptions_Tar := tar;
     useStdout := tar;
     GetSession := fun _ => None;
     Count := fun _ _ => inl n;
     CollectionNames := fun _ => inl cols;
     DatabaseNames := inl dbs;
     MkdirAll := fun _ => None;
     filepath_Join := fun parts => String.concat "/" parts |}.

Definition NewWorld : World := {| events := []; sessions := 0 |}.

Lemma system_collections_are_put_first_witness :
  let '(w', err) :=
    CreateIntentsForDatabase
      (provider ["tmp"] true ["db1"] ["users"; "system.indexes"; "tmp"; "orders"] 7)
      NewWorld "db1" in
  exists done rest,
    put_collections (events w') = (put_collections (events NewWorld) ++ done)%list
    /\ (to_put (provider ["tmp"] true ["db1"]
                  ["users"; "system.indexes"; "tmp"; "orders"] 7)
          is_system ["users"; "system.indexes"; "tmp"; "orders"]
        ++ to_put (provider ["tmp"] true ["db1"]
                     ["users"; "system.indexes"; "tmp"; "orders"] 7)
             (fun c => negb (is_system c))
             ["users"; "system.indexes"; "tmp"; "orders"])%list
       = (done ++ rest)%list
    /\ (err = None -> rest = []).
Proof.
  apply (system_collections_are_put_first
           (provider ["tmp"] true ["db1"]
              ["users"; "system.indexes"; "tmp"; "orders"] 7)
           NewWorld "db1" ["users"; "system.indexes"; "tmp"; "orders"]).
  reflexivity.
Defined.

(** ** What is never dumped *)

(** The events that CreateIntentsForDatabase makes for [dbName]. *)
Definition event_of (dump : MongoDump) (dbName : string) (e : Event) : Prop :=
  match e with
  | Put intent =>
      DB intent = dbName /\ shouldSkipCollection dump (C intent) = false
  | Mkdir path =>
      OutputOptions_Tar dump = false
      /\ path = filepath_Join dump [OutputOptions_Out dump; dbName]
  end.

Lemma intents_loop_events dump wanted dbName cols : forall w w' err,
  intents_loop dump wanted w dbName cols = (w', err) ->
  exists new,
    events w' = (events w ++ new)%list
    /\ Forall (event_of dump dbName) new
    /\ made_directories new = [].
Proof.
  induction cols as [|colName cols IH]; intros w w' err; cbn [intents_loop].
  - intros H; injection H as <- <-. exists []. rewrite app_nil_r. auto.
  - destruct (wanted colName); [|apply IH].
    destruct (CreateIntentForCollection dump w dbName colName) as [w1 e1] eqn:Hc.
    apply CreateIntentForCollection_effect in Hc.
    destruct Hc as (new1 & Hev & Hnew & _).
    assert (H1 : Forall (event_of dump dbName) new1 /\ made_directories new1 = []).
    { destruct Hnew as [-> | (i & -> & Hd & Hcn & Hs & _)]; [auto|].
      split; [|reflexivity]. repeat constructor; [exact Hd|]. rewrite Hcn. exact Hs. }
    destruct e1 as [e|].
    + intros H; injection H as <- <-. exists new1. tauto.
    + intros H. apply IH in H. destruct H as (new2 & Hev2 & Hall2 & Hm2).
      exists (new1 ++ new2)%list. rewrite Hev2, Hev, <- app_assoc.
      split; [reflexivity|]. split; [apply Forall_app; tauto|].
      rewrite made_directories_app, Hm2, (proj2 H1). reflexivity.
Qed.

Lemma CreateIntentsForDatabase_events dump w dbName w' err :
  CreateIntentsForDatabase dump w dbName = (w', err) ->
  exists new,
    events w' = (events w ++ new)%list
    /\ Forall (event_of dump dbName) new
    /\ made_directories new
       = (if OutputOptions_Tar dump then []
          else [filepath_Join dump [OutputOptions_Out dump; dbName]]).
Proof.
  unfold CreateIntentsForDatabase.
  set (dbFolder := filepath_Join dump [OutputOptions_Out dump; dbName]).
  assert (Hrest : forall w1 : World,
    match CollectionNames dump dbName with
    | inr err => (w1, Some (ErrCollectionNames dbName err))
    | inl cols =>
        match intents_loop dump (fun colName => HasPrefix colName "system.")
                w1 dbName cols with
        | (w, Some err) => (w, Some err)
        | (w, None) =>
            intents_loop dump
              (fun colName => negb (HasPrefix colName "system.")) w dbName cols
        end
    end = (w', err) ->
    exists new,
      events w' = (events w1 ++ new)%list
      /\ Forall (event_of dump dbName) new /\ made_directories new = []).
  { intros w1. destruct (CollectionNames dump dbName) as [cols|e].
    2:{ intros H; injection H as <- <-. exists []. rewrite app_nil_r. auto. }
    destruct (intents_loop dump (fun colName => HasPrefix colName "system.")
                w1 dbName cols) as [w2 e2] eqn:H1.
    apply intents_loop_events in H1. destruct H1 as (new1 & Hev1 & Hall1 & Hm1).
    destruct e2 as [e|].
    - intros H; injection H as <- <-. exists new1. auto.
    - intros H2. apply intents_loop_events in H2.
      destruct H2 as (new2 & Hev2 & Hall2 & Hm2).
      exists (new1 ++ new2)%list. rewrite Hev2, Hev1, <- app_assoc.
      split; [reflexivity|]. split; [apply Forall_app; auto|].
      rewrite made_directories_app, Hm1, Hm2. reflexivity. }
  destruct (OutputOptions_Tar dump) eqn:Htar; cbn [negb].
  - apply Hrest.
  - destruct (MkdirAll dump dbFolder) as [e|].
    + intros H; injection H as <- <-. exists [Mkdir dbFolder]. cbn [events].
      split; [reflexivity|]. split; [|reflexivity].
      repeat constructor. exact Htar.
    + intros H. apply Hrest in H. destruct H as (new & Hev & Hall & Hm).
      exists (Mkdir dbFolder :: new). rewrite Hev. cbn [events].
      rewrite <- app_assoc. split; [reflexivity|].
      split; [constructor; [split; [exact Htar | reflexivity] | exact Hall]|].
      cbn [made_directories]. rewrite Hm. reflexivity.
Qed.

(** The databases that CreateAllIntents goes into. *)
Definition dumped (dbs : list string) : list string :=
  filter (fun dbName => negb (String.eqb dbName "local")) dbs.

Lemma databases_loop_events dump dbs : forall w w' err,
  databases_loop dump w dbs = (w', err) ->
  exists new done rest,
    events w' = (events w ++ new)%list
    /\ Forall (fun e => exists dbName,
                 dbName <> "local" /\ event_of dump dbName e) new
    /\ dumped dbs = (done ++ rest)%list
    /\ made_directories new
       = (if OutputOptions_Tar dump then []
          else map (fun dbName =>
                      filepath_Join dump [OutputOptions_Out dump; dbName]) done)
    /\ (err = None -> rest = []).
Proof.
  induction dbs as [|dbName dbs IH]; intros w w' err;
    cbn [databases_loop dumped filter].
  - intros H; injection H as <- <-. exists [], [], []. rewrite app_nil_r.
    destruct (OutputOptions_Tar dump); auto.
  - destruct (String.eqb dbName "local") eqn:Hl; cbn [negb]; [apply IH|].
    apply String.eqb_neq in Hl.
    destruct (CreateIntentsForDatabase dump w dbName) as [w1 e1] eqn:Hdb.
    apply CreateIntentsForDatabase_events in Hdb.
    destruct Hdb as (new1 & Hev1 & Hall1 & Hm1).
    assert (Hall1' : Forall (fun e => exists dbName,
                        dbName <> "local" /\ event_of dump dbName e) new1).
    { eapply Forall_impl; [|exact Hall1]. intros e He. exists dbName. auto. }
    destruct e1 as [e|].
    + intros H; injection H as <- <-.
      exists new1, [dbName], (dumped dbs).
      split; [exact Hev1|]. split; [exact Hall1'|]. split; [reflexivity|].
      split; [|discriminate].
      rewrite Hm1. destruct (OutputOptions_Tar dump); reflexivity.
    + intros H. apply IH in H.
      destruct H as (new2 & done & rest & Hev2 & Hall2 & Hd & Hm2 & Hrest).
      exists (new1 ++ new2)%list, (dbName :: done), rest.
      rewrite Hev2, Hev1, <- app_assoc. split; [reflexivity|].
      split; [apply Forall_app; auto|].
      split; [fold (dumped dbs); rewrite Hd; reflexivity|].
      split; [|exact Hrest].
      rewrite made_directories_app, Hm1, Hm2.
      destruct (OutputOptions_Tar dump); reflexivity.
Qed.

(** What an intent that CreateAllIntents puts is never for. *)
Definition never_dumped (dump : MongoDump) (e : Event) : Prop :=
  match e with
  | Put intent =>
      DB intent <> "local" /\ shouldSkipCollection dump (C intent) = false
  | Mkdir _ => True
  end.

(** X20: CreateAllIntents puts no intent for the database "local" and
    no intent for a collection that shouldSkipCollection excludes,
    whatever the provider returns. *)
Theorem local_and_excluded_are_never_dumped (dump : MongoDump) (w : World) :
  exists new,
    events (fst (CreateAllIntents dump w)) = (events w ++ new)%list
    /\ Forall (never_dumped dump) new.
Proof.
  unfold CreateAllIntents.
  destruct (DatabaseNames dump) as [dbs|e].
  2:{ exists []. cbn. rewrite app_nil_r. auto. }
  destruct (databases_loop dump w dbs) as [w' err] eqn:H.
  apply databases_loop_events in H.
  destruct H as (new & done & rest & Hev & Hall & _).
  exists new. split; [exact Hev|].
  eapply Forall_impl; [|exact Hall].
  intros [path|intent] (dbName & Hl & He); cbn in *; [exact I|].
  destruct He as [-> Hs]. auto.
Qed.

(** X21: with --tar, CreateAllIntents makes no directory. *)
Theorem tar_dump_makes_no_directory (dump : MongoDump) (w : World) :
  OutputOptions_Tar dump = true ->
  made_directories (events (fst (CreateAllIntents dump w)))
  = made_directories (events w).
Proof.
  intros Htar. unfold CreateAllIntents.
  destruct (DatabaseNames dump) as [dbs|e]; [|reflexivity].
  destruct (databases_loop dump w dbs) as [w' err] eqn:H.
  apply databases_loop_events in H.
  destruct H as (new & done & rest & Hev & _ & _ & Hm & _).
  cbn [fst]. rewrite Hev, made_directories_app, Hm, Htar. apply app_nil_r.
Qed.

Lemma tar_dump_makes_no_directory_witness :
  made_directories
    (events (fst (CreateAllIntents
                    (provider [] true ["db1"; "local"] ["users"] 7) NewWorld)))
  = made_directories (events NewWorld).
Proof. apply tar_dump_makes_no_directory. reflexivity. Defined.

(** X22: without --tar, a CreateAllIntents that gives no error has made
    the directory of every database but "local", in the order of
    DatabaseNames and once for each, those of databases without
    collections included. *)
Theorem every_database_gets_its_directory
        (dump : MongoDump) (w : World) (dbs : list string) :
  OutputOptions_Tar dump = false ->
  DatabaseNames dump = inl dbs ->
  snd (CreateAllIntents dump w) = None ->
  made_directories (events (fst (CreateAllIntents dump w)))
  = (made_directories (events w)
     ++ map (fun dbName => filepath_Join dump [OutputOptions_Out dump; dbName])
          (dumped dbs))%list.
Proof.
  intros Htar Hdbs. unfold CreateAllIntents. rewrite Hdbs.
  destruct (databases_loop dump w dbs) as [w' err] eqn:H.
  apply databases_loop_events in H.
  destruct H as (new & done & rest & Hev & _ & Hd & Hm & Hrest).
  cbn [fst snd]. intros ->. rewrite (Hrest eq_refl), app_nil_r in Hd.
  rewrite Hev, made_directories_app, Hm, Htar, Hd. reflexivity.
Qed.

Lemma every_database_gets_its_directory_witness :
  made_directories
    (events (fst (CreateAllIntents
                    (provider [] false ["db1"; "local"; "empty"] [] 7) NewWorld)))
  = (made_directories (events NewWorld)
     ++ map (fun dbName =>
               filepath_Join (provider [] false ["db1"; "local"; "empty"] [] 7)
                 [OutputOptions_Out
                    (provider [] false ["db1"; "local"; "empty"] [] 7); dbName])
          (dumped ["db1"; "local"; "empty"]))%list.
Proof.
  apply every_database_gets_its_directory; reflexivity.
Defined.

End DumpExtras.

(* ================================================================== *)
(** * The options of a restore: what validation accepts *)
(* ================================================================== *)

Module OptionsExtras.

Import Mongorestore RestoreOptions.
Local Open Scope string_scope.

Section Accepted.

Variables NodeType Safe : Type.
Variable cfg : Settings NodeType Safe.

Let DB : string := ToolOptions_DB (restore cfg).
Let Collection : string := ToolOptions_Collection (restore cfg).

(** The options are consistent and the server answers. *)
Definition accepted : Prop :=
  (Collection <> "" -> DB <> "")
  /\ (DB <> "" -> ValidateDBName (restore cfg) DB = None)
  /\ (Collection <> "" ->
      ValidateCollectionGrammar (restore cfg) Collection = None)
  /\ (InputOptions_RestoreDBUsersAndRoles cfg = true ->
      DB <> "" /\ DB <> "admin")
  /\ snd (SessionProvider_IsMongos cfg) = None
  /\ (InputOptions_OplogLimit cfg <> "" ->
      InputOptions_OplogReplay cfg = true
      /\ snd (ParseTimestampFlag cfg (InputOptions_OplogLimit cfg)) = None)
  /\ snd (SessionProvider_GetNodeType cfg) = None
  /\ snd (BuildWriteConcern cfg (OutputOptions_WriteConcern cfg)
            (fst (SessionProvider_GetNodeType cfg))) = None
  /\ (0 <= OutputOptions_NumInsertionWorkers cfg)%Z
  /\ (TargetDirectory cfg = "-" -> InputOptions_Tar cfg = false ->
      Collection <> "").

Ltac refused :=
  cbn [snd fst]; split; [discriminate | intuition (congruence || lia)].

Lemma accepts_iff (st : Internal Safe) :
  snd (ParseAndValidateOptions cfg st) = None <-> accepted.
Proof.
  unfold ParseAndValidateOptions, accepted. fold DB. fold Collection.
  generalize (if InputOptions_Objcheck cfg
              then mkInternal true (isMongos st) (oplogLimit st)
                     (safety st) (tempUsersCol st) (tempRolesCol st)
                     (useStdin st)
              else st).
  clear st. intros st.
  destruct (String.eqb_spec DB "") as [Hdb|Hdb];
    destruct (String.eqb_spec Collection "") as [Hc|Hc]; cbn [negb andb].
  all: try solve [refused].
  all: try (destruct (ValidateDBName (restore cfg) DB) as [e1|]; [solve [refused]|]).
  all: try (destruct (ValidateCollectionGrammar (restore cfg) Collection) as [e2|];
            [solve [refused]|]).
  all: destruct (InputOptions_RestoreDBUsersAndRoles cfg) eqn:Hu; cbn [negb andb].
  all: try solve [refused].
  all: try (destruct (String.eqb_spec DB "admin") as [Ha|Ha]; [solve [refused]|]).
  all: destruct (SessionProvider_IsMongos cfg) as [mongos [e3|]]; [solve [refused]|].
  all: destruct (String.eqb_spec (InputOptions_OplogLimit cfg) "") as [Ho|Ho];
    cbn [negb].
  all: try (destruct (InputOptions_OplogReplay cfg) eqn:Hr; cbn [negb];
            [|solve [refused]]).
  all: try (destruct (ParseTimestampFlag cfg (InputOptions_OplogLimit cfg))
              as [limit [e4|]]; [solve [refused]|]).
  all: destruct (SessionProvider_GetNodeType cfg) as [nodeType [e5|]];
    [solve [refused]|]; cbn [fst].
  all: destruct (BuildWriteConcern cfg (OutputOptions_WriteConcern cfg) nodeType)
    as [safe [e6|]]; [solve [refused]|].
  all: destruct (Z.ltb_spec (OutputOptions_NumInsertionWorkers cfg) 0) as [Hw|Hw];
    [solve [refused]|].
  all: destruct (String.eqb_spec (TargetDirectory cfg) "-") as [Ht|Ht].
  all: try (destruct (InputOptions_Tar cfg) eqn:Htar; cbn [negb andb]).
  all: try solve [refused].
  all: cbn [snd fst]; split; [intros _ | reflexivity].
  all: repeat split; intros; try congruence; try lia; try discriminate.
Qed.

End Accepted.

Arguments accepted {NodeType Safe} cfg.

(** X23: ParseAndValidateOptions returns nil exactly for the options
    that are consistent, on a server that answers: a collection only
    with a database; the names given are valid; --restoreDbUsersAndRoles
    with a database other than admin; --oplogLimit only with
    --oplogReplay and a timestamp that parses; a write concern that
    builds; no negative number of insertion workers; and stdin without
    --tar only with a collection.  The fields of the receiver play no
    part in it. *)
Theorem ParseAndValidateOptions_accepts_exactly
        (NodeType Safe : Type) (cfg : Settings NodeType Safe) (st : Internal Safe) :
  snd (ParseAndValidateOptions cfg st) = None <-> accepted cfg.
Proof. apply accepts_iff. Qed.

(** X24: after a ParseAndValidateOptions that returned nil, the state
    that NewTarRestoreState builds from the same options is coherent: in
    single-collection mode it is in single-database mode as well, and
    the database and the collection it selects have valid names, so the
    name tests of RestoreTarDump do not pass over the files of the
    selected database and collection. *)
Theorem validated_options_give_coherent_state
        (NodeType Safe : Type) (cfg : Settings NodeType Safe) (st : Internal Safe) :
  snd (ParseAndValidateOptions cfg st) = None ->
  let state := NewTarRestoreState (restore cfg) in
  (SingleCollection state = true -> SingleDb state = true)
  /\ (SingleDb state = true ->
      ValidateDBName (restore cfg) (CurrentDb state) = None)
  /\ (SingleCollection state = true ->
      ValidateCollectionGrammar (restore cfg) (CurrentCollection state) = None).
Proof.
  intros H. apply accepts_iff in H.
  destruct H as (Hcd & Hdb & Hcol & _). cbn.
  destruct (String.eqb_spec (ToolOptions_DB (restore cfg)) "") as [Hd|Hd];
    destruct (String.eqb_spec (ToolOptions_Collection (restore cfg)) "") as [Hc|Hc];
    cbn [negb]; repeat split; intros; try discriminate; auto.
  exfalso. apply (Hcd Hc). exact Hd.
Qed.

(** Options of a restore from a tar archive on stdin, with a server
    that answers. *)
Definition tar_from_stdin (db collection : string) : Settings unit unit :=
  {| restore := DriverExtras.selecting db collection;
     InputOptions_Objcheck := true;
     InputOptions_RestoreDBUsersAndRoles := false;
     InputOptions_OplogLimit := "";
     InputOptions_OplogReplay := false;
     InputOptions_Tar := true;
     OutputOptions_WriteConcern := "majority";
     OutputOptions_NumInsertionWorkers := 1;
     HiddenOptions_TempUsersColl := None;
     HiddenOptions_TempRolesColl := None;
     TargetDirectory := "-";
     SessionProvider_IsMongos := (false, None);
     ParseTimestampFlag := fun _ => (0%Z, None);
     SessionProvider_GetNodeType := (tt, None);
     BuildWriteConcern := fun _ _ => (tt, None) |}.

Definition fresh : Internal unit :=
  {| objCheck := false; isMongos := false; oplogLimit := 0; safety := None;
     tempUsersCol := ""; tempRolesCol := ""; useStdin := false |}.

Lemma validated_options_give_coherent_state_witness :
  let state := NewTarRestoreState (restore (tar_from_stdin "db1" "users")) in
  (SingleCollection state = true -> SingleDb state = true)
  /\ (SingleDb state = true ->
      ValidateDBName (restore (tar_from_stdin "db1" "users")) (CurrentDb state)
      = None)
  /\ (SingleCollection state = true ->
      ValidateCollectionGrammar (restore (tar_from_stdin "db1" "users"))
        (CurrentCollection state) = None).
Proof.
  apply (validated_options_give_coherent_state unit unit
           (tar_from_stdin "db1" "users") fresh).
  reflexivity.
Defined.

End OptionsExtras.

(* ================================================================== *)
(** * The two Writers cut alike *)
(* ================================================================== *)

Module LegacyExtras.

Import ChunktarWriter Client WriterFacts.

(** An entry of the numbered Writer and the entry of the Writer before
    it: the same bytes under the same size, the name of the one being
    the name of the other with a chunk number. *)
Definition entry_alike (e el : Tar.Entry) : Prop :=
  Tar.body el = Tar.body e
  /\ Tar.Size (Tar.hdr el) = Tar.Size (Tar.hdr e)
  /\ exists k, Tar.Name (Tar.hdr e) = chunkName (Tar.Name (Tar.hdr el)) k.

Definition current_alike (c cl : option Tar.Entry) : Prop :=
  match c, cl with
  | Some e, Some el => entry_alike e el
  | None, None => True
  | _, _ => False
  end.

Definition tar_alike (tw twl : Tar.Writer) : Prop :=
  Forall2 entry_alike (Tar.tw_done tw) (Tar.tw_done twl)
  /\ current_alike (Tar.tw_cur tw) (Tar.tw_cur twl)
  /\ Tar.tw_closed twl = Tar.tw_closed tw.

(** The two Writers after the same calls. *)
Definition alike (w : Writer) (wl : LegacyWriter.Writer) : Prop :=
  tar_alike (tarWriter w) (LegacyWriter.tarWriter wl)
  /\ LegacyWriter.inputBuffer wl = inputBuffer w
  /\ LegacyWriter.outputBuffer wl = outputBuffer w
  /\ LegacyWriter.outputError wl = outputError w
  /\ LegacyWriter.open wl = open w
  /\ LegacyWriter.name wl = name w
  /\ match wait w with
     | Some cn =>
         LegacyWriter.wait wl = true /\ exists k, cn = chunkName (name w) k
     | None => LegacyWriter.wait wl = false
     end.

Lemma archive_alike tw twl :
  tar_alike tw twl -> Forall2 entry_alike (Tar.archive tw) (Tar.archive twl).
Proof.
  intros (Hd & Hc & _). unfold Tar.archive.
  apply Forall2_app; [exact Hd|].
  destruct (Tar.tw_cur tw), (Tar.tw_cur twl); cbn in Hc; try contradiction.
  - constructor; [exact Hc | constructor].
  - constructor.
Qed.

Lemma missing_alike tw twl : tar_alike tw twl -> Tar.missing twl = Tar.missing tw.
Proof.
  intros (_ & Hc & _). unfold Tar.missing.
  destruct (Tar.tw_cur tw), (Tar.tw_cur twl); cbn in Hc; try contradiction; auto.
  destruct Hc as (-> & -> & _). reflexivity.
Qed.

Lemma Tar_Flush_alike tw twl :
  tar_alike tw twl ->
  exists e, Tar.Flush tw = (tw, e) /\ Tar.Flush twl = (twl, e).
Proof.
  intros H. unfold Tar.Flush. rewrite (missing_alike _ _ H).
  destruct (Tar.missing tw >? 0); eexists; split; reflexivity.
Qed.

Lemma Tar_WriteHeader_alike tw twl h hl :
  tar_alike tw twl ->
  Tar.Size hl = Tar.Size h ->
  (exists k, Tar.Name h = chunkName (Tar.Name hl) k) ->
  exists tw' twl' e,
    Tar.WriteHeader tw h = (tw', e) /\ Tar.WriteHeader twl hl = (twl', e)
    /\ tar_alike tw' twl'.
Proof.
  intros H Hs Hn. unfold Tar.WriteHeader.
  destruct (Tar_Flush_alike _ _ H) as (e & -> & ->).
  pose proof H as (Hd & Hc & Hcl0). rewrite Hcl0.
  destruct (Tar.tw_closed tw) eqn:Hcl.
  - eexists _, _, _. split; [reflexivity|]. split; [reflexivity|]. exact H.
  - destruct e.
    + eexists _, _, _. split; [reflexivity|]. split; [reflexivity|]. exact H.
    + eexists _, _, _. split; [reflexivity|]. split; [reflexivity|].
      split; [|split; [|reflexivity]].
      * apply archive_alike. exact H.
      * cbn. repeat split; auto.
Qed.

Lemma Tar_Write_alike tw twl b :
  tar_alike tw twl ->
  exists tw' twl' n e,
    Tar.Write tw b = (tw', n, e) /\ Tar.Write twl b = (twl', n, e)
    /\ tar_alike tw' twl'.
Proof.
  intros H. pose proof H as (Hd & Hc & Hcl). unfold Tar.Write. rewrite Hcl.
  destruct (Tar.tw_closed tw) eqn:Hclosed.
  - eexists _, _, _, _. split; [reflexivity|]. split; [reflexivity|]. exact H.
  - destruct (Tar.tw_cur tw) as [e|] eqn:Hcur,
             (Tar.tw_cur twl) as [el|] eqn:Hcurl; cbn in Hc; try contradiction.
    + destruct Hc as (Hb & Hs & Hn). rewrite Hb, Hs.
      eexists _, _, _, _. split; [reflexivity|]. split; [reflexivity|].
      split; [exact Hd|]. split; [|reflexivity].
      cbn. repeat split; auto.
    + eexists _, _, _, _. split; [reflexivity|]. split; [reflexivity|]. exact H.
Qed.

Lemma Tar_Close_alike tw twl :
  tar_alike tw twl ->
  exists tw' twl' e,
    Tar.Close tw = (tw', e) /\ Tar.Close twl = (twl', e) /\ tar_alike tw' twl'.
Proof.
  intros H. unfold Tar.Close.
  destruct (Tar_Flush_alike _ _ H) as (e & -> & ->).
  pose proof H as (Hd & Hc & Hcl). rewrite Hcl.
  destruct (Tar.tw_closed tw) eqn:Hclosed.
  - eexists _, _, _. split; [reflexivity|]. split; [reflexivity|]. exact H.
  - destruct e; eexists _, _, _; (split; [reflexivity|]);
      (split; [reflexivity|]); [exact H|].
    split; [exact Hd|]. split; [exact Hc | reflexivity].
Qed.

Ltac fields :=
  cbn [tarWriter inputBuffer outputBuffer outputError open wait name chunkCount
       set_tarWriter set_inputBuffer set_outputBuffer set_outputError set_open
       set_wait set_name set_chunkCount
       LegacyWriter.tarWriter LegacyWriter.inputBuffer LegacyWriter.outputBuffer
       LegacyWriter.outputError LegacyWriter.open LegacyWriter.wait
       LegacyWriter.name
       LegacyWriter.set_tarWriter LegacyWriter.set_inputBuffer
       LegacyWriter.set_outputBuffer LegacyWriter.set_outputError
       LegacyWriter.set_open LegacyWriter.set_wait LegacyWriter.set_name
       fst snd] in *.

(** Take the two Writers apart, and identify what [alike] identifies. *)
Ltac apart w wl H :=
  destruct w as [tw ib ob oe op wt nm cc];
  destruct wl as [twl ibl obl oel opl wtl nml];
  unfold alike in H; fields;
  destruct H as (Ht & ? & ? & ? & ? & ? & Hw); subst ibl obl oel opl nml.

Ltac together :=
  unfold alike; fields;
  repeat match goal with
  | |- tar_alike _ _ => assumption
  | |- _ /\ _ => split
  | |- exists k, chunkName ?n ?c = chunkName ?n k => exists c; reflexivity
  | _ => solve [auto]
  end.

Lemma writeOutput_alike w wl k :
  alike w wl -> wait w = None ->
  alike (writeOutput w (chunkName (name w) k)) (LegacyWriter.writeOutput wl)
  /\ wait (writeOutput w (chunkName (name w) k)) = None
  /\ open (writeOutput w (chunkName (name w) k)) = open w
  /\ name (writeOutput w (chunkName (name w) k)) = name w.
Proof.
  intros H Hwn. apart w wl H. subst wt.
  unfold writeOutput, LegacyWriter.writeOutput. fields.
  destruct (Tar_WriteHeader_alike tw twl
              {| Tar.Name := chunkName nm k; Tar.Mode := 420; Tar.Size := len ob |}
              {| Tar.Name := nm; Tar.Mode := 0; Tar.Size := len ob |}
              Ht eq_refl (ex_intro _ k eq_refl))
    as (tw1 & twl1 & e & -> & -> & Ht1).
  destruct e as [e|]; [together|].
  destruct ob as [|x ob]; [together|].
  destruct (Tar_Write_alike tw1 twl1 (x :: ob) Ht1)
    as (tw2 & twl2 & n & e2 & -> & -> & Ht2).
  destruct e2; together.
Qed.

Lemma Wait_alike w wl :
  alike w wl ->
  alike (Wait w) (LegacyWriter.Wait wl)
  /\ wait (Wait w) = None
  /\ open (Wait w) = open w
  /\ name (Wait w) = name w.
Proof.
  intros H. unfold Wait, LegacyWriter.Wait.
  destruct (wait w) as [cn|] eqn:Hwn.
  - pose proof H as (_ & _ & _ & _ & _ & _ & Hw). rewrite Hwn in Hw.
    destruct Hw as (-> & k & ->).
    assert (H0 : alike (set_wait w None) (LegacyWriter.set_wait wl false)).
    { apart w wl H. together. }
    destruct (writeOutput_alike _ _ k H0 eq_refl) as (H1 & H2 & H3 & H4).
    change (name (set_wait w None)) with (name w) in *.
    change (open (set_wait w None)) with (open w) in *.
    auto.
  - pose proof H as (_ & _ & _ & _ & _ & _ & Hw). rewrite Hwn in Hw.
    rewrite Hw. auto.
Qed.

(** The outcome of the same call on the two Writers. *)
Definition outcome_alike (w : Writer) (r : Writer * option error)
           (rl : LegacyWriter.Writer * option error) : Prop :=
  alike (fst r) (fst rl) /\ snd rl = snd r
  /\ name (fst r) = name w.

Lemma swapInOut_alike w wl :
  alike w wl ->
  outcome_alike w (swapInOut w) (LegacyWriter.swapInOut wl)
  /\ open (fst (swapInOut w)) = open w.
Proof.
  intros H. unfold swapInOut, LegacyWriter.swapInOut, outcome_alike.
  destruct (Wait_alike w wl H) as (H1 & Hw1 & Ho1 & Hn1).
  destruct (Wait w) as [tw ib ob oe op wt nm cc] eqn:E1.
  destruct (LegacyWriter.Wait wl) as [twl ibl obl oel opl wtl nml] eqn:E2.
  unfold alike in H1. fields.
  destruct H1 as (Ht & ? & ? & ? & ? & ? & Hw); subst ibl obl oel opl nml wt.
  destruct oe as [e|]; fields.
  - split; [|auto]. split; [together | auto].
  - split; [|auto]. split; [|auto]. together.
Qed.

Lemma Flush_alike w wl :
  alike w wl ->
  outcome_alike w (Flush w) (LegacyWriter.Flush wl)
  /\ open (fst (Flush w)) = open w
  /\ (snd (Flush w) = None -> wait (fst (Flush w)) = None).
Proof.
  intros H. unfold Flush, LegacyWriter.Flush, outcome_alike.
  pose proof H as (_ & Hi & _ & _ & Hop & _). rewrite Hi, Hop.
  destruct (open w) eqn:Hopen; cbn [negb].
  2:{ split; [split; [exact H | auto] | split; [auto | discriminate]]. }
  assert (H1 : exists w1 wl1 e,
            (if len (inputBuffer w) >? 0 then swapInOut w else (w, None)) = (w1, e)
            /\ (if len (inputBuffer w) >? 0 then LegacyWriter.swapInOut wl
                else (wl, None)) = (wl1, e)
            /\ alike w1 wl1 /\ open w1 = open w /\ name w1 = name w).
  { destruct (len (inputBuffer w) >? 0).
    - destruct (swapInOut_alike w wl H) as ((Ha & He & Hn) & Ho).
      destruct (swapInOut w) as [w1 e], (LegacyWriter.swapInOut wl) as [wl1 el].
      fields. subst el. exists w1, wl1, e. auto.
    - exists w, wl, None. auto. }
  destruct H1 as (w1 & wl1 & e & -> & -> & Ha1 & Ho1 & Hn1).
  destruct e as [e|].
  { fields. split; [split; [exact Ha1 | auto] | split; [congruence | discriminate]]. }
  destruct (Wait_alike w1 wl1 Ha1) as (H2 & Hw2 & Ho2 & Hn2).
  pose proof H2 as (Ht2 & _ & _ & He2 & _). rewrite He2.
  destruct (outputError (Wait w1)) as [e|] eqn:Herr.
  { fields. split; [split; [exact H2 | split; [auto | congruence]]
                   | split; [congruence | discriminate]]. }
  destruct (Tar_Flush_alike _ _ Ht2) as (e & -> & ->).
  fields. split; [split; [|split; [reflexivity|]]|split].
  - destruct (Wait w1) as [tw ib ob oe op wt nm cc].
    destruct (LegacyWriter.Wait wl1) as [twl ibl obl oel opl wtl nml].
    exact H2.
  - destruct (Wait w1); fields. congruence.
  - destruct (Wait w1); fields. congruence.
  - intros _. destruct (Wait w1); fields. exact Hw2.
Qed.

Lemma alike_set_open w wl b :
  alike w wl -> alike (set_open w b) (LegacyWriter.set_open wl b).
Proof. intros H. apart w wl H. together. Qed.

Lemma alike_set_tarWriter w wl tw' twl' :
  alike w wl -> tar_alike tw' twl' ->
  alike (set_tarWriter w tw') (LegacyWriter.set_tarWriter wl twl').
Proof. intros H Ht'. apart w wl H. together. Qed.

Lemma alike_append w wl piece :
  alike w wl ->
  alike (set_inputBuffer w (inputBuffer w ++ piece))
    (LegacyWriter.set_inputBuffer wl (LegacyWriter.inputBuffer wl ++ piece)).
Proof. intros H. apart w wl H. together. Qed.

Lemma alike_set_name w wl n :
  alike w wl -> wait w = None ->
  alike (set_chunkCount (set_name w n) 0) (LegacyWriter.set_name wl n).
Proof. intros H Hwn. apart w wl H. subst wt. together. Qed.

Lemma Close_alike w wl :
  alike w wl ->
  alike (fst (Close w)) (fst (LegacyWriter.Close wl))
  /\ snd (LegacyWriter.Close wl) = snd (Close w).
Proof.
  intros H. unfold Close, LegacyWriter.Close.
  pose proof H as (_ & _ & _ & _ & Hop & _). rewrite Hop.
  destruct (open w); cbn [negb]; [|auto].
  destruct (Flush_alike w wl H) as ((Ha & He & _) & _).
  destruct (Flush w) as [w1 e], (LegacyWriter.Flush wl) as [wl1 el].
  cbn [fst snd] in *. subst el.
  destruct e as [e|].
  - cbn [fst snd]. split; [apply alike_set_open; exact Ha | reflexivity].
  - pose proof Ha as (Ht & _).
    destruct (Tar_Close_alike _ _ Ht) as (tw' & twl' & e & -> & -> & Ht').
    cbn [fst snd]. split; [|reflexivity].
    apply alike_set_open, alike_set_tarWriter; assumption.
Qed.

Lemma WriteHeader_alike w wl n :
  alike w wl ->
  alike (fst (WriteHeader w n)) (fst (LegacyWriter.WriteHeader wl n))
  /\ snd (LegacyWriter.WriteHeader wl n) = snd (WriteHeader w n)
  /\ open (fst (WriteHeader w n)) = open w.
Proof.
  intros H. unfold WriteHeader, LegacyWriter.WriteHeader.
  destruct (Flush_alike w wl H) as ((Ha & He & _) & Ho & Hw).
  destruct (open w) eqn:Hopen; cbn [negb].
  - destruct (Flush w) as [w1 e], (LegacyWriter.Flush wl) as [wl1 el].
    cbn [fst snd] in *. subst el.
    destruct e as [e|]; cbn [fst snd]; [auto|].
    split; [apply alike_set_name; auto|]. split; [reflexivity|].
    destruct w1; exact Ho.
  - unfold LegacyWriter.Flush.
    pose proof H as (_ & _ & _ & _ & Hop & _). rewrite Hop, Hopen. cbn.
    auto.
Qed.

(** The outcome of Write and of its loop on the two Writers. *)
Definition written_alike (op : bool) (nm : string)
           (r : go (Writer * Z * option error))
           (rl : go (LegacyWriter.Writer * Z * option error)) : Prop :=
  match r, rl with
  | Returns (w', n, e), Returns (wl', nl, el) =>
      alike w' wl' /\ nl = n /\ el = e /\ open w' = op /\ name w' = nm
  | Panics m, Panics ml => ml = m
  | OutOfFuel, OutOfFuel => True
  | _, _ => False
  end.

Lemma maybe_swap_alike (c : bool) w wl :
  alike w wl ->
  exists w1 wl1 e,
    (if c then swapInOut w else (w, None)) = (w1, e)
    /\ (if c then LegacyWriter.swapInOut wl else (wl, None)) = (wl1, e)
    /\ alike w1 wl1 /\ open w1 = open w /\ name w1 = name w.
Proof.
  intros H. destruct c.
  - destruct (swapInOut_alike w wl H) as ((Ha & He & Hn) & Ho).
    destruct (swapInOut w) as [w1 e], (LegacyWriter.swapInOut wl) as [wl1 el].
    cbn [fst snd] in *. subst el. exists w1, wl1, e. auto.
  - exists w, wl, None. auto.
Qed.

Lemma Write_loop_alike fuel : forall w wl b n start stop,
  alike w wl ->
  written_alike (open w) (name w)
    (Write_loop fuel w b n start stop)
    (LegacyWriter.Write_loop fuel wl b n start stop).
Proof.
  induction fuel as [|fuel IH]; intros w wl b n start stop H; [exact I|].
  cbn [Write_loop LegacyWriter.Write_loop].
  destruct (start <? len b).
  2:{ cbn. auto. }
  destruct (maybe_swap_alike (start >? 0) w wl H)
    as (w1 & wl1 & e & -> & -> & Ha & Ho & Hn).
  destruct e as [e|]; [cbn; auto|].
  destruct (slice b start stop) as [piece| |]; cbn [Go.bind]; [|reflexivity|exact I].
  change (LegacyWriter.min (stop + LegacyWriter.bufferLimit) (len b))
    with (MinInt (stop + bufferLimit) (len b)).
  pose proof (IH _ _ b (len piece) stop (MinInt (stop + bufferLimit) (len b))
                (alike_append w1 wl1 piece Ha)) as Hloop.
  change (open (set_inputBuffer w1 (inputBuffer w1 ++ piece))) with (open w1) in Hloop.
  change (name (set_inputBuffer w1 (inputBuffer w1 ++ piece))) with (name w1) in Hloop.
  rewrite Ho, Hn in Hloop. exact Hloop.
Qed.

Lemma Write_alike w wl b :
  alike w wl -> open w = true ->
  written_alike true (name w) (Write w b) (LegacyWriter.Write wl b).
Proof.
  intros H Hopen. unfold Write, LegacyWriter.Write. rewrite Hopen. cbn [negb].
  pose proof H as (_ & Hi & _). rewrite Hi.
  change (LegacyWriter.min (len b) (LegacyWriter.bufferLimit - len (inputBuffer w)))
    with (MinInt (len b) (bufferLimit - len (inputBuffer w))).
  pose proof (Write_loop_alike (S (S (List.length b))) w wl b 0 0
                (MinInt (len b) (bufferLimit - len (inputBuffer w))) H) as Hloop.
  rewrite Hopen in Hloop.
  destruct (Write_loop (S (S (List.length b))) w b 0 0 _) as [[[w1 n] e]| |],
           (LegacyWriter.Write_loop (S (S (List.length b))) wl b 0 0 _)
             as [[[wl1 nl] el]| |];
    cbn in Hloop; try contradiction; cbn [Go.bind]; auto.
  destruct Hloop as (Ha & -> & -> & Ho & Hn).
  destruct e as [e|]; [cbn; auto|].
  pose proof Ha as (_ & Hi1 & _). rewrite Hi1.
  change LegacyWriter.bufferThreshold with bufferThreshold.
  destruct (maybe_swap_alike (len (inputBuffer w1) >? bufferThreshold) w1 wl1 Ha)
    as (w2 & wl2 & e & Hs & Hsl & Ha2 & Ho2 & Hn2).
  destruct (len (inputBuffer w1) >? bufferThreshold).
  - rewrite Hs, Hsl.
    destruct e; cbn; (split; [exact Ha2|]); repeat split; congruence.
  - injection Hs as <- <-. injection Hsl as <-. cbn. auto.
Qed.

(** The outcome of a call on the two Writers. *)
Definition called_alike (r : go (Writer * option error))
           (rl : go (LegacyWriter.Writer * option error)) : Prop :=
  match r, rl with
  | Returns (w', e), Returns (wl', el) => alike w' wl' /\ el = e
  | Panics m, Panics ml => ml = m
  | OutOfFuel, OutOfFuel => True
  | _, _ => False
  end.

Lemma run_op_alike w wl o :
  alike w wl -> open w = true ->
  called_alike (run_op w o) (LegacyWriter.run_op wl o)
  /\ (WriterExtras.is_close o = false ->
      forall w' e, run_op w o = Returns (w', e) -> open w' = true).
Proof.
  intros H Hopen. destruct o as [n|b| |]; cbn [run_op LegacyWriter.run_op].
  - destruct (WriteHeader_alike w wl n H) as (Ha & He & Ho).
    destruct (WriteHeader w n) as [w1 e], (LegacyWriter.WriteHeader wl n) as [wl1 el].
    cbn [fst snd] in *. split; [cbn; auto|].
    intros _ w' e' E. injection E as <- <-. congruence.
  - pose proof (Write_alike w wl b H Hopen) as Hw.
    destruct (Write w b) as [[[w1 n] e]| |],
             (LegacyWriter.Write wl b) as [[[wl1 nl] el]| |];
      cbn in Hw; try contradiction; cbn [Go.bind].
    + destruct Hw as (Ha & _ & -> & Ho & _). split; [cbn; auto|].
      intros _ w' e' E. injection E as <- <-. exact Ho.
    + split; [exact Hw | discriminate].
    + split; [exact I | discriminate].
  - destruct (Flush_alike w wl H) as ((Ha & He & _) & Ho & _).
    destruct (Flush w) as [w1 e], (LegacyWriter.Flush wl) as [wl1 el].
    cbn [fst snd] in *. split; [cbn; auto|].
    intros _ w' e' E. injection E as <- <-. congruence.
  - destruct (Close_alike w wl H) as (Ha & He).
    destruct (Close w) as [w1 e], (LegacyWriter.Close wl) as [wl1 el].
    cbn [fst snd] in *. split; [cbn; auto | discriminate].
Qed.

Lemma run_ops_alike ops : forall w wl,
  alike w wl -> open w = true ->
  WriterExtras.not_closing (removelast ops) ->
  called_alike (run_ops w ops) (LegacyWriter.run_ops wl ops).
Proof.
  induction ops as [|o ops IH]; intros w wl H Hopen Hnc;
    cbn [run_ops LegacyWriter.run_ops]; [cbn; auto|].
  destruct (run_op_alike w wl o H Hopen) as (Hc & Hstay).
  destruct (run_op w o) as [[w1 e]| |] eqn:E,
           (LegacyWriter.run_op wl o) as [[wl1 el]| |];
    cbn in Hc; try contradiction; cbn [Go.bind]; auto.
  destruct Hc as (Ha & ->).
  destruct e as [e|]; [cbn; auto|].
  destruct ops as [|o' ops']; [cbn; auto|].
  unfold WriterExtras.not_closing in Hnc. cbn [removelast forallb] in Hnc.
  apply andb_true_iff in Hnc. destruct Hnc as (Ho & Hnc).
  apply negb_true_iff in Ho.
  apply IH; [exact Ha | apply (Hstay Ho _ _ eq_refl) | exact Hnc].
Qed.

Lemma NewWriter_alike : alike NewWriter LegacyWriter.NewWriter.
Proof. unfold alike. cbn. repeat split; constructor. Qed.

(** X26: the Writer before chunks were numbered cuts the stream at the
    same places: for every sequence of calls in which Close, if called,
    comes last, the two Writers return the same errors, and their
    archives hold the same entries one by one, with the same bytes and
    sizes; the later Writer names each entry by the name of the earlier
    one with a chunk number. *)
Theorem numbered_writer_cuts_as_before (ops : list op) :
  WriterExtras.not_closing (removelast ops) ->
  match written ops, LegacyWriter.written ops with
  | Returns (a, e), Returns (al, el) => Forall2 entry_alike a al /\ el = e
  | Panics m, Panics ml => ml = m
  | OutOfFuel, OutOfFuel => True
  | _, _ => False
  end.
Proof.
  intros Hnc. unfold written, LegacyWriter.written.
  pose proof (run_ops_alike ops NewWriter LegacyWriter.NewWriter
                NewWriter_alike eq_refl Hnc) as H.
  destruct (run_ops NewWriter ops) as [[w e]| |],
           (LegacyWriter.run_ops LegacyWriter.NewWriter ops) as [[wl el]| |];
    cbn in H; try contradiction; cbn [Go.bind]; auto.
  destruct H as (Ha & ->). split; [|reflexivity].
  apply archive_alike. apply Ha.
Qed.

Lemma numbered_writer_cuts_as_before_witness :
  match written [OpWriteHeader "a"; OpWrite [x00; x01]; OpFlush; OpWrite [x02];
                 OpClose],
        LegacyWriter.written [OpWriteHeader "a"; OpWrite [x00; x01]; OpFlush;
                              OpWrite [x02]; OpClose] with
  | Returns (a, e), Returns (al, el) => Forall2 entry_alike a al /\ el = e
  | Panics m, Panics ml => ml = m
  | OutOfFuel, OutOfFuel => True
  | _, _ => False
  end.
Proof.
  apply (numbered_writer_cuts_as_before
           [OpWriteHeader "a"; OpWrite [x00; x01]; OpFlush; OpWrite [x02]; OpClose]).
  reflexivity.
Defined.

End LegacyExtras.
